(** * Progressive escape-time fractal renderer: worker and compositor

    A shallow embedding of [src/lib/fractal/worker.ts] (iteration engine,
    tile compute unit, render scheduler) and [src/lib/fractal/renderer.ts]
    (compositor), together with the properties of the specification that
    are checked against them.

    JavaScript numbers are IEEE-754 binary64 values and are modelled by
    Rocq's primitive floats.  Fields that the wire protocol declares as
    integers (canvas sizes, tile sizes, iteration limits, request ids) are
    modelled by [Z]. *)

(** Beyond the two files of the renderer, the development embeds the
    parameter controls of the page that drives it
    ([src/app/sim/fractal/page.tsx]) and the construction of (u, v)-flower
    graphs found in [src/lib/fractal/types.ts], with the properties they
    show. *)

From Stdlib Require Import ZArith List Bool Lia Floats Permutation Sorted Reals Lra Psatz.
Import ListNotations.

Set Warnings "-inexact-float".

Local Open Scope float_scope.

(** ** JavaScript numbers *)

Module JS.

(** [a > b] on numbers: false as soon as one operand is NaN. *)
Definition gtb (a b : float) : bool := PrimFloat.ltb b a.

(** [a === b] on numbers. *)
Definition seq (a b : float) : bool := PrimFloat.eqb a b.

(** [isFinite(x)]. *)
Definition isFinite (x : float) : bool := negb (is_nan x || is_infinity x).

(** The number denoted by an integer (exact below 2^53, rounded to
    nearest above). *)
Definition ofZ (z : Z) : float := SF2Prim (binary_normalize prec emax z 0 false).

(** [Math.floor(x)] read as an integer: the exact floor of every finite
    [x].  The protocol fields being integers, the non-finite cases are
    pinned to integers: NaN to [0], the infinities to integers beyond
    every finite number.  A pinned value stands for the code's only where
    it is used as a loop limit that is NaN or [-Infinity] (no iteration
    either way) or under [Math.min(512, _)] at [+Infinity]; it does not
    as a tile size, nor as the iteration limit [+Infinity] (a loop the
    code never leaves).  The statements about those fields are made for
    finite numbers: see [finiteTileSizes] and [finiteProfiles]. *)
Definition floorZ (x : float) : Z :=
  match Prim2SF x with
  | S754_finite s m e =>
      if (0 <=? e)%Z then (cond_Zopp s (Zpos m) * 2 ^ e)%Z
      else (cond_Zopp s (Zpos m) / 2 ^ (- e))%Z
  | S754_infinity s => cond_Zopp s (2 ^ 1024)%Z
  | _ => 0%Z
  end.

(** [a % b]: the exact remainder of the truncating division, carrying
    the sign of the dividend. *)
Definition fmod (a b : float) : float :=
  match Prim2SF a, Prim2SF b with
  | S754_nan, _ | _, S754_nan => nan
  | S754_infinity _, _ => nan
  | _, S754_zero _ => nan
  | S754_zero _, _ => a
  | _, S754_infinity _ => a
  | S754_finite sa ma ea, S754_finite _ mb eb =>
      let e := Z.min ea eb in
      let r := ((Zpos ma * 2 ^ (ea - e)) mod (Zpos mb * 2 ^ (eb - e)))%Z in
      if (r =? 0)%Z then (if sa then neg_zero else zero)
      else
        let f := SF2Prim (binary_normalize prec emax r e false) in
        if sa then - f else f
  end.

(** [Math.round(x)]: the nearest integral number, ties towards
    [+Infinity]. *)
Definition round (x : float) : float :=
  match Prim2SF x with
  | S754_finite s m e =>
      if (0 <=? e)%Z then x
      else
        let n := ((cond_Zopp s (Zpos m) * 2 + 2 ^ (- e)) / 2 ^ (- e + 1))%Z in
        if (n =? 0)%Z then (if s then neg_zero else zero) else ofZ n
  | _ => x
  end.

(** The conversion applied by a store into a [Uint8ClampedArray]
    (the [data] of an [ImageData]): NaN becomes [0], the value is
    clamped to [0..255] and rounded to nearest, ties to even. *)
Definition toUint8Clamp (x : float) : Z :=
  match Prim2SF x with
  | S754_finite false m e =>
      if (0 <=? e)%Z then Z.min 255 (Zpos m * 2 ^ e)
      else
        let q := (Zpos m / 2 ^ (- e))%Z in
        let r := (Zpos m mod 2 ^ (- e))%Z in
        let n := match (2 * r ?= 2 ^ (- e))%Z with
                 | Lt => q
                 | Gt => (q + 1)%Z
                 | Eq => if Z.even q then q else (q + 1)%Z
                 end in
        Z.min 255 n
  | S754_infinity false => 255%Z
  | _ => 0%Z
  end.

End JS.

Infix ">?" := JS.gtb (at level 70, no associativity) : float_scope.
Infix "===" := JS.seq (at level 70, no associativity) : float_scope.

(** The functions of the host's [Math] object whose results the language
    standard leaves implementation-approximated.  The model is parametric
    in them. *)
Class MathHost : Type := {
  Math_log   : float -> float;
  Math_log2  : float -> float;
  Math_exp   : float -> float;
  Math_cos   : float -> float;
  Math_sin   : float -> float;
  Math_pow   : float -> float -> float;
  Math_atan2 : float -> float -> float
}.

(** ** Data model ([types.ts]) *)

Record FractalParams : Type := {
  realZ0 : float;
  imagZ0 : float;
  realC : float;
  imagC : float;
  exponent : float;
  imagExponent : float;
  colorHue : float
}.

Record Viewport : Type := {
  centerX : float;
  centerY : float;
  zoom : float
}.

Record RenderQuality : Type := {
  maxIterations : Z;
  tileSize : Z;
  tilesPerFrame : Z
}.

(** A tile: its pixel rectangle and the bytes of its [ImageData]
    (RGBA, row-major, [4 * width * height] entries). *)
Record Tile : Type := {
  tile_x : Z;
  tile_y : Z;
  tile_width : Z;
  tile_height : Z;
  imageData : list Z
}.

Record RenderRequest : Type := {
  canvasWidth : Z;
  canvasHeight : Z;
  rq_viewport : Viewport;
  rq_params : FractalParams;
  quality : RenderQuality;
  rq_requestId : Z;
  storeIterations : option bool
}.

Record TileResponse : Type := {
  tile : Tile;
  tr_requestId : Z;
  isComplete : bool;
  tr_iterationData : option (list float)
}.

(** [WorkerRequest = RenderRequest | CancelRequest]; a [CancelRequest]
    carries a [requestId]. *)
Inductive WorkerRequest : Type :=
| Render (r : RenderRequest)
| Cancel (requestId : Z).

(** [lo, lo+1, ..., hi-1]: the values taken by the counter of
    [for (let i = lo; i < hi; i++)]. *)
Definition zrange (lo hi : Z) : list Z :=
  map (fun i => (lo + Z.of_nat i)%Z) (seq 0 (Z.to_nat (hi - lo))).

(** [Math.ceil(a / b)] on integers, [b] non-zero. *)
Definition ceilDiv (a b : Z) : Z := (- ((- a) / b))%Z.

(** ** Iteration engine ([worker.ts], [computePixel]) *)

Module Worker.

Definition isInCardioid (x y : float) : bool :=
  let q := (x - 0.25) * (x - 0.25) + y * y in
  q * (q + (x - 0.25)) <? 0.25 * y * y.

Definition isInPeriod2Bulb (x y : float) : bool :=
  (x + 1) * (x + 1) + y * y <? 0.0625.

Section IterationEngine.
Context {M : MathHost}.

(** The [while (iteration < maxIterations)] loop.  [fuel] is
    [maxIterations - iteration]; the result pairs the returned number
    with the number of recurrence updates that were started. *)
Fixpoint escapeLoop (params : FractalParams) (cr ci : float)
    (fuel : nat) (iteration : Z) (zr zi zrSq ziSq : float) : float * Z :=
  match fuel with
  | O => (-1, iteration)
  | S fuel' =>
    if zrSq + ziSq >? 4 then
      let log_zn := Math_log (zrSq + ziSq) / 2 in
      let nu := Math_log (log_zn / Math_log 2) / Math_log 2 in
      (JS.ofZ iteration + 1 - nu, iteration)
    else if (exponent params === 2) && (imagExponent params === 0) then
      let zrTemp := zrSq - ziSq + cr in
      let zi' := 2 * zr * zi + ci in
      let zr' := zrTemp in
      escapeLoop params cr ci fuel' (iteration + 1)%Z zr' zi' (zr' * zr') (zi' * zi')
    else if imagExponent params === 0 then
      let r := PrimFloat.sqrt (zrSq + ziSq) in
      let theta := Math_atan2 zi zr in
      let rk := Math_pow r (exponent params) in
      let thetaK := theta * exponent params in
      let zr' := rk * Math_cos thetaK + cr in
      let zi' := rk * Math_sin thetaK + ci in
      escapeLoop params cr ci fuel' (iteration + 1)%Z zr' zi' (zr' * zr') (zi' * zi')
    else
      let r := PrimFloat.sqrt (zrSq + ziSq) in
      if r <? 1e-10 then (-1, iteration)
      else
        let theta := Math_atan2 zi zr in
        let lnR := Math_log r in
        let a := exponent params in
        let b := imagExponent params in
        let magnitude := Math_pow r a * Math_exp (- b * theta) in
        let angle := a * theta + b * lnR in
        if negb (JS.isFinite magnitude) || negb (JS.isFinite angle) then
          (JS.ofZ iteration, iteration)
        else
          let zr' := magnitude * Math_cos angle + cr in
          let zi' := magnitude * Math_sin angle + ci in
          if negb (JS.isFinite zr') || negb (JS.isFinite zi') then
            (JS.ofZ iteration, iteration)
          else
            escapeLoop params cr ci fuel' (iteration + 1)%Z zr' zi' (zr' * zr') (zi' * zi')
  end.

(** [computePixel] together with the final value of its loop counter
    ([0] when the loop is never entered). *)
Definition computePixelRun (x0 y0 : float) (params : FractalParams)
    (maxIterations : Z) (useJulia : bool) : float * Z :=
  if negb useJulia && (isInCardioid x0 y0 || isInPeriod2Bulb x0 y0) then (-1, 0%Z)
  else
    let cr := if useJulia then realC params else x0 in
    let ci := if useJulia then imagC params else y0 in
    let zr := if useJulia then x0 else realZ0 params in
    let zi := if useJulia then y0 else imagZ0 params in
    escapeLoop params cr ci (Z.to_nat maxIterations) 0%Z zr zi (zr * zr) (zi * zi).

Definition computePixel (x0 y0 : float) (params : FractalParams)
    (maxIterations : Z) (useJulia : bool) : float :=
  fst (computePixelRun x0 y0 params maxIterations useJulia).

End IterationEngine.


(** ** Tile compute unit ([worker.ts], [hsvToRgb] and [computeTile]) *)

Definition hsvToRgb (h s v : float) : float * float * float :=
  let c := v * s in
  let x := c * (1 - abs (JS.fmod (h / 60) 2 - 1)) in
  let m := v - c in
  let '(r, g, b) :=
    if h <? 60 then (c, x, 0)
    else if h <? 120 then (x, c, 0)
    else if h <? 180 then (0, c, x)
    else if h <? 240 then (0, x, c)
    else if h <? 300 then (x, 0, c)
    else (c, 0, x) in
  (JS.round ((r + m) * 255), JS.round ((g + m) * 255), JS.round ((b + m) * 255)).

(** The four bytes [computeTile] stores at [pixelIndex .. pixelIndex + 3]
    for a pixel whose smooth iteration value is [smoothIter]. *)
Definition shadePixel (params : FractalParams) (maxIterations : Z)
    (smoothIter : float) : list Z :=
  let saturation := 0.85 in
  if smoothIter <? 0 then [0; 0; 0; 255]%Z
  else
    let t := PrimFloat.sqrt (smoothIter / JS.ofZ maxIterations) in
    let hue := JS.fmod (colorHue params + t * 360) 360 in
    let value := 0.5 + t * 0.5 in
    let '(r, g, b) := hsvToRgb hue saturation value in
    [JS.toUint8Clamp r; JS.toUint8Clamp g; JS.toUint8Clamp b; 255%Z].

Section TileCompute.
Context {M : MathHost}.

Definition computeTile (tileX tileY tileWidth tileHeight : Z)
    (canvasWidth canvasHeight : Z) (viewport : Viewport)
    (params : FractalParams) (maxIterations : Z) : Tile :=
  let aspectRatio := JS.ofZ canvasWidth / JS.ofZ canvasHeight in
  let scale := 4 / zoom viewport in
  let isJuliaSet :=
    ((abs (realC params - 0) >? 0.001) || (abs (imagC params) >? 0.001)) &&
    ((abs (realZ0 params) <? 0.001) && (abs (imagZ0 params) <? 0.001)) in
  let useJulia := isJuliaSet in
  let data :=
    flat_map (fun py =>
      flat_map (fun px =>
        let screenX := (tileX + px)%Z in
        let screenY := (tileY + py)%Z in
        let x0 := centerX viewport +
                  ((JS.ofZ screenX / JS.ofZ canvasWidth - 0.5) * scale * aspectRatio) in
        let y0 := centerY viewport -
                  ((JS.ofZ screenY / JS.ofZ canvasHeight - 0.5) * scale) in
        let smoothIter := computePixel x0 y0 params maxIterations useJulia in
        shadePixel params maxIterations smoothIter)
      (zrange 0 tileWidth))
    (zrange 0 tileHeight) in
  {| tile_x := tileX; tile_y := tileY;
     tile_width := tileWidth; tile_height := tileHeight;
     imageData := data |}.

End TileCompute.

(** ** Render scheduler ([worker.ts], [handleRenderRequest]) *)

(** [Array.prototype.sort] with a comparator: a stable sort.  [cmp a b]
    stands for the sign of the comparator's result. *)
Section ArraySort.
Context {A : Type} (cmp : A -> A -> comparison).

Fixpoint insertSorted (a : A) (l : list A) : list A :=
  match l with
  | [] => [a]
  | b :: l' =>
      match cmp a b with
      | Gt => b :: insertSorted a l'
      | _ => a :: b :: l'
      end
  end.

Fixpoint Array_sort (l : list A) : list A :=
  match l with
  | [] => []
  | a :: l' => insertSorted a (Array_sort l')
  end.
End ArraySort.

(** The square of the distance, in tile-grid units, between a tile and
    the centre tile. *)
Definition dist2 (centerTileX centerTileY : Z) (t : Z * Z) : Z :=
  ((fst t - centerTileX) ^ 2 + (snd t - centerTileY) ^ 2)%Z.

(** The sign of [distA - distB] in the comparator passed to [tiles.sort].
    For a grid of fewer than 2^24 cells a side the squared distances are
    integers below 2^50: [Math.pow(., 2)] and the sum yield them exactly,
    and the correctly rounded square root orders them as they are
    ordered. *)
Definition compareTiles (centerTileX centerTileY : Z) (a b : Z * Z) : comparison :=
  (dist2 centerTileX centerTileY a ?= dist2 centerTileX centerTileY b)%Z.

Definition tilesX (canvasWidth tileSize : Z) : Z := ceilDiv canvasWidth tileSize.
Definition tilesY (canvasHeight tileSize : Z) : Z := ceilDiv canvasHeight tileSize.

(** The two nested generation loops: row-major tile coordinates. *)
Definition generateTiles (tilesX tilesY : Z) : list (Z * Z) :=
  flat_map (fun ty => map (fun tx => (tx, ty)) (zrange 0 tilesX)) (zrange 0 tilesY).

(** The [tiles] array after [tiles.sort]. *)
Definition sortedTiles (canvasWidth canvasHeight tileSize : Z) : list (Z * Z) :=
  let tx := tilesX canvasWidth tileSize in
  let ty := tilesY canvasHeight tileSize in
  Array_sort (compareTiles (tx / 2) (ty / 2)) (generateTiles tx ty).

(** The closure created by one call of [handleRenderRequest]: the request
    and the local variables [tiles], [totalTiles], [tilesComputed] and
    [tileIndex] shared by the successive calls of [processBatch]. *)
Record Job : Type := {
  request : RenderRequest;
  tiles : list (Z * Z);
  totalTiles : Z;
  tilesComputed : Z;
  tileIndex : Z
}.

(** The worker: the module variable [currentRequestId], the callbacks
    registered with [setTimeout] that have not run yet (oldest first),
    and the responses posted so far (oldest first). *)
Record WState : Type := {
  currentRequestId : Z;
  timers : list Job;
  outbox : list TileResponse
}.

Definition initial : WState :=
  {| currentRequestId := -1; timers := []; outbox := [] |}.

(** The tile rectangle computed for grid cell [(tx, ty)]. *)
Definition tileRect (r : RenderRequest) (t : Z * Z) : Z * Z * Z * Z :=
  let tileSize := tileSize (quality r) in
  let tileX := (fst t * tileSize)%Z in
  let tileY := (snd t * tileSize)%Z in
  let tileWidth := Z.min tileSize (canvasWidth r - tileX) in
  let tileHeight := Z.min tileSize (canvasHeight r - tileY) in
  (tileX, tileY, tileWidth, tileHeight).

Section Scheduler.
Context {M : MathHost}.

(** The body of the [for] loop of [processBatch] after its guard. *)
Definition emitTile (st : WState) (j : Job) (t : Z * Z) : WState * Job :=
  let r := request j in
  let '(tileX, tileY, tileWidth, tileHeight) := tileRect r t in
  let tile := computeTile tileX tileY tileWidth tileHeight
                (canvasWidth r) (canvasHeight r) (rq_viewport r) (rq_params r)
                (maxIterations (quality r)) in
  let tilesComputed' := (tilesComputed j + 1)%Z in
  let response :=
    {| tile := tile;
       tr_requestId := rq_requestId r;
       isComplete := (tilesComputed' =? totalTiles j)%Z;
       tr_iterationData := None |} in
  ({| currentRequestId := currentRequestId st;
      timers := timers st;
      outbox := outbox st ++ [response] |},
   {| request := r; tiles := tiles j; totalTiles := totalTiles j;
      tilesComputed := tilesComputed'; tileIndex := tileIndex j |}).

(** The [for (let i = tileIndex; i < batchEnd; i++)] loop.  The boolean
    is [false] when the loop left [processBatch] early: by its [return],
    or because [tiles[i]] does not exist and destructuring it throws. *)
Fixpoint batchLoop (indices : list Z) (st : WState) (j : Job) : bool * WState * Job :=
  match indices with
  | [] => (true, st, j)
  | i :: rest =>
      if negb (currentRequestId st =? rq_requestId (request j))%Z then (false, st, j)
      else if (i <? 0)%Z then (false, st, j)
      else
        match nth_error (tiles j) (Z.to_nat i) with
        | None => (false, st, j)
        | Some t => let '(st', j') := emitTile st j t in batchLoop rest st' j'
        end
  end.

Definition processBatch (st : WState) (j : Job) : WState :=
  if negb (currentRequestId st =? rq_requestId (request j))%Z then st
  else
    let batchSize := tilesPerFrame (quality (request j)) in
    let batchEnd := Z.min (tileIndex j + batchSize) (Z.of_nat (length (tiles j))) in
    let '(finished, st', j') := batchLoop (zrange (tileIndex j) batchEnd) st j in
    if negb finished then st'
    else
      let j'' := {| request := request j'; tiles := tiles j'; totalTiles := totalTiles j';
                    tilesComputed := tilesComputed j'; tileIndex := batchEnd |} in
      if (tileIndex j'' <? Z.of_nat (length (tiles j'')))%Z
         && (currentRequestId st' =? rq_requestId (request j''))%Z
      then {| currentRequestId := currentRequestId st';
              timers := timers st' ++ [j''];
              outbox := outbox st' |}
      else st'.

(** [handleRenderRequest].  With [tileSize = 0] the grid dimensions are
    not integers: a positive [canvasHeight] makes the generation loop run
    for ever ([None]); otherwise no tile is generated. *)
Definition handleRenderRequest (st : WState) (r : RenderRequest) : option WState :=
  let st1 := {| currentRequestId := rq_requestId r;
                timers := timers st; outbox := outbox st |} in
  let ts := tileSize (quality r) in
  if (ts =? 0)%Z then
    if (0 <? canvasHeight r)%Z then None
    else Some (processBatch st1
                 {| request := r; tiles := []; totalTiles := 0;
                    tilesComputed := 0; tileIndex := 0 |})
  else
    let tx := tilesX (canvasWidth r) ts in
    let ty := tilesY (canvasHeight r) ts in
    Some (processBatch st1
            {| request := r;
               tiles := sortedTiles (canvasWidth r) (canvasHeight r) ts;
               totalTiles := (tx * ty)%Z;
               tilesComputed := 0; tileIndex := 0 |}).

(** [self.onmessage]. *)
Definition onmessage (st : WState) (m : WorkerRequest) : option WState :=
  match m with
  | Cancel _ => Some {| currentRequestId := -1;
                        timers := timers st; outbox := outbox st |}
  | Render r => handleRenderRequest st r
  end.

(** The tasks the worker's event loop runs, one at a time: the delivery
    of a message, or the oldest pending [setTimeout] callback. *)
Inductive Event : Type :=
| Message (m : WorkerRequest)
| Timeout.

Definition step (st : WState) (e : Event) : option WState :=
  match e with
  | Message m => onmessage st m
  | Timeout =>
      match timers st with
      | [] => Some st
      | j :: rest =>
          Some (processBatch {| currentRequestId := currentRequestId st;
                                timers := rest; outbox := outbox st |} j)
      end
  end.

Fixpoint run (st : WState) (es : list Event) : option WState :=
  match es with
  | [] => Some st
  | e :: es' =>
      match step st e with
      | None => None
      | Some st' => run st' es'
      end
  end.

End Scheduler.

End Worker.


(** ** Compositor ([renderer.ts], class [FractalRenderer]) *)

(** What a 2D canvas shows, as the sequence of drawing calls made on it
    since its bitmap was last reset.  How the host rasterises a scaled or
    sub-pixel [drawImage] is not modelled. *)
Inductive Surface : Type :=
| Blank
    (* a new canvas, or one whose [width] or [height] was assigned *)
| FillBlack (w h : Z) (under : Surface)
    (* [fillStyle = '#000'; fillRect(0, 0, w, h)] *)
| PutImageData (data : list Z) (w h : Z) (dx dy : Z) (under : Surface)
    (* [putImageData(imageData, dx, dy)] *)
| DrawImage (src : Surface) (srcW srcH : Z) (under : Surface)
    (* [drawImage(src, 0, 0)] *)
| DrawImageCrop (src : Surface) (srcW srcH : Z)
    (sx sy sw sh dx dy dw dh : float) (under : Surface)
    (* [drawImage(src, sx, sy, sw, sh, dx, dy, dw, dh)] *)
| DrawImageSeed (src : Surface) (srcW srcH : Z)
    (originX originY scaleChange shiftX shiftY : float) (under : Surface).
    (* [save(); translate(originX, originY); scale(scaleChange, scaleChange);
        translate(shiftX, shiftY); drawImage(src, 0, 0); restore()] *)

Record Canvas : Type := {
  width : Z;
  height : Z;
  content : Surface
}.

(** [document.createElement('canvas')]. *)
Definition newCanvas : Canvas := {| width := 300; height := 150; content := Blank |}.

(** [Partial<FractalParams>]: [None] for a key that is absent. *)
Record PartialParams : Type := {
  p_realZ0 : option float;
  p_imagZ0 : option float;
  p_realC : option float;
  p_imagC : option float;
  p_exponent : option float;
  p_imagExponent : option float;
  p_colorHue : option float
}.

Module Renderer.

(** The fields of a [FractalRenderer].  [overscanFactor], [minZoom] and
    [maxZoom] are constants; [interactionTimeout] is never assigned. *)
Record State : Type := {
  canvas : Canvas;
  posted : list WorkerRequest;
  currentRequestId : Z;
  overscanCanvas : Canvas;
  overscanViewport : option Viewport;
  backgroundCanvas : Canvas;
  backgroundViewport : option Viewport;
  viewport : Viewport;
  params : FractalParams;
  isInteracting : bool;
  lowQuality : RenderQuality;
  highQuality : RenderQuality;
  iterationData : option (list float);
  iterationDataWidth : Z;
  iterationDataHeight : Z;
  resolutionMultiplier : float;
  terminated : bool
}.

Definition set_canvas (v : Canvas) (s : State) : State :=
  Build_State v (posted s) (currentRequestId s) (overscanCanvas s)
    (overscanViewport s) (backgroundCanvas s) (backgroundViewport s)
    (viewport s) (params s) (isInteracting s) (lowQuality s) (highQuality s)
    (iterationData s) (iterationDataWidth s) (iterationDataHeight s)
    (resolutionMultiplier s) (terminated s).

Definition set_posted (v : list WorkerRequest) (s : State) : State :=
  Build_State (canvas s) v (currentRequestId s) (overscanCanvas s)
    (overscanViewport s) (backgroundCanvas s) (backgroundViewport s)
    (viewport s) (params s) (isInteracting s) (lowQuality s) (highQuality s)
    (iterationData s) (iterationDataWidth s) (iterationDataHeight s)
    (resolutionMultiplier s) (terminated s).

Definition set_currentRequestId (v : Z) (s : State) : State :=
  Build_State (canvas s) (posted s) v (overscanCanvas s) (overscanViewport
    s) (backgroundCanvas s) (backgroundViewport s) (viewport s) (params s)
    (isInteracting s) (lowQuality s) (highQuality s) (iterationData s)
    (iterationDataWidth s) (iterationDataHeight s) (resolutionMultiplier s)
    (terminated s).

Definition set_overscanCanvas (v : Canvas) (s : State) : State :=
  Build_State (canvas s) (posted s) (currentRequestId s) v (overscanViewport
    s) (backgroundCanvas s) (backgroundViewport s) (viewport s) (params s)
    (isInteracting s) (lowQuality s) (highQuality s) (iterationData s)
    (iterationDataWidth s) (iterationDataHeight s) (resolutionMultiplier s)
    (terminated s).

Definition set_overscanViewport (v : option Viewport) (s : State) : State :=
  Build_State (canvas s) (posted s) (currentRequestId s) (overscanCanvas s)
    v (backgroundCanvas s) (backgroundViewport s) (viewport s) (params s)
    (isInteracting s) (lowQuality s) (highQuality s) (iterationData s)
    (iterationDataWidth s) (iterationDataHeight s) (resolutionMultiplier s)
    (terminated s).

Definition set_backgroundCanvas (v : Canvas) (s : State) : State :=
  Build_State (canvas s) (posted s) (currentRequestId s) (overscanCanvas s)
    (overscanViewport s) v (backgroundViewport s) (viewport s) (params s)
    (isInteracting s) (lowQuality s) (highQuality s) (iterationData s)
    (iterationDataWidth s) (iterationDataHeight s) (resolutionMultiplier s)
    (terminated s).

Definition set_backgroundViewport (v : option Viewport) (s : State) : State :=
  Build_State (canvas s) (posted s) (currentRequestId s) (overscanCanvas s)
    (overscanViewport s) (backgroundCanvas s) v (viewport s) (params s)
    (isInteracting s) (lowQuality s) (highQuality s) (iterationData s)
    (iterationDataWidth s) (iterationDataHeight s) (resolutionMultiplier s)
    (terminated s).

Definition set_viewport (v : Viewport) (s : State) : State :=
  Build_State (canvas s) (posted s) (currentRequestId s) (overscanCanvas s)
    (overscanViewport s) (backgroundCanvas s) (backgroundViewport s) v
    (params s) (isInteracting s) (lowQuality s) (highQuality s)
    (iterationData s) (iterationDataWidth s) (iterationDataHeight s)
    (resolutionMultiplier s) (terminated s).

Definition set_params (v : FractalParams) (s : State) : State :=
  Build_State (canvas s) (posted s) (currentRequestId s) (overscanCanvas s)
    (overscanViewport s) (backgroundCanvas s) (backgroundViewport s)
    (viewport s) v (isInteracting s) (lowQuality s) (highQuality s)
    (iterationData s) (iterationDataWidth s) (iterationDataHeight s)
    (resolutionMultiplier s) (terminated s).

Definition set_isInteracting (v : bool) (s : State) : State :=
  Build_State (canvas s) (posted s) (currentRequestId s) (overscanCanvas s)
    (overscanViewport s) (backgroundCanvas s) (backgroundViewport s)
    (viewport s) (params s) v (lowQuality s) (highQuality s) (iterationData
    s) (iterationDataWidth s) (iterationDataHeight s) (resolutionMultiplier
    s) (terminated s).

Definition set_lowQuality (v : RenderQuality) (s : State) : State :=
  Build_State (canvas s) (posted s) (currentRequestId s) (overscanCanvas s)
    (overscanViewport s) (backgroundCanvas s) (backgroundViewport s)
    (viewport s) (params s) (isInteracting s) v (highQuality s)
    (iterationData s) (iterationDataWidth s) (iterationDataHeight s)
    (resolutionMultiplier s) (terminated s).

Definition set_highQuality (v : RenderQuality) (s : State) : State :=
  Build_State (canvas s) (posted s) (currentRequestId s) (overscanCanvas s)
    (overscanViewport s) (backgroundCanvas s) (backgroundViewport s)
    (viewport s) (params s) (isInteracting s) (lowQuality s) v
    (iterationData s) (iterationDataWidth s) (iterationDataHeight s)
    (resolutionMultiplier s) (terminated s).

Definition set_iterationData (v : option (list float)) (s : State) : State :=
  Build_State (canvas s) (posted s) (currentRequestId s) (overscanCanvas s)
    (overscanViewport s) (backgroundCanvas s) (backgroundViewport s)
    (viewport s) (params s) (isInteracting s) (lowQuality s) (highQuality s)
    v (iterationDataWidth s) (iterationDataHeight s) (resolutionMultiplier
    s) (terminated s).

Definition set_iterationDataWidth (v : Z) (s : State) : State :=
  Build_State (canvas s) (posted s) (currentRequestId s) (overscanCanvas s)
    (overscanViewport s) (backgroundCanvas s) (backgroundViewport s)
    (viewport s) (params s) (isInteracting s) (lowQuality s) (highQuality s)
    (iterationData s) v (iterationDataHeight s) (resolutionMultiplier s)
    (terminated s).

Definition set_iterationDataHeight (v : Z) (s : State) : State :=
  Build_State (canvas s) (posted s) (currentRequestId s) (overscanCanvas s)
    (overscanViewport s) (backgroundCanvas s) (backgroundViewport s)
    (viewport s) (params s) (isInteracting s) (lowQuality s) (highQuality s)
    (iterationData s) (iterationDataWidth s) v (resolutionMultiplier s)
    (terminated s).

Definition set_resolutionMultiplier (v : float) (s : State) : State :=
  Build_State (canvas s) (posted s) (currentRequestId s) (overscanCanvas s)
    (overscanViewport s) (backgroundCanvas s) (backgroundViewport s)
    (viewport s) (params s) (isInteracting s) (lowQuality s) (highQuality s)
    (iterationData s) (iterationDataWidth s) (iterationDataHeight s) v
    (terminated s).

Definition set_terminated (v : bool) (s : State) : State :=
  Build_State (canvas s) (posted s) (currentRequestId s) (overscanCanvas s)
    (overscanViewport s) (backgroundCanvas s) (backgroundViewport s)
    (viewport s) (params s) (isInteracting s) (lowQuality s) (highQuality s)
    (iterationData s) (iterationDataWidth s) (iterationDataHeight s)
    (resolutionMultiplier s) v.

(** [Math.floor(n * this.overscanFactor)] for a canvas dimension [n],
    with [overscanFactor = 1.5]. *)
Definition overscanFactorTimes (n : Z) : Z := (3 * n / 2)%Z.

Definition minZoom : float := 0.5.

Definition maxZoom : float := 1e12.

Definition postMessage (m : WorkerRequest) (s : State) : State :=
  set_posted (posted s ++ [m]) s.

(** [saveToBackground]. *)
Definition saveToBackground (s : State) : State :=
  let oc := overscanCanvas s in
  if (width oc =? 0)%Z || (height oc =? 0)%Z then s
  else
    let bg := {| width := width oc; height := height oc;
                 content := DrawImage (content oc) (width oc) (height oc) Blank |} in
    set_backgroundViewport (overscanViewport s) (set_backgroundCanvas bg s).

(** [updateMainCanvas]. *)
Definition updateMainCanvas (s : State) : State :=
  match overscanViewport s with
  | None => s
  | Some _ =>
      let oc := overscanCanvas s in
      let c := canvas s in
      let offsetX := JS.ofZ (width oc - width c) / 2 in
      let offsetY := JS.ofZ (height oc - height c) / 2 in
      let w := JS.ofZ (width c) in
      let h := JS.ofZ (height c) in
      set_canvas
        {| width := width c; height := height c;
           content := DrawImageCrop (content oc) (width oc) (height oc)
                        offsetX offsetY w h 0 0 w h (content c) |} s
  end.

(** The handler installed by [setupWorker]. *)
Definition onTileResponse (response : TileResponse) (s : State) : State :=
  if negb (tr_requestId response =? currentRequestId s)%Z then s
  else
    let t := tile response in
    let oc := overscanCanvas s in
    let s1 := set_overscanCanvas
                {| width := width oc; height := height oc;
                   content := PutImageData (imageData t) (tile_width t) (tile_height t)
                                (tile_x t) (tile_y t) (content oc) |} s in
    let s2 := updateMainCanvas s1 in
    if isComplete response && negb (isInteracting s2) then saveToBackground s2
    else s2.

(** The constructor. *)
Definition create (canvasW canvasH : Z) (initialViewport : Viewport)
    (initialParams : FractalParams) : State :=
  {| canvas := {| width := canvasW; height := canvasH;
                  content := FillBlack canvasW canvasH Blank |};
     posted := [];
     currentRequestId := 0;
     overscanCanvas := newCanvas;
     overscanViewport := None;
     backgroundCanvas := newCanvas;
     backgroundViewport := None;
     viewport := initialViewport;
     params := initialParams;
     isInteracting := false;
     lowQuality := {| maxIterations := 64; tileSize := 64; tilesPerFrame := 8 |};
     highQuality := {| maxIterations := 256; tileSize := 32; tilesPerFrame := 4 |};
     iterationData := None;
     iterationDataWidth := 0;
     iterationDataHeight := 0;
     resolutionMultiplier := 1;
     terminated := false |}.

Definition hsvToRgb (h s v : float) : float * float * float :=
  let c := v * s in
  let x := c * (1 - abs (JS.fmod (h / 60) 2 - 1)) in
  let m := v - c in
  let '(r, g, b) :=
    if h <? 60 then (c, x, 0)
    else if h <? 120 then (x, c, 0)
    else if h <? 180 then (0, c, x)
    else if h <? 240 then (0, x, c)
    else if h <? 300 then (x, 0, c)
    else (c, 0, x) in
  (JS.round ((r + m) * 255), JS.round ((g + m) * 255), JS.round ((b + m) * 255)).

(** The four bytes [recolor] stores at [pixelIndex .. pixelIndex + 3] for
    the cached value [smoothIter]. *)
Definition recolorPixel (isInteracting : bool) (newHue : float)
    (smoothIter : float) : list Z :=
  let saturation := 0.85 in
  if smoothIter <? 0 then [0; 0; 0; 255]%Z
  else
    let maxIterations := if isInteracting then 64 else 256 in
    let t := PrimFloat.sqrt (smoothIter / maxIterations) in
    let hue := JS.fmod (newHue + t * 360) 360 in
    let value := 0.5 + t * 0.5 in
    let '(r, g, b) := hsvToRgb hue saturation value in
    [JS.toUint8Clamp r; JS.toUint8Clamp g; JS.toUint8Clamp b; 255%Z].

(** The [data] array filled by the loop of [recolor]: an [ImageData] of
    [w * h] pixels, zero-initialised; stores past its end are ignored. *)
Definition recolorData (isInteracting : bool) (newHue : float)
    (cached : list float) (w h : Z) : list Z :=
  let size := Z.to_nat (4 * w * h) in
  let written := firstn size (flat_map (recolorPixel isInteracting newHue) cached) in
  written ++ repeat 0%Z (size - length written).

Section Rendering.
Context {M : MathHost}.

(** [render]. *)
Definition render (s : State) : State :=
  let s := set_currentRequestId (currentRequestId s + 1) s in
  let s := postMessage (Cancel (currentRequestId s - 1)) s in
  let overscanWidth := overscanFactorTimes (width (canvas s)) in
  let overscanHeight := overscanFactorTimes (height (canvas s)) in
  let oc := overscanCanvas s in
  let hadPreviousRender := (0 <? width oc)%Z && (0 <? height oc)%Z in
  let oldOverscanCanvas :=
    if hadPreviousRender
    then {| width := width oc; height := height oc;
            content := DrawImage (content oc) (width oc) (height oc) Blank |}
    else newCanvas in
  let seed (from : Canvas) (old : Viewport) : Surface :=
    let newViewport := viewport s in
    let scaleChange := zoom newViewport / zoom old in
    let newScale := 4 / zoom newViewport in
    let aspectRatio := JS.ofZ overscanWidth / JS.ofZ overscanHeight in
    let dx := (centerX newViewport - centerX old) / newScale / aspectRatio
              * JS.ofZ overscanWidth in
    let dy := - (centerY newViewport - centerY old) / newScale
              * JS.ofZ overscanHeight in
    DrawImageSeed (content from) (width from) (height from)
      (JS.ofZ overscanWidth / 2) (JS.ofZ overscanHeight / 2) scaleChange
      (- JS.ofZ overscanWidth / 2 + dx) (- JS.ofZ overscanHeight / 2 + dy)
      (FillBlack overscanWidth overscanHeight Blank) in
  let drawn :=
    match backgroundViewport s, (0 <? width (backgroundCanvas s))%Z with
    | Some bgViewport, true => seed (backgroundCanvas s) bgViewport
    | _, _ =>
        match hadPreviousRender, overscanViewport s with
        | true, Some oldViewport => seed oldOverscanCanvas oldViewport
        | _, _ => FillBlack overscanWidth overscanHeight Blank
        end
    end in
  let s := set_overscanCanvas
             {| width := overscanWidth; height := overscanHeight; content := drawn |} s in
  let s := set_overscanViewport (Some (viewport s)) s in
  let s :=
    if isInteracting s then s
    else
      let zoomLevel := Math_log2 (zoom (viewport s)) in
      let q := highQuality s in
      set_highQuality
        {| maxIterations := Z.min 512 (JS.floorZ (128 + zoomLevel * 32));
           tileSize := tileSize q; tilesPerFrame := tilesPerFrame q |} s in
  let quality := if isInteracting s then lowQuality s else highQuality s in
  let renderRequest :=
    Render {| canvasWidth := overscanWidth;
              canvasHeight := overscanHeight;
              rq_viewport := viewport s;
              rq_params := params s;
              quality := quality;
              rq_requestId := currentRequestId s;
              storeIterations := Some true |} in
  let s := postMessage renderRequest s in
  set_iterationDataHeight overscanHeight (set_iterationDataWidth overscanWidth s).

(** [resize]. *)
Definition resize (w h : Z) (s : State) : State :=
  render (set_canvas {| width := w; height := h; content := FillBlack w h Blank |} s).

(** [startInteraction]. *)
Definition startInteraction (s : State) : State := set_isInteracting true s.

(** [endInteraction]. *)
Definition endInteraction (s : State) : State := render (set_isInteracting false s).

(** [needsRerender]. *)
Definition needsRerender (s : State) : bool :=
  match overscanViewport s with
  | None => true
  | Some ov =>
      let scale := 4 / zoom (viewport s) in
      if abs (zoom (viewport s) - zoom ov) >? zoom (viewport s) * 0.01 then true
      else
        let dx := abs (centerX (viewport s) - centerX ov) in
        let dy := abs (centerY (viewport s) - centerY ov) in
        let threshold := scale * 0.2 in
        (dx >? threshold) || (dy >? threshold)
  end.

(** The viewport after the two assignments that open [pan]. *)
Definition panViewport (dx dy : float) (s : State) : Viewport :=
  let v := viewport s in
  let scale := 4 / zoom v in
  let aspectRatio := JS.ofZ (width (canvas s)) / JS.ofZ (height (canvas s)) in
  {| centerX := centerX v - (dx / JS.ofZ (width (canvas s))) * scale * aspectRatio;
     centerY := centerY v + (dy / JS.ofZ (height (canvas s))) * scale;
     zoom := zoom v |}.

(** [pan]. *)
Definition pan (dx dy : float) (s : State) : State :=
  let s := set_viewport (panViewport dx dy s) s in
  if isInteracting s then render s
  else if needsRerender s then render s
  else updateMainCanvas s.

(** [recolor]. *)
Definition recolor (newHue : float) (s : State) : State :=
  match iterationData s with
  | None => render s
  | Some cached =>
      let oc := overscanCanvas s in
      if negb (iterationDataWidth s =? width oc)%Z
         || negb (iterationDataHeight s =? height oc)%Z
      then render s
      else if (width oc =? 0)%Z || (height oc =? 0)%Z then s
        (* [createImageData] throws on an empty size *)
      else
        let data := recolorData (isInteracting s) newHue cached (width oc) (height oc) in
        updateMainCanvas
          (set_overscanCanvas
             {| width := width oc; height := height oc;
                content := PutImageData data (width oc) (height oc) 0 0 (content oc) |} s)
  end.

(** [{ ...this.params, ...params }]. *)
Definition mergeParams (old : FractalParams) (p : PartialParams) : FractalParams :=
  let pick (o : option float) (d : float) := match o with Some v => v | None => d end in
  {| realZ0 := pick (p_realZ0 p) (realZ0 old);
     imagZ0 := pick (p_imagZ0 p) (imagZ0 old);
     realC := pick (p_realC p) (realC old);
     imagC := pick (p_imagC p) (imagC old);
     exponent := pick (p_exponent p) (exponent old);
     imagExponent := pick (p_imagExponent p) (imagExponent old);
     colorHue := pick (p_colorHue p) (colorHue old) |}.

(** [Object.keys(params).length]. *)
Definition keyCount (p : PartialParams) : nat :=
  let one (o : option float) := match o with Some _ => 1%nat | None => 0%nat end in
  (one (p_realZ0 p) + one (p_imagZ0 p) + one (p_realC p) + one (p_imagC p)
   + one (p_exponent p) + one (p_imagExponent p) + one (p_colorHue p))%nat.

(** [updateParams]. *)
Definition updateParams (p : PartialParams) (s : State) : State :=
  let s := set_params (mergeParams (params s) p) s in
  match p_colorHue p, Nat.eqb (keyCount p) 1, iterationData s with
  | Some hue, true, Some _ => recolor hue s
  | _, _, _ => render s
  end.

(** [storeIterationData]. *)
Definition storeIterationData (data : list float) (s : State) : State :=
  set_iterationData (Some data) s.

(** [setResolution].  The four numbers stored are [Math.floor] results
    read by [JS.floorZ]: exact where [256 m], [64 m], [32 / m] and
    [64 / m] are finite, pinned otherwise. *)
Definition setResolution (multiplier : float) (s : State) : State :=
  let s := set_resolutionMultiplier multiplier s in
  let baseIterations := 256 in
  let hq := highQuality s in
  let lq := lowQuality s in
  let s := set_highQuality
             {| maxIterations := JS.floorZ (baseIterations * multiplier);
                tileSize := Z.max 16 (JS.floorZ (32 / multiplier));
                tilesPerFrame := tilesPerFrame hq |} s in
  let s := set_lowQuality
             {| maxIterations := JS.floorZ (64 * multiplier);
                tileSize := Z.max 32 (JS.floorZ (64 / multiplier));
                tilesPerFrame := tilesPerFrame lq |} s in
  if negb (isInteracting s) then render s else s.

(** [destroy]. *)
Definition destroy (s : State) : State := set_terminated true s.

(** [zoom]. *)
Definition zoom (factor : float) (mouse : option (float * float)) (s : State) : State :=
  let v := viewport s in
  let newZoom := zoom v * factor in
  if (newZoom <? minZoom) || (newZoom >? maxZoom) then s
  else
    let v' :=
      match mouse with
      | Some (mouseX, mouseY) =>
          let scale := 4 / zoom v in
          let aspectRatio := JS.ofZ (width (canvas s)) / JS.ofZ (height (canvas s)) in
          let mouseXNorm := mouseX / JS.ofZ (width (canvas s)) - 0.5 in
          let mouseYNorm := 0.5 - mouseY / JS.ofZ (height (canvas s)) in
          let worldX := centerX v + mouseXNorm * scale * aspectRatio in
          let worldY := centerY v + mouseYNorm * scale in
          let z := zoom v * factor in
          let newScale := 4 / z in
          {| centerX := worldX - mouseXNorm * newScale * aspectRatio;
             centerY := worldY - mouseYNorm * newScale;
             zoom := z |}
      | None =>
          {| centerX := centerX v; centerY := centerY v; zoom := zoom v * factor |}
      end in
    render (set_viewport v' s).

End Rendering.

End Renderer.

(** ** The operations of the shipped wiring

    What the page and the worker channel can invoke on a renderer:
    every public method except [storeIterationData], which nothing in the
    repository calls, and the delivery of a tile response. *)

Inductive Op : Type :=
| OpRender
| OpResize (w h : Z)
| OpStartInteraction
| OpEndInteraction
| OpPan (dx dy : float)
| OpZoom (factor : float) (mouse : option (float * float))
| OpUpdateParams (p : PartialParams)
| OpSetResolution (multiplier : float)
| OpSaveToBackground
| OpDestroy
| OpTile (response : TileResponse).

Section Wiring.
Context {M : MathHost}.

Definition applyOp (o : Op) (s : Renderer.State) : Renderer.State :=
  match o with
  | OpRender => Renderer.render s
  | OpResize w h => Renderer.resize w h s
  | OpStartInteraction => Renderer.startInteraction s
  | OpEndInteraction => Renderer.endInteraction s
  | OpPan dx dy => Renderer.pan dx dy s
  | OpZoom factor mouse => Renderer.zoom factor mouse s
  | OpUpdateParams p => Renderer.updateParams p s
  | OpSetResolution multiplier => Renderer.setResolution multiplier s
  | OpSaveToBackground => Renderer.saveToBackground s
  | OpDestroy => Renderer.destroy s
  | OpTile response => Renderer.onTileResponse response s
  end.

Definition applyOps (ops : list Op) (s : Renderer.State) : Renderer.State :=
  fold_left (fun s o => applyOp o s) ops s.

End Wiring.

(** ** Notions used by the statements *)

(** The smooth value returned by the escape branch of [computePixel] at
    counter [iteration] for squared modulus [m2]. *)
Definition smoothValue {M : MathHost} (iteration : Z) (m2 : float) : float :=
  let log_zn := Math_log m2 / 2 in
  let nu := Math_log (log_zn / Math_log 2) / Math_log 2 in
  JS.ofZ iteration + 1 - nu.


(** The closed-form interior tests as the specification writes them,
    over the reals. *)
Definition inCardioidR (x y : R) : Prop :=
  let q := ((x - 1 / 4) * (x - 1 / 4) + y * y)%R in
  (q * (q + x - 1 / 4) < 1 / 4 * (y * y))%R.

Definition inPeriod2BulbR (x y : R) : Prop :=
  ((x + 1) * (x + 1) + y * y < 1 / 16)%R.

(** The binary64 representation of an integer [c] with [1 <= c < 2^53]:
    its digits shifted into a mantissa of 53 bits. *)
Definition normalForm (c : Z) : spec_float :=
  S754_finite false (Z.to_pos (c * 2 ^ (53 - Zdigits2 c))) (Zdigits2 c - 53)%Z.

(** The real number a binary64 value stands for ([0] for NaN and the
    infinities, which no statement below reads). *)
Definition realOf (x : float) : R :=
  match Prim2SF x with
  | S754_finite s m e => (IZR (cond_Zopp s (Zpos m)) * powerRZ 2 e)%R
  | _ => 0%R
  end.



(** Pixel [(px, py)] lies in the rectangle [(x, y, w, h)]. *)
Definition inRect (px py : Z) (rect : Z * Z * Z * Z) : Prop :=
  let '(x, y, w, h) := rect in
  (x <= px < x + w)%Z /\ (y <= py < y + h)%Z.

(** The responses an uncancelled request produces: one per tile of
    [ts], the running count starting after [count]. *)
Fixpoint responsesFrom {M : MathHost} (r : RenderRequest) (total count : Z)
    (ts : list (Z * Z)) : list TileResponse :=
  match ts with
  | [] => []
  | t :: ts' =>
      let '(tileX, tileY, tileWidth, tileHeight) := Worker.tileRect r t in
      {| tile := Worker.computeTile tileX tileY tileWidth tileHeight
                   (canvasWidth r) (canvasHeight r) (rq_viewport r) (rq_params r)
                   (maxIterations (quality r));
         tr_requestId := rq_requestId r;
         isComplete := (count + 1 =? total)%Z;
         tr_iterationData := None |}
      :: responsesFrom r total (count + 1) ts'
  end.

(** The closure of [handleRenderRequest] for [r] once [count] tiles were
    emitted and [tileIndex] holds [index]. *)
Definition jobAt (r : RenderRequest) (count : nat) (index : Z) : Worker.Job :=
  let ts := tileSize (quality r) in
  {| Worker.request := r;
     Worker.tiles := Worker.sortedTiles (canvasWidth r) (canvasHeight r) ts;
     Worker.totalTiles := (Worker.tilesX (canvasWidth r) ts * Worker.tilesY (canvasHeight r) ts)%Z;
     Worker.tilesComputed := Z.of_nat count;
     Worker.tileIndex := index |}.

(** The worker states met while request [r] is processed without
    interference, [base] being the outbox when it arrived: the first
    [count] tiles of the schedule were emitted; the callbacks [stale] of
    older requests are still queued; behind them either nothing is
    pending and every tile is out, or exactly the next batch of [r] is.
    [progress] bounds [count] from below when batches are not empty. *)
Definition uncancelled {M : MathHost} (r : RenderRequest) (base : list TileResponse)
    (stale : list Worker.Job) (progress : nat) (s : Worker.WState) : Prop :=
  let ts := tileSize (quality r) in
  let tpf := tilesPerFrame (quality r) in
  let schedule := Worker.sortedTiles (canvasWidth r) (canvasHeight r) ts in
  let total := (Worker.tilesX (canvasWidth r) ts * Worker.tilesY (canvasHeight r) ts)%Z in
  Worker.currentRequestId s = rq_requestId r
  /\ Forall (fun j => rq_requestId (Worker.request j) <> rq_requestId r) stale
  /\ exists count : nat,
       (count <= length schedule)%nat
       /\ Worker.outbox s = base ++ responsesFrom r total 0 (firstn count schedule)
       /\ ((0 < tpf)%Z -> (Nat.min (length schedule) progress <= count)%nat)
       /\ ((tpf <= 0)%Z -> count = 0%nat)
       /\ ((Worker.timers s = stale /\ count = length schedule)
           \/ exists index : Z,
                Worker.timers s = stale ++ [jobAt r count index]
                /\ (index < Z.of_nat (length schedule))%Z
                /\ (index = Z.of_nat count \/ ((tpf < 0)%Z /\ (index < 0)%Z))).

(** ** Fixtures *)

(** A host that knows [log2 1 = 0] and answers NaN everywhere else:
    enough to run the paths that call nothing more of it. *)
Definition stubHost : MathHost :=
  {| Math_log := fun _ => nan;
     Math_log2 := fun x => if x === 1 then 0 else nan;
     Math_exp := fun _ => nan; Math_cos := fun _ => nan;
     Math_sin := fun _ => nan; Math_pow := fun _ _ => nan;
     Math_atan2 := fun _ _ => nan |}.

(** A host whose [Math.log] returns, at the three arguments the run at
    [256 + 0i] passes to it, the binary64 numbers nearest to [ln 65536],
    [ln 8] and [ln 2]. *)
Definition roundedLogs : MathHost :=
  {| Math_log := fun x =>
       if x === 65536 then 11.090354888959125
       else if x === 8 then 2.0794415416798357
       else if x === 2 then 0.6931471805599453
       else nan;
     Math_log2 := fun x => if x === 1 then 0 else nan;
     Math_exp := fun _ => nan; Math_cos := fun _ => nan;
     Math_sin := fun _ => nan; Math_pow := fun _ _ => nan;
     Math_atan2 := fun _ _ => nan |}.

(** A view whose pixel [(1, 1)] of a 2 x 2 canvas is the point
    [256 + 0i]. *)
Definition farViewport : Viewport := {| centerX := 256; centerY := 0; zoom := 1 |}.

(** A point of the period-2 bulb, [5.5e-18] inside its boundary. *)
Definition nearBulbX : float := -0.8187176469374053.
Definition nearBulbY : float := 0.17215315410438686.

(** Scenario A of the specification: the classic Mandelbrot parameters. *)
Definition mandelbrotParams : FractalParams :=
  {| realZ0 := 0; imagZ0 := 0; realC := 0; imagC := 0;
     exponent := 2; imagExponent := 0; colorHue := 0 |}.

(** A quadratic Julia set whose constant lies outside the disc of
    radius 2. *)
Definition juliaParams : FractalParams :=
  {| realZ0 := 0; imagZ0 := 0; realC := -6; imagC := 0;
     exponent := 2; imagExponent := 0; colorHue := 0 |}.

Definition unitViewport : Viewport := {| centerX := 0; centerY := 0; zoom := 1 |}.

(** A render request for that view: a 2 x 2 canvas in one tile. *)
Definition farRequest (maxIterations : Z) : RenderRequest :=
  {| canvasWidth := 2; canvasHeight := 2;
     rq_viewport := farViewport; rq_params := mandelbrotParams;
     quality := {| maxIterations := maxIterations; tileSize := 2; tilesPerFrame := 4 |};
     rq_requestId := 1; storeIterations := Some true |}.

(** A 2 x 2 canvas cut into four one-pixel tiles, three tiles a batch. *)
Definition smallRequest : RenderRequest :=
  {| canvasWidth := 2; canvasHeight := 2;
     rq_viewport := unitViewport; rq_params := mandelbrotParams;
     quality := {| maxIterations := 4; tileSize := 1; tilesPerFrame := 3 |};
     rq_requestId := 7; storeIterations := Some true |}.

(** A 5 x 5 canvas cut into a 3 x 3 grid with clipped edge tiles. *)
Definition clippedRequest : RenderRequest :=
  {| canvasWidth := 5; canvasHeight := 5;
     rq_viewport := unitViewport; rq_params := mandelbrotParams;
     quality := {| maxIterations := 4; tileSize := 2; tilesPerFrame := 4 |};
     rq_requestId := 8; storeIterations := Some true |}.

(** [smallRequest] under the request id [-1]. *)
Definition sentinelRequest : RenderRequest :=
  {| canvasWidth := 2; canvasHeight := 2;
     rq_viewport := unitViewport; rq_params := mandelbrotParams;
     quality := {| maxIterations := 4; tileSize := 1; tilesPerFrame := 3 |};
     rq_requestId := -1; storeIterations := Some true |}.

(** A worker in the middle of [smallRequest]: the first batch is out,
    the second is pending. *)
Definition busyWorker : Worker.WState :=
  match Worker.run (M := stubHost) Worker.initial [Worker.Message (Render smallRequest)] with
  | Some s => s
  | None => Worker.initial
  end.

(** A worker in the middle of [sentinelRequest], and the same worker
    after a cancel message and one timer tick. *)
Definition sentinelWorker : Worker.WState :=
  match Worker.run (M := stubHost) Worker.initial
          [Worker.Message (Render sentinelRequest)] with
  | Some s => s
  | None => Worker.initial
  end.

Definition sentinelWorkerCancelled : Worker.WState :=
  match Worker.run (M := stubHost) sentinelWorker
          [Worker.Message (Cancel (-1)); Worker.Timeout] with
  | Some s => s
  | None => Worker.initial
  end.

(** A renderer on a 200 x 100 canvas whose user is dragging: the first
    pan of the gesture has rendered the default view. *)
Definition draggingRenderer : Renderer.State :=
  Renderer.pan (M := stubHost) 0 0
    (Renderer.startInteraction (Renderer.create 200 100 unitViewport mandelbrotParams)).

(** A renderer at rest whose overscan buffer was rendered for the
    default view. *)
Definition restingRenderer : Renderer.State :=
  Renderer.endInteraction (M := stubHost) draggingRenderer.

(** Nine cached smooth iteration values, all [8]. *)
Definition cachedEights : list float := repeat 8 9.

(** A renderer on a 2 x 2 canvas showing the default view at rest: its
    first render asked for [maxIterations = 128], and iteration data for
    the 3 x 3 overscan buffer was stored. *)
Definition cachedRenderer : Renderer.State :=
  Renderer.storeIterationData cachedEights
    (Renderer.render (M := stubHost) (Renderer.create 2 2 unitViewport mandelbrotParams)).

(** The same canvas in interactive mode at half resolution: the pan has
    asked for [maxIterations = 32]. *)
Definition cachedDraggingRenderer : Renderer.State :=
  Renderer.storeIterationData cachedEights
    (Renderer.pan (M := stubHost) 0 0
       (Renderer.setResolution (M := stubHost) 0.5
          (Renderer.startInteraction (Renderer.create 2 2 unitViewport mandelbrotParams)))).

(** [{ colorHue: hue }]. *)
Definition onlyHue (hue : float) : PartialParams :=
  {| p_realZ0 := None; p_imagZ0 := None; p_realC := None; p_imagC := None;
     p_exponent := None; p_imagExponent := None; p_colorHue := Some hue |}.

(** [params] with its [colorHue] replaced. *)
Definition withHue (hue : float) (p : FractalParams) : FractalParams :=
  {| realZ0 := realZ0 p; imagZ0 := imagZ0 p; realC := realC p; imagC := imagC p;
     exponent := exponent p; imagExponent := imagExponent p; colorHue := hue |}.

(** ** Notions used by the further properties *)

(** The mode test of [computeTile]. *)
Definition isJuliaSet (params : FractalParams) : bool :=
  ((abs (realC params - 0) >? 0.001) || (abs (imagC params) >? 0.001)) &&
  ((abs (realZ0 params) <? 0.001) && (abs (imagZ0 params) <? 0.001)).

(** The plane point [(x0, y0)] that [computeTile] computes for the screen
    pixel [(screenX, screenY)]. *)
Definition pixelToPlane (canvasWidth canvasHeight : Z) (viewport : Viewport)
    (screenX screenY : Z) : float * float :=
  let aspectRatio := JS.ofZ canvasWidth / JS.ofZ canvasHeight in
  let scale := 4 / zoom viewport in
  (centerX viewport + ((JS.ofZ screenX / JS.ofZ canvasWidth - 0.5) * scale * aspectRatio),
   centerY viewport - ((JS.ofZ screenY / JS.ofZ canvasHeight - 0.5) * scale)).

(** [data[pixelIndex .. pixelIndex + 3]] for
    [pixelIndex = (py * width + px) * 4]. *)
Definition tilePixel (t : Tile) (px py : Z) : list Z :=
  firstn 4 (skipn (Z.to_nat ((py * tile_width t + px) * 4)) (imageData t)).

(** The most responses one task of the worker can post: the batch size of
    the request it works for. *)
Definition stepBound (st : Worker.WState) (e : Worker.Event) : nat :=
  match e with
  | Worker.Message (Render r) => Z.to_nat (tilesPerFrame (quality r))
  | Worker.Message (Cancel _) => 0%nat
  | Worker.Timeout =>
      match Worker.timers st with
      | j :: _ => Z.to_nat (tilesPerFrame (quality (Worker.request j)))
      | [] => 0%nat
      end
  end.

(** ** The public interface of the compositor

    Every public method of [FractalRenderer], and the delivery of a tile
    response: the operations of the shipped wiring and
    [storeIterationData]. *)

Inductive Call : Type :=
| CallOp (o : Op)
| CallStoreIterationData (data : list float).

Section Calls.
Context {M : MathHost}.

Definition applyCall (c : Call) (s : Renderer.State) : Renderer.State :=
  match c with
  | CallOp o => applyOp o s
  | CallStoreIterationData data => Renderer.storeIterationData data s
  end.

Definition applyCalls (cs : list Call) (s : Renderer.State) : Renderer.State :=
  fold_left (fun s c => applyCall c s) cs s.

End Calls.

(** The messages of a sequence of renders: each request preceded by the
    cancellation of its predecessor's id. *)
Definition requestPairs (rs : list RenderRequest) : list WorkerRequest :=
  flat_map (fun r => [Cancel (rq_requestId r - 1); Render r]) rs.

(** What the channel and the quality profiles of a compositor look like. *)
Definition Channel (s : Renderer.State) : Prop :=
  (0 <= Renderer.currentRequestId s)%Z
  /\ (exists rs, Renderer.posted s = requestPairs rs
                 /\ map rq_requestId rs = zrange 1 (Renderer.currentRequestId s + 1))
  /\ tilesPerFrame (Renderer.lowQuality s) = 8%Z
  /\ tilesPerFrame (Renderer.highQuality s) = 4%Z
  /\ (32 <= tileSize (Renderer.lowQuality s))%Z
  /\ (16 <= tileSize (Renderer.highQuality s))%Z
  /\ (forall r, In (Render r) (Renderer.posted s) ->
        (tilesPerFrame (quality r) = 4%Z \/ tilesPerFrame (quality r) = 8%Z)
        /\ (16 <= tileSize (quality r))%Z
        /\ storeIterations r = Some true).

(** How the overscan buffer relates to the canvas and to the channel:
    before the first render it is the canvas the constructor created;
    afterwards it belongs to the latest request. *)
Definition Geometry (s : Renderer.State) : Prop :=
  let oc := Renderer.overscanCanvas s in
  match Renderer.overscanViewport s with
  | None =>
      Renderer.currentRequestId s = 0%Z
      /\ width oc = 300%Z /\ height oc = 150%Z
      /\ Renderer.iterationDataWidth s = 0%Z
      /\ Renderer.iterationDataHeight s = 0%Z
  | Some ov =>
      (exists pre r,
         Renderer.posted s = pre ++ [Render r]
         /\ rq_requestId r = Renderer.currentRequestId s
         /\ rq_viewport r = ov
         /\ canvasWidth r = width oc
         /\ canvasHeight r = height oc)
      /\ width oc = Renderer.overscanFactorTimes (width (Renderer.canvas s))
      /\ height oc = Renderer.overscanFactorTimes (height (Renderer.canvas s))
      /\ Renderer.iterationDataWidth s = width oc
      /\ Renderer.iterationDataHeight s = height oc
  end.

(** The resolution multipliers for which both tile sizes of
    [setResolution] are finite numbers. *)
Definition finiteTileSizes (c : Call) : bool :=
  match c with
  | CallOp (OpSetResolution multiplier) =>
      JS.isFinite (32 / multiplier) && JS.isFinite (64 / multiplier)
  | _ => true
  end.



(** A zoom the limits of [zoom] let through. *)
Definition passesZoomLimits (z : float) : Prop :=
  (z <? Renderer.minZoom) = false /\ (z >? Renderer.maxZoom) = false.

(** Whether a call can replace the persistent background in state [s]:
    [saveToBackground] itself, or the final tile of the current request
    arriving outside interactive mode. *)
Definition savesBackground (c : Call) (s : Renderer.State) : bool :=
  match c with
  | CallOp OpSaveToBackground => true
  | CallOp (OpTile response) =>
      (tr_requestId response =? Renderer.currentRequestId s)%Z
      && isComplete response && negb (Renderer.isInteracting s)
  | _ => false
  end.

(** A parameter update that names every key, as the page sends it. *)
Definition fullParams (p : FractalParams) : PartialParams :=
  {| p_realZ0 := Some (realZ0 p); p_imagZ0 := Some (imagZ0 p);
     p_realC := Some (realC p); p_imagC := Some (imagC p);
     p_exponent := Some (exponent p); p_imagExponent := Some (imagExponent p);
     p_colorHue := Some (colorHue p) |}.

(** The bytes of pixel [i] of an [ImageData] buffer. *)
Definition pixelAt (data : list Z) (i : nat) : list Z := firstn 4 (skipn (4 * i) data).

(** ** Fixtures of the further properties *)

(** A wheel gesture on a 2 x 2 canvas after its first render: the page
    starts the interaction, zooms about the pointer and, once the wheel is
    at rest, ends the interaction. *)
Definition wheelCalls : list Call :=
  [CallOp OpRender; CallOp OpStartInteraction;
   CallOp (OpZoom 1.05 (Some (1, 1))); CallOp OpEndInteraction].

Definition wheeledRenderer : Renderer.State :=
  applyCalls (M := stubHost) wheelCalls (Renderer.create 2 2 unitViewport mandelbrotParams).


(** The request of the first render of the default view on a 2 x 2
    canvas. *)
Definition firstRequest : RenderRequest :=
  {| canvasWidth := 3; canvasHeight := 3;
     rq_viewport := unitViewport; rq_params := mandelbrotParams;
     quality := {| maxIterations := 128; tileSize := 32; tilesPerFrame := 4 |};
     rq_requestId := 1; storeIterations := Some true |}.

(** The only tile of [firstRequest], reported as the last one. *)
Definition firstResponse : TileResponse :=
  {| tile := {| tile_x := 0; tile_y := 0; tile_width := 3; tile_height := 3;
                imageData := repeat 255%Z 36 |};
     tr_requestId := 1; isComplete := true; tr_iterationData := None |}.

(** The first render followed by the storing of iteration data. *)
Definition cachedCalls : list Call :=
  [CallOp OpRender; CallStoreIterationData cachedEights].

(** ** Parameter controls of the page ([page.tsx], [FractalSimulator])

    The two pieces of React state that the parameter controls read and
    write, [perspective] and [params], and the handlers that update them.
    Each handler runs against the state of the last render and its
    updates are applied before the next handler runs. *)

Module Page.

(** ['z0' | 'c' | 'k']. *)
Inductive ParameterPerspective : Type := Z0 | C | K.

(** ['real' | 'imag']. *)
Inductive Key : Type := Real | Imag.

Record State : Type := {
  perspective : ParameterPerspective;
  params : FractalParams
}.

(** The initial values of [useState]. *)
Definition initial : State :=
  {| perspective := C;
     params := {| realZ0 := 0; imagZ0 := 0; realC := 0; imagC := 0;
                  exponent := 2; imagExponent := 0; colorHue := 200 |} |}.

(** [getDisplayValues]: the pair [{ real, imag }] the two sliders show. *)
Definition getDisplayValues (st : State) : float * float :=
  match perspective st with
  | Z0 => (realZ0 (params st), imagZ0 (params st))
  | C => (realC (params st), imagC (params st))
  | K => (exponent (params st), imagExponent (params st))
  end.

(** [{ ...prev }] with one field assigned. *)
Definition set_realZ0 (v : float) (p : FractalParams) : FractalParams :=
  {| realZ0 := v; imagZ0 := imagZ0 p; realC := realC p; imagC := imagC p;
     exponent := exponent p; imagExponent := imagExponent p; colorHue := colorHue p |}.

Definition set_imagZ0 (v : float) (p : FractalParams) : FractalParams :=
  {| realZ0 := realZ0 p; imagZ0 := v; realC := realC p; imagC := imagC p;
     exponent := exponent p; imagExponent := imagExponent p; colorHue := colorHue p |}.

Definition set_realC (v : float) (p : FractalParams) : FractalParams :=
  {| realZ0 := realZ0 p; imagZ0 := imagZ0 p; realC := v; imagC := imagC p;
     exponent := exponent p; imagExponent := imagExponent p; colorHue := colorHue p |}.

Definition set_imagC (v : float) (p : FractalParams) : FractalParams :=
  {| realZ0 := realZ0 p; imagZ0 := imagZ0 p; realC := realC p; imagC := v;
     exponent := exponent p; imagExponent := imagExponent p; colorHue := colorHue p |}.

Definition set_exponent (v : float) (p : FractalParams) : FractalParams :=
  {| realZ0 := realZ0 p; imagZ0 := imagZ0 p; realC := realC p; imagC := imagC p;
     exponent := v; imagExponent := imagExponent p; colorHue := colorHue p |}.

Definition set_imagExponent (v : float) (p : FractalParams) : FractalParams :=
  {| realZ0 := realZ0 p; imagZ0 := imagZ0 p; realC := realC p; imagC := imagC p;
     exponent := exponent p; imagExponent := v; colorHue := colorHue p |}.

Definition set_colorHue (v : float) (p : FractalParams) : FractalParams :=
  {| realZ0 := realZ0 p; imagZ0 := imagZ0 p; realC := realC p; imagC := imagC p;
     exponent := exponent p; imagExponent := imagExponent p; colorHue := v |}.

(** [a !== b] on perspectives. *)
Definition differs (a b : ParameterPerspective) : bool :=
  match a, b with
  | Z0, Z0 | C, C | K, K => false
  | _, _ => true
  end.

(** [updatePerspectiveParam]: the updater it passes to [setParams]. *)
Definition updatePerspectiveParam (key : Key) (value : float) (st : State) : State :=
  let next := params st in
  let next :=
    match perspective st with
    | Z0 => match key with Real => set_realZ0 value next | Imag => set_imagZ0 value next end
    | C => match key with Real => set_realC value next | Imag => set_imagC value next end
    | K => match key with
           | Real => set_exponent value next
           | Imag => set_imagExponent value next
           end
    end in
  {| perspective := perspective st; params := next |}.

(** [changePerspective]: [setPerspective] and the updater passed to
    [setParams]. *)
Definition changePerspective (newPerspective : ParameterPerspective) (st : State) : State :=
  let next := params st in
  let next := if differs newPerspective Z0 then set_imagZ0 0 (set_realZ0 0 next) else next in
  let next := if differs newPerspective C then set_imagC 0 (set_realC 0 next) else next in
  let next := if differs newPerspective K
              then set_imagExponent 0 (set_exponent 2 next) else next in
  {| perspective := newPerspective; params := next |}.

(** The colour slider, and a frame of the hue animation: both replace
    [colorHue] only. *)
Definition setColorHue (v : float) (st : State) : State :=
  {| perspective := perspective st; params := set_colorHue v (params st) |}.

(** [resetView], as far as these two pieces of state go. *)
Definition resetView (st : State) : State := initial.

(** What the user can do to the parameter controls. *)
Inductive Action : Type :=
| UpdatePerspectiveParam (key : Key) (value : float)
| ChangePerspective (newPerspective : ParameterPerspective)
| SetColorHue (v : float)
| ResetView.

Definition handle (a : Action) (st : State) : State :=
  match a with
  | UpdatePerspectiveParam key value => updatePerspectiveParam key value st
  | ChangePerspective newPerspective => changePerspective newPerspective st
  | SetColorHue v => setColorHue v st
  | ResetView => resetView st
  end.

Definition handleAll (actions : list Action) (st : State) : State :=
  fold_left (fun st a => handle a st) actions st.

End Page.

(** The parameter pairs that the perspective does not select hold their
    defaults. *)
Definition othersDefault (st : Page.State) : Prop :=
  let p := Page.params st in
  match Page.perspective st with
  | Page.Z0 => realC p = 0 /\ imagC p = 0 /\ exponent p = 2 /\ imagExponent p = 0
  | Page.C => realZ0 p = 0 /\ imagZ0 p = 0 /\ exponent p = 2 /\ imagExponent p = 0
  | Page.K => realZ0 p = 0 /\ imagZ0 p = 0 /\ realC p = 0 /\ imagC p = 0
  end.

(** A session in which the user has moved to the exponent and given it an
    imaginary part. *)
Definition complexExponentActions : list Page.Action :=
  [Page.UpdatePerspectiveParam Page.Real 0.5;
   Page.ChangePerspective Page.K;
   Page.UpdatePerspectiveParam Page.Imag 0.5].

(** ** (u, v)-flower graphs ([types.ts], [buildSeriesParallelGraph],
    [calculateFlowersNodeCount], the checks of [generateFlowers])

    The parameters [u], [v] and [generations] are integers.  A node id
    [`n${k}`] is modelled by its number [k]; an edge id, ['e0'] followed by
    suffixes [`_u${i}`] and [`_v${i}`], by the list of its suffixes.  The
    [Set] of node ids is the list of its elements in insertion order.

    [calculateFlowersNodeCount] adds and multiplies JavaScript numbers,
    and so does the model, on the numbers [JS.ofZ u] and [JS.ofZ v] that
    denote the parameters; [generateFlowers] compares the number computed
    with [100]. *)

Module Flowers.

Inductive Suffix : Type :=
| U (i : nat)
| V (i : nat).

Record SPEdge : Type := {
  id : list Suffix;
  source : nat;
  target : nat;
  generation : Z
}.

Record SPGraph : Type := {
  terminals : nat * nat;
  nodes : list nat;
  edges : list SPEdge
}.

(** [Set.prototype.add]. *)
Definition add (x : nat) (s : list nat) : list nat :=
  if existsb (Nat.eqb x) s then s else s ++ [x].

(** The loop [for (let i = 0; i < chain.length - 1; i++)] over a chain:
    both ends of each link are added to the node set and the link is
    pushed on [newEdges]. *)
Fixpoint linkChain (suffix : nat -> Suffix) (edge : SPEdge) (gen : Z) (i : nat)
    (chain : list nat) (nodes : list nat) (newEdges : list SPEdge)
    : list nat * list SPEdge :=
  match chain with
  | a :: ((b :: _) as rest) =>
      let nodes := add b (add a nodes) in
      let newEdges :=
        newEdges ++ [{| id := id edge ++ [suffix i]; source := a; target := b;
                        generation := gen |}] in
      linkChain suffix edge gen (S i) rest nodes newEdges
  | _ => (nodes, newEdges)
  end.

(** The variables the two loops of a generation update. *)
Record Build : Type := {
  nodeId : nat;
  nodeSet : list nat;
  newEdges : list SPEdge
}.

(** One path of the replacement of [edge]: a chain from its source over
    [count - 1] new nodes to its target, then its links. *)
Definition pushChain (suffix : nat -> Suffix) (count : Z) (gen : Z)
    (edge : SPEdge) (b : Build) : Build :=
  let fresh := Z.to_nat (count - 1) in
  let chain := source edge :: seq (nodeId b) fresh ++ [target edge] in
  let '(nodes', edges') := linkChain suffix edge gen 0 chain (nodeSet b) (newEdges b) in
  {| nodeId := nodeId b + fresh; nodeSet := nodes'; newEdges := edges' |}.

(** The body of [for (const edge of edges)]. *)
Definition replaceEdge (u v : Z) (gen : Z) (b : Build) (edge : SPEdge) : Build :=
  pushChain V v gen edge (pushChain U u gen edge b).

(** The body of [for (let gen = 1; gen <= generations; gen++)], on the
    triple [(nodeId, nodes, edges)]. *)
Definition generationStep (u v : Z) (st : nat * list nat * list SPEdge) (gen : Z)
    : nat * list nat * list SPEdge :=
  let '(next, nodes0, edges0) := st in
  let b := fold_left (replaceEdge u v gen) edges0
             {| nodeId := next; nodeSet := nodes0; newEdges := [] |} in
  (nodeId b, nodeSet b, newEdges b).

Definition buildSeriesParallelGraph (u v generations : Z) : SPGraph :=
  let A := 0%nat in
  let B := 1%nat in
  let e0 := {| id := []; source := A; target := B; generation := 0 |} in
  let '(_, nodes', edges') :=
    fold_left (generationStep u v) (zrange 1 (generations + 1)) (2%nat, [A; B], [e0]) in
  {| terminals := (A, B); nodes := nodes'; edges := edges' |}.

Definition calculateFlowersNodeCount (u v generations : Z) : float :=
  fst (fold_left
         (fun (st : float * float) (_ : Z) =>
            let '(totalNodes, currentEdges) := st in
            let newNodes := currentEdges * ((JS.ofZ u - 1) + (JS.ofZ v - 1)) in
            (totalNodes + newNodes, currentEdges * (JS.ofZ u + JS.ofZ v)))
         (zrange 1 (generations + 1)) (2, 1)).

(** The graph [generateFlowers] hands to [applyLayout]; [None] where it
    throws. *)
Definition generateFlowersGraph (u v generations : Z) : option SPGraph :=
  if (u <? 2)%Z || (v <? u)%Z then None
  else if (generations <? 1)%Z then None
  else
    let projectedCount := calculateFlowersNodeCount u v generations in
    if projectedCount >? 100 then None
    else Some (buildSeriesParallelGraph u v generations).

End Flowers.

(** The projection of [calculateFlowersNodeCount] in exact integer
    arithmetic. *)
Definition flowerNodeCount (u v generations : Z) : Z :=
  fst (fold_left
         (fun (st : Z * Z) (_ : Z) =>
            let '(totalNodes, currentEdges) := st in
            let newNodes := (currentEdges * ((u - 1) + (v - 1)))%Z in
            ((totalNodes + newNodes)%Z, (currentEdges * (u + v))%Z))
         (zrange 1 (generations + 1)) (2%Z, 1%Z)).

(** The inputs for which every integer of the projection stays below
    2^53: the edge counts, of which [(u + v) ^ generations] is the last
    and largest, and the node counts, of which the result is. *)
Definition safeIntegers (u v generations : Z) : Prop :=
  ((u + v) ^ Z.max 0 generations < 2 ^ 53)%Z
  /\ (flowerNodeCount u v generations < 2 ^ 53)%Z.

(** * Properties *)

(** Closed conjunctions of equations are settled by evaluation. *)
Ltac evaluate :=
  repeat match goal with |- _ /\ _ => split end; vm_compute; reflexivity.

(** ** Facts about binary64 arithmetic *)

Lemma zero_plus (x : float) : x <> neg_zero -> 0 + x = x.
Proof.
  intros Hx. apply Prim2SF_inj. rewrite add_spec.
  change (Prim2SF 0) with (S754_zero false).
  destruct (Prim2SF x) as [s| s | |s m e] eqn:E; try reflexivity.
  destruct s; try reflexivity.
  exfalso. apply Hx. rewrite <- (SF2Prim_Prim2SF x), E. reflexivity.
Qed.

Lemma zero_plus_sq (x : float) : (0 + x) * (0 + x) = x * x.
Proof.
  destruct (Prim2SF x) as [s| s | |s m e] eqn:E;
    try (rewrite zero_plus; [reflexivity | intros ->; discriminate E]).
  destruct s.
  - rewrite <- (SF2Prim_Prim2SF x), E. reflexivity.
  - rewrite zero_plus; [reflexivity | intros ->; discriminate E].
Qed.

Lemma SFcompare_antisym (x y : spec_float) (c : comparison) :
  SFcompare x y = Some c -> SFcompare y x = Some (CompOpp c).
Proof.
  destruct x as [sx|sx| |sx mx ex], y as [sy|sy| |sy my ey]; cbn;
    try discriminate;
    try (intros [= <-]; try destruct sx; try destruct sy; reflexivity).
  intros [= <-]. f_equal.
  destruct sx, sy; try reflexivity;
    rewrite (Z.compare_antisym ex ey);
    destruct (ex ?= ey)%Z; cbn; try reflexivity;
    rewrite (Pos.compare_cont_antisym mx my Eq); cbn;
    try rewrite CompOpp_involutive; reflexivity.
Qed.

(** [x <= y] rules out [x > y]. *)
Lemma leb_not_gtb (x y : float) : (x <=? y) = true -> (x >? y) = false.
Proof.
  unfold JS.gtb. rewrite leb_spec, ltb_spec. unfold SFleb, SFltb.
  destruct (SFcompare (Prim2SF x) (Prim2SF y)) as [c|] eqn:E; [|discriminate].
  rewrite (SFcompare_antisym _ _ _ E).
  destruct c; cbn; congruence.
Qed.

Lemma digits2_pos_bound (m : positive) : (Zpos m < 2 ^ Zpos (digits2_pos m))%Z.
Proof.
  induction m as [m IH|m IH|]; cbn [digits2_pos].
  - rewrite Pos2Z.inj_succ, Z.pow_succ_r by lia. lia.
  - rewrite Pos2Z.inj_succ, Z.pow_succ_r by lia. lia.
  - reflexivity.
Qed.




(** ** Binary64 arithmetic on integers below 2^53

    Such integers are binary64 numbers, and their sums, differences and
    products, as long as these stay below 2^53, are computed without
    rounding. *)

Section SafeIntegerArithmetic.

Local Open Scope Z_scope.

Lemma iter_pos_nat {A : Type} (f : A -> A) (p : positive) (x : A) :
  SpecFloat.iter_pos f p x = Nat.iter (Pos.to_nat p) f x.
Proof.
  revert x. induction p as [p IH|p IH|]; intros x; cbn [SpecFloat.iter_pos].
  - rewrite !IH, Pos2Nat.inj_xI, Nat.iter_succ_r.
    replace (2 * Pos.to_nat p)%nat with (Pos.to_nat p + Pos.to_nat p)%nat by lia.
    now rewrite Nat.iter_add.
  - rewrite !IH, Pos2Nat.inj_xO.
    replace (2 * Pos.to_nat p)%nat with (Pos.to_nat p + Pos.to_nat p)%nat by lia.
    now rewrite Nat.iter_add.
  - reflexivity.
Qed.

Lemma shr_1_even (m : Z) :
  0 < m -> shr_1 {| shr_m := 2 * m; shr_r := false; shr_s := false |}
           = {| shr_m := m; shr_r := false; shr_s := false |}.
Proof. destruct m; try lia. intros _. reflexivity. Qed.

Lemma shr_exact (n : nat) : forall m : Z,
  0 < m ->
  Nat.iter n shr_1 {| shr_m := m * 2 ^ Z.of_nat n; shr_r := false; shr_s := false |}
  = {| shr_m := m; shr_r := false; shr_s := false |}.
Proof.
  induction n as [|n IH]; intros m Hm.
  - cbn [Nat.iter nat_rect Z.of_nat]. now rewrite Z.mul_1_r.
  - rewrite Nat.iter_succ.
    replace (m * 2 ^ Z.of_nat (S n)) with ((2 * m) * 2 ^ Z.of_nat n)
      by (rewrite Nat2Z.inj_succ, Z.pow_succ_r by lia; ring).
    rewrite IH by lia. now apply shr_1_even.
Qed.

(** The number of binary digits of a positive integer. *)
Lemma digits2_pos_lower (p : positive) : 2 ^ (Zpos (digits2_pos p) - 1) <= Zpos p.
Proof.
  induction p as [p IH|p IH|]; cbn [digits2_pos].
  - rewrite Pos2Z.inj_succ. replace (Z.succ (Zpos (digits2_pos p)) - 1)
      with (Z.succ (Zpos (digits2_pos p) - 1)) by lia.
    rewrite Z.pow_succ_r by lia. lia.
  - rewrite Pos2Z.inj_succ. replace (Z.succ (Zpos (digits2_pos p)) - 1)
      with (Z.succ (Zpos (digits2_pos p) - 1)) by lia.
    rewrite Z.pow_succ_r by lia. lia.
  - reflexivity.
Qed.

Lemma Zdigits2_unique (c n : Z) : 2 ^ (n - 1) <= c < 2 ^ n -> 0 < n -> Zdigits2 c = n.
Proof.
  intros [Hl Hu] Hn.
  assert (Hc : 0 < c) by (pose proof (Z.pow_pos_nonneg 2 (n - 1)); lia).
  destruct c as [|p|p]; try lia. cbn [Zdigits2].
  pose proof (digits2_pos_bound p) as H1. pose proof (digits2_pos_lower p) as H2.
  set (d := Zpos (digits2_pos p)) in *.
  destruct (Z.lt_trichotomy d n) as [H|[H|H]]; [|exact H|].
  - assert (2 ^ d <= 2 ^ (n - 1)) by (apply Z.pow_le_mono_r; lia). lia.
  - assert (2 ^ n <= 2 ^ (d - 1)) by (apply Z.pow_le_mono_r; lia). lia.
Qed.

Lemma Zdigits2_spec (c : Z) : 0 < c -> 2 ^ (Zdigits2 c - 1) <= c < 2 ^ Zdigits2 c.
Proof.
  destruct c as [|p|p]; try lia. intros _. cbn [Zdigits2].
  split; [apply digits2_pos_lower|apply digits2_pos_bound].
Qed.

Lemma Zdigits2_pos (c : Z) : 0 < c -> 0 < Zdigits2 c.
Proof. destruct c; try lia. intros _. cbn. lia. Qed.

Lemma Zdigits2_shift (c k : Z) : 0 < c -> 0 <= k -> Zdigits2 (c * 2 ^ k) = Zdigits2 c + k.
Proof.
  intros Hc Hk. pose proof (Zdigits2_spec c Hc) as [Hl Hu].
  pose proof (Zdigits2_pos c Hc) as Hd.
  apply Zdigits2_unique; [|lia].
  replace (Zdigits2 c + k - 1) with ((Zdigits2 c - 1) + k) by lia.
  rewrite !Z.pow_add_r by lia.
  assert (0 < 2 ^ k) by (apply Z.pow_pos_nonneg; lia). nia.
Qed.

Lemma Zdigits2_le (c n : Z) : 0 < c -> c < 2 ^ n -> 0 <= n -> Zdigits2 c <= n.
Proof.
  intros Hc Hn H0. pose proof (Zdigits2_spec c Hc) as [Hl _].
  destruct (Z.le_gt_cases (Zdigits2 c) n) as [H|H]; [exact H|].
  assert (2 ^ n <= 2 ^ (Zdigits2 c - 1)) by (apply Z.pow_le_mono_r; lia). lia.
Qed.

Lemma round_aux_exact (c k : Z) :
  0 < c -> c < 2 ^ 53 -> 0 <= k -> 53 - Zdigits2 c <= k ->
  binary_round_aux prec emax false (c * 2 ^ k) (- k) loc_Exact = normalForm c.
Proof.
  intros Hc Hc53 Hk Hkd.
  pose proof (Zdigits2_pos c Hc) as Hd. pose proof (Zdigits2_le c 53 Hc Hc53 ltac:(lia)) as Hd53.
  set (d := Zdigits2 c) in *.
  set (m := c * 2 ^ (53 - d)).
  assert (Hm : 0 < m) by (apply Z.mul_pos_pos; [exact Hc|apply Z.pow_pos_nonneg; lia]).
  assert (Hdm : Zdigits2 m = 53).
  { unfold m. rewrite Zdigits2_shift by lia. fold d. lia. }
  assert (Hfexp : forall x, 1 <= x -> fexp prec emax x = x - 53).
  { intros x Hx. unfold fexp, emin. change prec with 53. change emax with 1024. lia. }
  unfold binary_round_aux, shr_fexp.
  rewrite Zdigits2_shift by lia. fold d.
  replace (d + k + - k) with d by lia. rewrite Hfexp by lia.
  assert (Hshr : shr (shr_record_of_loc (c * 2 ^ k) loc_Exact) (- k) (d - 53 - - k)
                 = ({| shr_m := m; shr_r := false; shr_s := false |}, d - 53)).
  { cbn [shr_record_of_loc]. unfold shr.
    destruct (d - 53 - - k) as [|p|p] eqn:En; try lia.
    - assert (k = 53 - d) by lia. subst k. fold m. f_equal. lia.
    - rewrite iter_pos_nat.
      replace (c * 2 ^ k) with (m * 2 ^ Z.of_nat (Pos.to_nat p)).
      + rewrite shr_exact by exact Hm. f_equal. lia.
      + unfold m. rewrite positive_nat_Z, <- Z.mul_assoc, <- Z.pow_add_r by lia.
        do 2 f_equal. lia. }
  rewrite Hshr. cbn [shr_m loc_of_shr_record round_nearest_even].
  rewrite Hdm. replace (53 + (d - 53)) with d by lia. rewrite Hfexp by lia.
  rewrite Z.sub_diag. cbn [shr_record_of_loc shr shr_m].
  unfold normalForm. fold d m.
  destruct m as [|q|q] eqn:Em; try lia.
  replace (d - 53 <=? emax - prec) with true
    by (symmetry; apply Z.leb_le; change prec with 53; change emax with 1024; lia).
  reflexivity.
Qed.

Lemma pos_iter_xO (q d : positive) : Zpos (Pos.iter xO q d) = Zpos q * 2 ^ Zpos d.
Proof.
  induction d as [|d IH] using Pos.peano_ind.
  - cbn [Pos.iter]. lia.
  - rewrite Pos.iter_succ, Pos2Z.inj_xO, IH, Pos2Z.inj_succ, Z.pow_succ_r by lia. ring.
Qed.

Lemma binary_normalize_exact (c k : Z) :
  0 < c -> c < 2 ^ 53 -> 0 <= k ->
  binary_normalize prec emax (c * 2 ^ k) (- k) false = normalForm c.
Proof.
  intros Hc Hc53 Hk.
  pose proof (Zdigits2_pos c Hc) as Hd. pose proof (Zdigits2_le c 53 Hc Hc53 ltac:(lia)) as Hd53.
  assert (Hpos : 0 < c * 2 ^ k) by (apply Z.mul_pos_pos; [exact Hc|apply Z.pow_pos_nonneg; lia]).
  pose proof (Zdigits2_shift c k Hc Hk) as Hdk.
  destruct (c * 2 ^ k) as [|q|q] eqn:Eq; try lia.
  cbn [binary_normalize Zdigits2] in *. unfold binary_round. rewrite Hdk.
  replace (Zdigits2 c + k + - k) with (Zdigits2 c) by lia.
  replace (fexp prec emax (Zdigits2 c)) with (Zdigits2 c - 53)
    by (unfold fexp, emin; change prec with 53; change emax with 1024; lia).
  unfold shl_align.
  destruct (Zdigits2 c - 53 - - k) as [|p|p] eqn:En.
  - rewrite <- Eq. apply round_aux_exact; lia.
  - rewrite <- Eq. apply round_aux_exact; lia.
  - rewrite pos_iter_xO, <- Eq, <- Z.mul_assoc, <- Z.pow_add_r by lia.
    replace (Zdigits2 c - 53) with (- (k + Zpos p)) by lia.
    apply round_aux_exact; lia.
Qed.

Lemma binary_normalize_aligned (c e : Z) :
  0 < c -> c < 2 ^ 53 -> e <= 0 ->
  binary_normalize prec emax (c * 2 ^ (- e)) e false = normalForm c.
Proof.
  intros Hc Hc53 He. rewrite <- (Z.opp_involutive e) at 2.
  apply binary_normalize_exact; lia.
Qed.

Lemma normalForm_valid (c : Z) : 0 < c -> c < 2 ^ 53 -> valid_binary (normalForm c) = true.
Proof.
  intros Hc Hc53.
  pose proof (Zdigits2_pos c Hc) as Hd. pose proof (Zdigits2_le c 53 Hc Hc53 ltac:(lia)) as Hd53.
  unfold normalForm, valid_binary, SpecFloat.bounded, SpecFloat.canonical_mantissa.
  assert (Hm : 0 < c * 2 ^ (53 - Zdigits2 c))
    by (apply Z.mul_pos_pos; [exact Hc|apply Z.pow_pos_nonneg; lia]).
  pose proof (Zdigits2_shift c (53 - Zdigits2 c) Hc ltac:(lia)) as Hdm.
  destruct (c * 2 ^ (53 - Zdigits2 c)) as [|q|q] eqn:Eq; try lia.
  cbn [Z.to_pos Zdigits2] in *. rewrite Hdm.
  apply andb_true_iff. split.
  - apply Z.eqb_eq. unfold fexp, emin. change prec with 53. change emax with 1024. lia.
  - apply Z.leb_le. change prec with 53. change emax with 1024. lia.
Qed.

Lemma Prim2SF_ofZ (c : Z) : 0 < c -> c < 2 ^ 53 -> Prim2SF (JS.ofZ c) = normalForm c.
Proof.
  intros Hc Hc53. unfold JS.ofZ.
  replace c with (c * 2 ^ 0) at 1 by (rewrite Z.mul_1_r; reflexivity).
  change 0%Z with (- 0) at 2.
  rewrite binary_normalize_exact by lia.
  apply Prim2SF_SF2Prim, normalForm_valid; assumption.
Qed.

Lemma Prim2SF_ofZ_0 : Prim2SF (JS.ofZ 0) = S754_zero false.
Proof. reflexivity. Qed.

Lemma normalForm_value (c : Z) :
  0 < c -> c < 2 ^ 53 ->
  exists m e, normalForm c = S754_finite false m e
              /\ e <= 0 /\ Zpos m = c * 2 ^ (- e) /\ e = Zdigits2 c - 53.
Proof.
  intros Hc Hc53.
  pose proof (Zdigits2_pos c Hc) as Hd. pose proof (Zdigits2_le c 53 Hc Hc53 ltac:(lia)) as Hd53.
  assert (Hm : 0 < c * 2 ^ (53 - Zdigits2 c))
    by (apply Z.mul_pos_pos; [exact Hc|apply Z.pow_pos_nonneg; lia]).
  exists (Z.to_pos (c * 2 ^ (53 - Zdigits2 c))), (Zdigits2 c - 53).
  split; [reflexivity|]. split; [lia|]. split; [|reflexivity].
  rewrite Z2Pos.id by exact Hm. do 2 f_equal. lia.
Qed.

Lemma shl_align_value (m : positive) (e ez : Z) :
  ez <= e -> Zpos (fst (shl_align m e ez)) = Zpos m * 2 ^ (e - ez).
Proof.
  intros H. unfold shl_align.
  destruct (ez - e) as [|p|p] eqn:E; try lia; cbn [fst].
  - replace (e - ez) with 0 by lia. lia.
  - rewrite pos_iter_xO. do 2 f_equal. lia.
Qed.

(** Aligned at a common exponent [ez], the mantissa of [c] is
    [c * 2 ^ (- ez)]. *)
Lemma aligned_value (c : Z) (m : positive) (e ez : Z) :
  Zpos m = c * 2 ^ (- e) -> e <= 0 -> ez <= e ->
  Zpos (fst (shl_align m e ez)) = c * 2 ^ (- ez).
Proof.
  intros Hm He Hz. rewrite shl_align_value, Hm, <- Z.mul_assoc, <- Z.pow_add_r by lia.
  do 2 f_equal. lia.
Qed.

Local Open Scope float_scope.

(** Sums, differences and products of integers that stay below 2^53 are
    exact. *)
Lemma ofZ_add (a b : Z) :
  (0 <= a)%Z -> (0 <= b)%Z -> (a + b < 2 ^ 53)%Z -> JS.ofZ a + JS.ofZ b = JS.ofZ (a + b).
Proof.
  intros Ha Hb Hs. apply Prim2SF_inj. rewrite add_spec.
  destruct (Z.eq_dec a 0) as [->|Ha0].
  { rewrite Z.add_0_l. destruct (Z.eq_dec b 0) as [->|Hb0]; [reflexivity|].
    rewrite Prim2SF_ofZ_0, Prim2SF_ofZ by lia. reflexivity. }
  destruct (Z.eq_dec b 0) as [->|Hb0].
  { rewrite Prim2SF_ofZ_0, Z.add_0_r, Prim2SF_ofZ by lia. reflexivity. }
  rewrite !Prim2SF_ofZ by lia.
  destruct (normalForm_value a) as (ma & ea & -> & Hea & Hma & _); try lia.
  destruct (normalForm_value b) as (mb & eb & -> & Heb & Hmb & _); try lia.
  unfold SF64add, SFadd. cbv zeta. cbn [cond_Zopp].
  rewrite (aligned_value a), (aligned_value b) by (assumption || lia).
  rewrite <- Z.mul_add_distr_r.
  apply binary_normalize_aligned; lia.
Qed.

Lemma ofZ_sub (a b : Z) :
  (0 <= b)%Z -> (b <= a)%Z -> (a < 2 ^ 53)%Z -> JS.ofZ a - JS.ofZ b = JS.ofZ (a - b).
Proof.
  intros Hb Hab Ha. apply Prim2SF_inj. rewrite sub_spec.
  destruct (Z.eq_dec b 0) as [->|Hb0].
  { rewrite Z.sub_0_r. destruct (Z.eq_dec a 0) as [->|Ha0]; [reflexivity|].
    rewrite Prim2SF_ofZ_0, Prim2SF_ofZ by lia. reflexivity. }
  rewrite (Prim2SF_ofZ a), (Prim2SF_ofZ b) by lia.
  destruct (normalForm_value a) as (ma & ea & -> & Hea & Hma & _); try lia.
  destruct (normalForm_value b) as (mb & eb & -> & Heb & Hmb & _); try lia.
  unfold SF64sub, SFsub. cbv zeta. cbn [cond_Zopp].
  rewrite (aligned_value a), (aligned_value b) by (assumption || lia).
  rewrite <- Z.mul_sub_distr_r.
  destruct (Z.eq_dec a b) as [->|Hne].
  - rewrite Z.sub_diag. reflexivity.
  - rewrite Prim2SF_ofZ by lia. apply binary_normalize_aligned; lia.
Qed.

Lemma Zdigits2_mul (a b : Z) :
  (0 < a)%Z -> (0 < b)%Z -> (Zdigits2 a + Zdigits2 b - 1 <= Zdigits2 (a * b))%Z.
Proof.
  intros Ha Hb.
  pose proof (Zdigits2_spec a Ha) as [La _]. pose proof (Zdigits2_spec b Hb) as [Lb _].
  pose proof (Zdigits2_pos a Ha). pose proof (Zdigits2_pos b Hb).
  assert (Hab : (0 < a * b)%Z) by lia.
  pose proof (Zdigits2_spec (a * b) Hab) as [_ U].
  pose proof (Zdigits2_pos (a * b) Hab).
  destruct (Z.le_gt_cases (Zdigits2 a + Zdigits2 b - 1) (Zdigits2 (a * b))) as [H'|H'];
    [exact H'|].
  assert (L : (2 ^ (Zdigits2 a - 1) * 2 ^ (Zdigits2 b - 1) <= a * b)%Z)
    by (apply Z.mul_le_mono_nonneg; try assumption; apply Z.pow_nonneg; lia).
  rewrite <- Z.pow_add_r in L by lia.
  assert ((2 ^ Zdigits2 (a * b) <= 2 ^ (Zdigits2 a - 1 + (Zdigits2 b - 1)))%Z)
    by (apply Z.pow_le_mono_r; lia).
  lia.
Qed.

Lemma ofZ_mul (a b : Z) :
  (0 <= a < 2 ^ 53)%Z -> (0 <= b < 2 ^ 53)%Z -> (a * b < 2 ^ 53)%Z ->
  JS.ofZ a * JS.ofZ b = JS.ofZ (a * b).
Proof.
  intros Ha Hb Hs. apply Prim2SF_inj. rewrite mul_spec.
  destruct (Z.eq_dec a 0) as [->|Ha0].
  { rewrite Z.mul_0_l. destruct (Z.eq_dec b 0) as [->|Hb0]; [reflexivity|].
    rewrite Prim2SF_ofZ_0, Prim2SF_ofZ by lia. reflexivity. }
  destruct (Z.eq_dec b 0) as [->|Hb0].
  { rewrite Z.mul_0_r, Prim2SF_ofZ_0, Prim2SF_ofZ by lia. reflexivity. }
  assert (Hab : (0 < a * b)%Z) by nia.
  rewrite !Prim2SF_ofZ by lia.
  destruct (normalForm_value a) as (ma & ea & -> & Hea & Hma & Eea); try lia.
  destruct (normalForm_value b) as (mb & eb & -> & Heb & Hmb & Eeb); try lia.
  unfold SF64mul, SFmul. cbn [xorb].
  rewrite Pos2Z.inj_mul, Hma, Hmb.
  replace (a * 2 ^ (- ea) * (b * 2 ^ (- eb)))%Z with (a * b * 2 ^ (- (ea + eb)))%Z
    by (rewrite Z.opp_add_distr, Z.pow_add_r by lia; ring).
  rewrite <- (Z.opp_involutive (ea + eb)) at 2.
  pose proof (Zdigits2_mul a b ltac:(lia) ltac:(lia)).
  apply round_aux_exact; lia.
Qed.

(** Integers below 2^53 compare as the numbers that denote them. *)
Lemma SFcompare_normalForm (a b : Z) :
  (0 < a)%Z -> (a < 2 ^ 53)%Z -> (0 < b)%Z -> (b < 2 ^ 53)%Z ->
  SFcompare (normalForm a) (normalForm b) = Some (a ?= b)%Z.
Proof.
  intros Ha Ha53 Hb Hb53.
  pose proof (Zdigits2_spec a Ha) as [La Ua]. pose proof (Zdigits2_spec b Hb) as [Lb Ub].
  pose proof (Zdigits2_pos a Ha). pose proof (Zdigits2_pos b Hb).
  pose proof (Zdigits2_le a 53 Ha Ha53 ltac:(lia)).
  pose proof (Zdigits2_le b 53 Hb Hb53 ltac:(lia)).
  unfold normalForm. cbn [SFcompare]. f_equal.
  destruct (Z.compare_spec (Zdigits2 a - 53) (Zdigits2 b - 53)) as [E|E|E].
  - assert (Ed : Zdigits2 a = Zdigits2 b) by lia. rewrite Ed.
    assert (Hp : (0 < 2 ^ (53 - Zdigits2 b))%Z) by (apply Z.pow_pos_nonneg; lia).
    change (Pos.compare_cont Eq ?x ?y) with (Pos.compare x y).
    rewrite Pos2Z.inj_compare, !Z2Pos.id by nia.
    destruct (Z.compare_spec a b) as [E'|E'|E'].
    + subst. apply Z.compare_refl.
    + apply Z.compare_lt_iff. nia.
    + apply Z.compare_gt_iff. nia.
  - symmetry. apply Z.compare_lt_iff.
    assert ((2 ^ Zdigits2 a <= 2 ^ (Zdigits2 b - 1))%Z) by (apply Z.pow_le_mono_r; lia). lia.
  - symmetry. apply Z.compare_gt_iff.
    assert ((2 ^ Zdigits2 b <= 2 ^ (Zdigits2 a - 1))%Z) by (apply Z.pow_le_mono_r; lia). lia.
Qed.

Lemma ofZ_ltb (a b : Z) :
  (0 < a)%Z -> (a < 2 ^ 53)%Z -> (0 < b)%Z -> (b < 2 ^ 53)%Z ->
  (JS.ofZ a <? JS.ofZ b) = (a <? b)%Z.
Proof.
  intros Ha Ha53 Hb Hb53. rewrite ltb_spec, !Prim2SF_ofZ by assumption.
  unfold SFltb. rewrite SFcompare_normalForm by assumption.
  unfold Z.ltb. destruct (a ?= b)%Z; reflexivity.
Qed.

End SafeIntegerArithmetic.

(** In exact arithmetic no point outside the disc of radius 2 passes an
    interior test: the tests can only claim such a point of
    [computePixel] through rounding. *)
Lemma outside_disc_not_interior (x y : R) :
  (x * x + y * y > 4)%R -> ~ inCardioidR x y /\ ~ inPeriod2BulbR x y.
Proof.
  intros H. unfold inCardioidR, inPeriod2BulbR. cbv zeta. split; intros K; [|nra].
  set (u := (x - 1 / 4)%R) in *.
  assert (Hx : x = (u + 1 / 4)%R) by (unfold u; lra).
  replace (u * u + y * y + x - 1 / 4)%R with (u * u + y * y + u)%R in K by lra.
  rewrite Hx in H. clearbody u. clear Hx.
  pose proof (Rle_0_sqr u) as Su. pose proof (Rle_0_sqr y) as Sy. unfold Rsqr in *.
  assert (Hq3 : (1 / 4 < u * u + y * y + u)%R) by nra.
  set (q := (u * u + y * y)%R) in *.
  assert (Hy : (y * y <= q)%R) by (unfold q; lra).
  assert (Hq : (0 <= q)%R) by (unfold q; lra).
  clearbody q. nra.
Qed.

(** ** Iteration engine *)

Section IterationEngineFacts.
Context {M : MathHost}.

Lemma escapeLoop_escape params cr ci fuel iteration zr zi zrSq ziSq :
  (zrSq + ziSq >? 4) = true ->
  Worker.escapeLoop params cr ci (S fuel) iteration zr zi zrSq ziSq
  = (smoothValue iteration (zrSq + ziSq), iteration).
Proof. intros H. cbn [Worker.escapeLoop]. rewrite H. reflexivity. Qed.

Lemma escapeLoop_square params cr ci fuel iteration zr zi zrSq ziSq :
  (zrSq + ziSq >? 4) = false ->
  exponent params = 2 -> imagExponent params = 0 ->
  Worker.escapeLoop params cr ci (S fuel) iteration zr zi zrSq ziSq
  = let zr' := zrSq - ziSq + cr in
    let zi' := 2 * zr * zi + ci in
    Worker.escapeLoop params cr ci fuel (iteration + 1) zr' zi' (zr' * zr') (zi' * zi').
Proof.
  intros H He Hi. cbn [Worker.escapeLoop]. rewrite H, He, Hi. reflexivity.
Qed.

(** The orbit of [-2] under [z -> z^2 - 6] is constant and sits on the
    escape circle without crossing it: the loop runs out whatever its
    length. *)
Lemma julia_fixed_point fuel iteration :
  fst (Worker.escapeLoop juliaParams (-6) 0 fuel iteration (-2) 0 4 0) = -1.
Proof.
  revert iteration. induction fuel as [|fuel IH]; intros iteration.
  - reflexivity.
  - rewrite escapeLoop_square by reflexivity. cbv zeta.
    change (4 - 0 + -6) with (-2).
    change (2 * -2 * 0 + 0) with 0.
    change (-2 * -2) with 4. change (0 * 0) with 0.
    apply IH.
Qed.

Lemma julia_outside_disc_never_escapes (maxIterations : Z) :
  Worker.computePixel (-2) 0 juliaParams maxIterations true = -1.
Proof.
  unfold Worker.computePixel, Worker.computePixelRun. cbn [negb andb].
  change (realC juliaParams) with (-6). change (imagC juliaParams) with 0.
  change (-2 * -2) with 4. change (0 * 0) with 0.
  apply julia_fixed_point.
Qed.

(** C4, as amended.  In Mandelbrot mode a point for which the inequality
    of the main cardioid, [q (q + (x0 - 0.25)) < 0.25 y0^2] with
    [q = (x0 - 0.25)^2 + y0^2], or that of the period-2 bulb,
    [(x0 + 1)^2 + y0^2 < 0.0625], holds in binary64 arithmetic, every
    operation rounded, gets the inside sentinel [-1], whatever the
    parameters and the iteration limit, and the iteration loop is not
    entered (its counter stays at [0]). *)
Theorem computePixel_interior_shortcut
    (x0 y0 : float) (params : FractalParams) (maxIterations : Z) :
  (let q := (x0 - 0.25) * (x0 - 0.25) + y0 * y0 in
   (q * (q + (x0 - 0.25)) <? 0.25 * y0 * y0) = true)
  \/ ((x0 + 1) * (x0 + 1) + y0 * y0 <? 0.0625) = true ->
  Worker.computePixel x0 y0 params maxIterations false = -1
  /\ Worker.computePixelRun x0 y0 params maxIterations false = (-1, 0%Z).
Proof.
  intros H.
  assert (E : Worker.isInCardioid x0 y0 || Worker.isInPeriod2Bulb x0 y0 = true)
    by (apply orb_true_iff; exact H).
  unfold Worker.computePixel, Worker.computePixelRun.
  cbn [negb andb]. rewrite E. split; reflexivity.
Qed.

(** In Mandelbrot mode with exponent [2 + 0i], start value [z0 = 0] and
    an iteration limit of at least 2, a point with [x0^2 + y0^2 > 4] that
    the interior tests do not claim leaves the loop through the escape
    branch at counter 1, with the smooth value of [|c|^2] computed
    there. *)
Lemma outside_disc_escapes_at_counter_1
    (x0 y0 : float) (params : FractalParams) (maxIterations : Z) :
  exponent params = 2 -> imagExponent params = 0 ->
  realZ0 params = 0 -> imagZ0 params = 0 ->
  (2 <= maxIterations)%Z ->
  (x0 * x0 + y0 * y0 >? 4) = true ->
  Worker.isInCardioid x0 y0 = false -> Worker.isInPeriod2Bulb x0 y0 = false ->
  Worker.computePixelRun x0 y0 params maxIterations false
  = (smoothValue 1 (x0 * x0 + y0 * y0), 1%Z).
Proof.
  intros He Hi Hr0 Hi0 Hmax Hout Hc Hb.
  unfold Worker.computePixelRun. rewrite Hc, Hb, Hr0, Hi0. cbn [negb andb orb].
  destruct (Z.to_nat maxIterations) as [|[|fuel]] eqn:E; try lia.
  rewrite escapeLoop_square by (assumption || reflexivity). cbv zeta.
  change (0 * 0) with 0. change (0 - 0) with 0. change (2 * 0 * 0) with 0.
  rewrite escapeLoop_escape; rewrite !zero_plus_sq.
  - reflexivity.
  - exact Hout.
Qed.

End IterationEngineFacts.

(** Scenario A: the screen centre of the default view is inside the
    cardioid. *)
Lemma computePixel_interior_shortcut_witness :
  Worker.computePixel (M := stubHost) 0 0 mandelbrotParams 64 false = -1
  /\ Worker.computePixelRun (M := stubHost) 0 0 mandelbrotParams 64 false = (-1, 0%Z).
Proof.
  apply (computePixel_interior_shortcut (M := stubHost) 0 0 mandelbrotParams 64).
  left. reflexivity.
Defined.

(** The coordinates of the point [(nearBulbX, nearBulbY)] as fractions. *)
Lemma realOf_nearBulbX : realOf nearBulbX = (- 7374352979337896 / 9007199254740992)%R.
Proof.
  unfold realOf.
  replace (Prim2SF nearBulbX) with (S754_finite true 7374352979337896 (-53))
    by (vm_compute; reflexivity).
  cbn [cond_Zopp Z.opp]. unfold powerRZ.
  rewrite (pow_IZR 2 (Pos.to_nat 53)).
  replace (2 ^ Z.of_nat (Pos.to_nat 53))%Z with 9007199254740992%Z
    by (vm_compute; reflexivity).
  field.
Qed.

Lemma realOf_nearBulbY : realOf nearBulbY = (6202471045401378 / 36028797018963968)%R.
Proof.
  unfold realOf.
  replace (Prim2SF nearBulbY) with (S754_finite false 6202471045401378 (-55))
    by (vm_compute; reflexivity).
  cbn [cond_Zopp Z.opp]. unfold powerRZ.
  rewrite (pow_IZR 2 (Pos.to_nat 55)).
  replace (2 ^ Z.of_nat (Pos.to_nat 55))%Z with 36028797018963968%Z
    by (vm_compute; reflexivity).
  field.
Qed.

(** The point lies in the period-2 bulb; the sum the code compares with
    [0.0625] is rounded to [0.0625] itself, so that neither test claims
    the point and the loop runs to its limit. *)
Lemma nearBulb_is_iterated :
  inPeriod2BulbR (realOf nearBulbX) (realOf nearBulbY)
  /\ (nearBulbX + 1) * (nearBulbX + 1) + nearBulbY * nearBulbY = 0.0625
  /\ Worker.isInCardioid nearBulbX nearBulbY = false
  /\ Worker.isInPeriod2Bulb nearBulbX nearBulbY = false
  /\ Worker.computePixelRun (M := stubHost) nearBulbX nearBulbY mandelbrotParams 64 false
     = (-1, 64%Z).
Proof.
  split; [|evaluate].
  unfold inPeriod2BulbR. rewrite realOf_nearBulbX, realOf_nearBulbY. lra.
Qed.

(** C4 as stated, its inequalities read in exact arithmetic, fails: the
    point [(nearBulbX, nearBulbY)] satisfies that of the period-2 bulb
    and is iterated 64 times before the sentinel is returned. *)
Lemma computePixel_interior_counterexample :
  ~ (forall (M : MathHost) (x0 y0 : float) (params : FractalParams) (maxIterations : Z),
        inCardioidR (realOf x0) (realOf y0) \/ inPeriod2BulbR (realOf x0) (realOf y0) ->
        Worker.computePixel x0 y0 params maxIterations false = -1
        /\ Worker.computePixelRun x0 y0 params maxIterations false = (-1, 0%Z)).
Proof.
  intros H.
  destruct nearBulb_is_iterated as (Hin & _ & _ & _ & Hrun).
  destruct (H stubHost nearBulbX nearBulbY mandelbrotParams 64%Z (or_intror Hin)) as [_ E].
  rewrite Hrun in E. discriminate E.
Qed.

(** The bound C2 states for every point with [|c| > 2] also fails for
    want of iterations: with [maxIterations = 1] the Mandelbrot point
    [3 + 0i], of modulus 3, is only tested against the escape radius at
    [z = 0]; the loop then runs out and the sentinel [-1] is returned. *)
Lemma computePixel_outside_disc_counterexample :
  ~ (forall (M : MathHost) (x0 y0 : float) (params : FractalParams)
            (maxIterations : Z) (useJulia : bool),
        let cr := if useJulia then realC params else x0 in
        let ci := if useJulia then imagC params else y0 in
        (cr * cr + ci * ci >? 4) = true ->
        let v := Worker.computePixel x0 y0 params maxIterations useJulia in
        JS.isFinite v = true
        /\ (0 <=? v) = true /\ (v <? JS.ofZ maxIterations + 1) = true
        /\ v <> -1).
Proof.
  intros H.
  destruct (H stubHost 3 0 mandelbrotParams 1%Z false eq_refl) as (_ & _ & _ & Hv).
  apply Hv. reflexivity.
Qed.

(** And for every iteration limit in Julia mode: [c = -6], of modulus 6,
    and the screen point [-2], a fixed point of [z -> z^2 - 6] on the
    escape circle. *)
Lemma computePixel_julia_counterexample :
  (realC juliaParams * realC juliaParams + imagC juliaParams * imagC juliaParams >? 4) = true
  /\ forall (M : MathHost) (maxIterations : Z),
       Worker.computePixel (-2) 0 juliaParams maxIterations true = -1.
Proof.
  split; [reflexivity | intros; apply julia_outside_disc_never_escapes].
Qed.

(** ** Counting loops and the tile grid *)

Lemma zrange_In (lo hi i : Z) : In i (zrange lo hi) <-> (lo <= i < hi)%Z.
Proof.
  unfold zrange. rewrite in_map_iff. split.
  - intros (n & <- & Hn). apply in_seq in Hn. lia.
  - intros H. exists (Z.to_nat (i - lo)). split; [lia|]. apply in_seq. lia.
Qed.

Lemma zrange_length (lo hi : Z) : length (zrange lo hi) = Z.to_nat (hi - lo).
Proof. unfold zrange. now rewrite length_map, length_seq. Qed.

Lemma zrange_NoDup (lo hi : Z) : NoDup (zrange lo hi).
Proof.
  unfold zrange. apply Finite.Injective_map_NoDup; [|apply seq_NoDup].
  intros a b. lia.
Qed.

Lemma zrange_nil (lo hi : Z) : (hi <= lo)%Z -> zrange lo hi = [].
Proof. intros H. unfold zrange. replace (Z.to_nat (hi - lo)) with 0%nat by lia. reflexivity. Qed.

Lemma zrange_cons (lo hi : Z) : (lo < hi)%Z -> zrange lo hi = lo :: zrange (lo + 1) hi.
Proof.
  intros H. unfold zrange.
  replace (Z.to_nat (hi - lo)) with (S (Z.to_nat (hi - (lo + 1)))) by lia.
  cbn [seq map]. f_equal; [lia|].
  rewrite <- seq_shift, map_map. apply map_ext. intros a. lia.
Qed.

Lemma ceilDiv_bounds (a b : Z) :
  (0 < b)%Z -> (b * (ceilDiv a b - 1) < a <= b * ceilDiv a b)%Z.
Proof.
  intros Hb. unfold ceilDiv.
  pose proof (Z.mul_div_le (- a) b Hb).
  pose proof (Z.mul_succ_div_gt (- a) b Hb). lia.
Qed.

Lemma ceilDiv_pos (a b : Z) : (0 < a)%Z -> (0 < b)%Z -> (0 < ceilDiv a b)%Z.
Proof. intros Ha Hb. pose proof (ceilDiv_bounds a b Hb). nia. Qed.

Lemma generateTiles_In (nx ny : Z) (t : Z * Z) :
  In t (Worker.generateTiles nx ny) <-> (0 <= fst t < nx)%Z /\ (0 <= snd t < ny)%Z.
Proof.
  unfold Worker.generateTiles. rewrite in_flat_map. split.
  - intros (ty & Hy & Hx). apply in_map_iff in Hx as (tx & <- & Hx).
    apply zrange_In in Hy, Hx. cbn. lia.
  - intros [Hx Hy]. exists (snd t). split; [apply zrange_In; lia|].
    apply in_map_iff. exists (fst t). split; [now destruct t|apply zrange_In; lia].
Qed.

Lemma generateTiles_length (nx ny : Z) :
  length (Worker.generateTiles nx ny) = (Z.to_nat ny * Z.to_nat nx)%nat.
Proof.
  unfold Worker.generateTiles.
  assert (G : forall l : list Z, length (flat_map (fun ty => map (fun tx => (tx, ty)) (zrange 0 nx)) l)
                        = (length l * Z.to_nat nx)%nat).
  { induction l as [|a l IH]; [reflexivity|].
    cbn [flat_map]. rewrite length_app, IH, length_map, zrange_length.
    cbn [length]. lia. }
  rewrite G, zrange_length. f_equal. lia.
Qed.

Lemma generateTiles_NoDup (nx ny : Z) : NoDup (Worker.generateTiles nx ny).
Proof.
  unfold Worker.generateTiles.
  assert (G : forall l : list Z, NoDup l ->
             NoDup (flat_map (fun ty => map (fun tx => (tx, ty)) (zrange 0 nx)) l)).
  { induction l as [|a l IH]; intros Hl; [constructor|].
    inversion Hl as [|? ? Ha Hl']; subst. cbn [flat_map].
    apply NoDup_app.
    - apply Finite.Injective_map_NoDup; [|apply zrange_NoDup].
      intros x y [= ->]. reflexivity.
    - now apply IH.
    - intros t Ht1 Ht2. apply in_map_iff in Ht1 as (tx & <- & _).
      apply in_flat_map in Ht2 as (ty & Hty & Ht2).
      apply in_map_iff in Ht2 as (tx' & [= _ ->] & _). contradiction. }
  apply G, zrange_NoDup.
Qed.

(** ** The stable sort *)

Section ArraySortFacts.
Context {A : Type} (key : A -> Z).

Let cmp (a b : A) : comparison := (key a ?= key b)%Z.

Lemma insertSorted_perm (a : A) (l : list A) :
  Permutation (Worker.insertSorted cmp a l) (a :: l).
Proof.
  induction l as [|b l IH]; cbn; [reflexivity|].
  destruct (cmp a b); try reflexivity.
  rewrite IH. apply perm_swap.
Qed.

Lemma Array_sort_perm (l : list A) : Permutation (Worker.Array_sort cmp l) l.
Proof.
  induction l as [|a l IH]; cbn; [reflexivity|].
  rewrite insertSorted_perm. now constructor.
Qed.

Lemma insertSorted_sorted (a : A) (l : list A) :
  StronglySorted (fun x y => (key x <= key y)%Z) l ->
  StronglySorted (fun x y => (key x <= key y)%Z) (Worker.insertSorted cmp a l).
Proof.
  induction l as [|b l IH]; intros Hl; cbn.
  - repeat constructor.
  - inversion Hl as [|? ? Hl' Hb]; subst.
    unfold cmp at 1. destruct (Z.compare_spec (key a) (key b)) as [E|E|E].
    + constructor; [assumption|]. constructor; [lia|].
      eapply Forall_impl; [|exact Hb]. cbn. intros; lia.
    + constructor; [assumption|]. constructor; [lia|].
      eapply Forall_impl; [|exact Hb]. cbn. intros; lia.
    + constructor; [now apply IH|].
      eapply Permutation_Forall; [symmetry; apply insertSorted_perm|].
      constructor; [lia|assumption].
Qed.

Lemma Array_sort_sorted (l : list A) :
  StronglySorted (fun x y => (key x <= key y)%Z) (Worker.Array_sort cmp l).
Proof.
  induction l as [|a l IH]; cbn; [constructor|]. now apply insertSorted_sorted.
Qed.



End ArraySortFacts.





Lemma firstn_plus {A : Type} (a b : nat) (l : list A) :
  firstn (a + b) l = firstn a l ++ firstn b (skipn a l).
Proof.
  revert l. induction a as [|a IH]; intros l; [reflexivity|].
  destruct l as [|x l]; cbn; [now rewrite firstn_nil|]. now rewrite IH.
Qed.

Lemma skipn_nth_error {A : Type} (n : nat) (l : list A) (x : A) :
  nth_error l n = Some x -> skipn n l = x :: skipn (S n) l.
Proof.
  revert l. induction n as [|n IH]; intros [|y l]; cbn; try discriminate.
  - now intros [= ->].
  - apply IH.
Qed.

(** ** Render scheduler *)

Section SchedulerFacts.
Context {M : MathHost}.

Lemma responsesFrom_app r total c l1 l2 :
  responsesFrom r total c (l1 ++ l2)
  = responsesFrom r total c l1 ++ responsesFrom r total (c + Z.of_nat (length l1)) l2.
Proof.
  revert c. induction l1 as [|t l1 IH]; intros c; cbn [app responsesFrom length].
  - f_equal. lia.
  - destruct (Worker.tileRect r t) as [[[x y] w] h]. cbn [app]. f_equal.
    rewrite IH. do 2 f_equal. lia.
Qed.

Lemma responsesFrom_length r total c l : length (responsesFrom r total c l) = length l.
Proof.
  revert c. induction l as [|t l IH]; intros c; cbn [responsesFrom]; [reflexivity|].
  destruct (Worker.tileRect r t) as [[[x y] w] h]. cbn [length]. now rewrite IH.
Qed.


Lemma emitTile_spec st j t st' j' :
  Worker.emitTile st j t = (st', j') ->
  Worker.currentRequestId st' = Worker.currentRequestId st
  /\ Worker.timers st' = Worker.timers st
  /\ Worker.outbox st'
     = Worker.outbox st
       ++ responsesFrom (Worker.request j) (Worker.totalTiles j) (Worker.tilesComputed j) [t]
  /\ Worker.request j' = Worker.request j
  /\ Worker.tiles j' = Worker.tiles j
  /\ Worker.totalTiles j' = Worker.totalTiles j
  /\ Worker.tilesComputed j' = (Worker.tilesComputed j + 1)%Z
  /\ Worker.tileIndex j' = Worker.tileIndex j.
Proof.
  unfold Worker.emitTile. cbn [responsesFrom].
  destruct (Worker.tileRect (Worker.request j) t) as [[[x y] w] h].
  intros [= <- <-]. cbn. repeat split.
Qed.

(** A batch whose request is still the active one emits the tiles of its
    index range, in order. *)
Lemma batchLoop_emits (k : nat) : forall st j (t : nat),
  Worker.currentRequestId st = rq_requestId (Worker.request j) ->
  (t + k <= length (Worker.tiles j))%nat ->
  exists st' j',
    Worker.batchLoop (zrange (Z.of_nat t) (Z.of_nat t + Z.of_nat k)) st j = (true, st', j')
    /\ Worker.currentRequestId st' = Worker.currentRequestId st
    /\ Worker.timers st' = Worker.timers st
    /\ Worker.outbox st'
       = Worker.outbox st
         ++ responsesFrom (Worker.request j) (Worker.totalTiles j) (Worker.tilesComputed j)
              (firstn k (skipn t (Worker.tiles j)))
    /\ Worker.request j' = Worker.request j
    /\ Worker.tiles j' = Worker.tiles j
    /\ Worker.totalTiles j' = Worker.totalTiles j
    /\ Worker.tilesComputed j' = (Worker.tilesComputed j + Z.of_nat k)%Z
    /\ Worker.tileIndex j' = Worker.tileIndex j.
Proof.
  induction k as [|k IH]; intros st j t Hid Hlen.
  - exists st, j. rewrite zrange_nil by lia. cbn.
    rewrite app_nil_r, Z.add_0_r. repeat split.
  - rewrite zrange_cons by lia. cbn [Worker.batchLoop].
    rewrite Hid, Z.eqb_refl. cbn [negb].
    destruct (Z.ltb_spec (Z.of_nat t) 0) as [?|_]; [lia|].
    rewrite Nat2Z.id.
    destruct (nth_error (Worker.tiles j) t) as [x|] eqn:En;
      [|apply nth_error_None in En; lia].
    destruct (Worker.emitTile st j x) as [st1 j1] eqn:Ee.
    apply emitTile_spec in Ee as (E1 & E2 & E3 & E4 & E5 & E6 & E7 & E8).
    destruct (IH st1 j1 (S t)) as (st' & j' & Hb & F1 & F2 & F3 & F4 & F5 & F6 & F7 & F8).
    { now rewrite E1, E4. }
    { rewrite E5. lia. }
    exists st', j'.
    replace (Z.of_nat t + 1)%Z with (Z.of_nat (S t)) by lia.
    replace (Z.of_nat t + Z.of_nat (S k))%Z with (Z.of_nat (S t) + Z.of_nat k)%Z by lia.
    split; [exact Hb|].
    rewrite F1, F2, F3, F4, F5, F6, F7, F8, E1, E2, E3, E4, E5, E6, E7, E8.
    repeat split; try lia.
    rewrite (skipn_nth_error _ _ _ En). cbn [firstn].
    change (x :: firstn k (skipn (S t) (Worker.tiles j)))
      with ([x] ++ firstn k (skipn (S t) (Worker.tiles j))).
    rewrite responsesFrom_app, <- app_assoc. reflexivity.
Qed.

(** Once the active id differs from the request's id, neither a batch
    nor a tile step of that request computes or posts anything. *)
Lemma processBatch_stale st j :
  Worker.currentRequestId st <> rq_requestId (Worker.request j) ->
  Worker.processBatch st j = st.
Proof.
  intros H. unfold Worker.processBatch.
  destruct (Z.eqb_spec (Worker.currentRequestId st) (rq_requestId (Worker.request j)));
    [contradiction|reflexivity].
Qed.

Lemma batchLoop_stale i rest st j :
  Worker.currentRequestId st <> rq_requestId (Worker.request j) ->
  Worker.batchLoop (i :: rest) st j = (false, st, j).
Proof.
  intros H. cbn [Worker.batchLoop].
  destruct (Z.eqb_spec (Worker.currentRequestId st) (rq_requestId (Worker.request j)));
    [contradiction|reflexivity].
Qed.

End SchedulerFacts.

Section UncancelledRun.
Context {M : MathHost}.
Variable r : RenderRequest.

Local Abbreviation ts := (tileSize (quality r)).
Local Abbreviation tpf := (tilesPerFrame (quality r)).
Local Abbreviation schedule := (Worker.sortedTiles (canvasWidth r) (canvasHeight r) ts).
Local Abbreviation total :=
  (Worker.tilesX (canvasWidth r) ts * Worker.tilesY (canvasHeight r) ts)%Z.

Lemma sortedTiles_zero_size (w h : Z) : Worker.sortedTiles w h 0 = [].
Proof.
  unfold Worker.sortedTiles, Worker.tilesX, Worker.tilesY, ceilDiv.
  rewrite !Z.div_0_r. reflexivity.
Qed.

Lemma totalTiles_zero_size (w h : Z) : (Worker.tilesX w 0 * Worker.tilesY h 0)%Z = 0%Z.
Proof. unfold Worker.tilesX, Worker.tilesY, ceilDiv. rewrite !Z.div_0_r. reflexivity. Qed.

Lemma handleRenderRequest_eq (st : Worker.WState) :
  Worker.handleRenderRequest st r
  = if (ts =? 0)%Z && (0 <? canvasHeight r)%Z then None
    else Some (Worker.processBatch
                 {| Worker.currentRequestId := rq_requestId r;
                    Worker.timers := Worker.timers st;
                    Worker.outbox := Worker.outbox st |}
                 (jobAt r 0 0)).
Proof.
  unfold Worker.handleRenderRequest, jobAt.
  destruct (Z.eqb_spec ts 0) as [E|E]; cbn [andb]; [|reflexivity].
  destruct (0 <? canvasHeight r)%Z; [reflexivity|].
  rewrite E, sortedTiles_zero_size, totalTiles_zero_size. reflexivity.
Qed.

(** One batch of the active request, [count] tiles being out and
    [tileIndex] equal to [count]. *)
Lemma processBatch_active (s0 : Worker.WState) (count : nat) :
  Worker.currentRequestId s0 = rq_requestId r ->
  (count <= length schedule)%nat ->
  let batchEnd := Z.min (Z.of_nat count + tpf) (Z.of_nat (length schedule)) in
  let k := Z.to_nat (batchEnd - Z.of_nat count) in
  let s1 := Worker.processBatch s0 (jobAt r count (Z.of_nat count)) in
  Worker.currentRequestId s1 = rq_requestId r
  /\ Worker.outbox s1
     = Worker.outbox s0
       ++ responsesFrom r total (Z.of_nat count) (firstn k (skipn count schedule))
  /\ Worker.timers s1
     = Worker.timers s0
       ++ (if (batchEnd <? Z.of_nat (length schedule))%Z
           then [jobAt r (count + k) batchEnd] else []).
Proof.
  intros Hid Hc batchEnd k. cbv zeta.
  unfold Worker.processBatch.
  change (Worker.request (jobAt r count (Z.of_nat count))) with r.
  change (Worker.tiles (jobAt r count (Z.of_nat count))) with schedule.
  change (Worker.tileIndex (jobAt r count (Z.of_nat count))) with (Z.of_nat count).
  rewrite Hid, Z.eqb_refl. cbn [negb]. fold batchEnd.
  assert (Hr : zrange (Z.of_nat count) batchEnd
               = zrange (Z.of_nat count) (Z.of_nat count + Z.of_nat k)).
  { destruct (Z.le_gt_cases batchEnd (Z.of_nat count)).
    - rewrite !zrange_nil by lia. reflexivity.
    - f_equal. lia. }
  rewrite Hr.
  destruct (batchLoop_emits k s0 (jobAt r count (Z.of_nat count)) count)
    as (st' & j' & Hb & F1 & F2 & F3 & F4 & F5 & F6 & F7 & F8).
  { exact Hid. }
  { change (Worker.tiles (jobAt r count (Z.of_nat count))) with schedule. lia. }
  rewrite Hb. cbn [negb Worker.tileIndex Worker.tiles Worker.request].
  rewrite F4, F5, F6, F7, F1, Hid, Z.eqb_refl, andb_true_r.
  change (Worker.tiles (jobAt r count (Z.of_nat count))) with schedule.
  change (Worker.request (jobAt r count (Z.of_nat count))) with r in *.
  change (Worker.totalTiles (jobAt r count (Z.of_nat count))) with total in *.
  change (Worker.tilesComputed (jobAt r count (Z.of_nat count))) with (Z.of_nat count) in *.
  destruct (batchEnd <? Z.of_nat (length schedule))%Z; cbn.
  - repeat split; try assumption.
    rewrite F2. do 2 f_equal. unfold jobAt. f_equal. lia.
  - rewrite app_nil_r. rewrite F1. repeat split; assumption.
Qed.

(** With a negative batch size, a batch whose [tileIndex] went below
    zero reschedules itself for ever without emitting anything. *)
Lemma processBatch_negative (s0 : Worker.WState) (count : nat) (index : Z) :
  Worker.currentRequestId s0 = rq_requestId r ->
  (index < 0)%Z -> (tpf < 0)%Z ->
  let s1 := Worker.processBatch s0 (jobAt r count index) in
  Worker.currentRequestId s1 = rq_requestId r
  /\ Worker.outbox s1 = Worker.outbox s0
  /\ Worker.timers s1 = Worker.timers s0 ++ [jobAt r count (index + tpf)].
Proof.
  intros Hid Hi Ht. cbv zeta. unfold Worker.processBatch.
  change (Worker.request (jobAt r count index)) with r.
  change (Worker.tiles (jobAt r count index)) with schedule.
  change (Worker.tileIndex (jobAt r count index)) with index.
  rewrite Hid, Z.eqb_refl. cbn [negb].
  rewrite zrange_nil by lia. cbn [Worker.batchLoop negb Worker.tileIndex Worker.tiles].
  rewrite Z.min_l by lia. cbn. rewrite Hid, Z.eqb_refl.
  destruct (Z.ltb_spec (index + tpf) (Z.of_nat (length schedule))) as [_|?]; [|lia].
  cbn. repeat split.
Qed.

End UncancelledRun.

Section UncancelledInvariant.
Context {M : MathHost}.
Variable r : RenderRequest.
Variable base : list TileResponse.

Local Abbreviation ts := (tileSize (quality r)).
Local Abbreviation tpf := (tilesPerFrame (quality r)).
Local Abbreviation schedule := (Worker.sortedTiles (canvasWidth r) (canvasHeight r) ts).
Local Abbreviation total :=
  (Worker.tilesX (canvasWidth r) ts * Worker.tilesY (canvasHeight r) ts)%Z.

(** Running the batch of [r] that is due keeps the invariant and makes
    progress. *)
Lemma uncancelled_batch (s0 : Worker.WState) (count : nat) (index : Z) (progress : nat) :
  Worker.currentRequestId s0 = rq_requestId r ->
  Forall (fun j => rq_requestId (Worker.request j) <> rq_requestId r) (Worker.timers s0) ->
  Worker.outbox s0 = base ++ responsesFrom r total 0 (firstn count schedule) ->
  (count <= length schedule)%nat ->
  ((0 < tpf)%Z -> (Nat.min (length schedule) progress <= count)%nat) ->
  ((tpf <= 0)%Z -> count = 0%nat) ->
  (index = Z.of_nat count \/ ((tpf < 0)%Z /\ (index < 0)%Z)) ->
  uncancelled r base (Worker.timers s0) (S progress)
    (Worker.processBatch s0 (jobAt r count index)).
Proof.
  intros Hid Hst Hout Hc Hp Hn [->|[Ht Hi]].
  - destruct (processBatch_active r s0 count Hid Hc) as (H1 & H2 & H3).
    set (batchEnd := Z.min (Z.of_nat count + tpf) (Z.of_nat (length schedule))) in *.
    set (k := Z.to_nat (batchEnd - Z.of_nat count)) in *.
    split; [exact H1|]. split; [exact Hst|].
    exists (count + k)%nat. split; [lia|]. split; [|split; [|split]].
    + rewrite H2, Hout, firstn_plus, responsesFrom_app, <- app_assoc.
      rewrite length_firstn, Nat.min_l by lia. reflexivity.
    + intros Hpos. specialize (Hp Hpos). lia.
    + intros Hneg. specialize (Hn Hneg). lia.
    + rewrite H3. destruct (Z.ltb_spec batchEnd (Z.of_nat (length schedule))) as [Hlt|Hge].
      * right. exists batchEnd. split; [reflexivity|]. split; [exact Hlt|].
        destruct (Z.lt_trichotomy tpf 0) as [?|[?|?]].
        -- right. specialize (Hn ltac:(lia)). lia.
        -- left. specialize (Hn ltac:(lia)). lia.
        -- left. lia.
      * left. rewrite app_nil_r. split; [reflexivity|lia].
  - destruct (processBatch_negative r s0 count index Hid Hi Ht) as (H1 & H2 & H3).
    split; [exact H1|]. split; [exact Hst|].
    exists count. split; [exact Hc|]. split; [now rewrite H2|].
    split; [intros; lia|]. split; [exact Hn|].
    right. exists (index + tpf)%Z. split; [exact H3|]. split; [lia|]. right. lia.
Qed.

(** A callback of an older request is dropped when it fires. *)
Lemma uncancelled_timeout_stale (j : Worker.Job) (stale : list Worker.Job)
    (progress : nat) (s : Worker.WState) :
  uncancelled r base (j :: stale) progress s ->
  exists s', Worker.step s Worker.Timeout = Some s'
             /\ uncancelled r base stale progress s'.
Proof.
  intros (Hid & Hst & count & Hc & Hout & Hp & Hn & Ht).
  inversion Hst as [|? ? Hj Hst']; subst.
  assert (E : exists rest, Worker.timers s = j :: rest
              /\ ((rest = stale /\ count = length schedule)
                  \/ exists index, rest = stale ++ [jobAt r count index]
                       /\ (index < Z.of_nat (length schedule))%Z
                       /\ (index = Z.of_nat count \/ ((tpf < 0)%Z /\ (index < 0)%Z)))).
  { destruct Ht as [[Ht ?]|(index & Ht & ?)]; rewrite Ht.
    - exists stale. split; [reflexivity|]. now left.
    - exists (stale ++ [jobAt r count index]). split; [reflexivity|]. right. now exists index. }
  destruct E as (rest & Et & Hrest).
  cbn [Worker.step]. rewrite Et.
  eexists. split; [reflexivity|].
  rewrite processBatch_stale by (cbn; congruence).
  split; [exact Hid|]. split; [exact Hst'|].
  exists count. cbn. repeat split; assumption.
Qed.

(** With no older callback in the way, a timer tick runs the next batch
    of [r], or finds nothing to do. *)
Lemma uncancelled_timeout (progress : nat) (s : Worker.WState) :
  uncancelled r base [] progress s ->
  exists s', Worker.step s Worker.Timeout = Some s'
             /\ uncancelled r base [] (S progress) s'.
Proof.
  intros (Hid & Hst & count & Hc & Hout & Hp & Hn & [[Ht Hd]|(index & Ht & Hlt & Hi)]).
  - exists s. cbn [Worker.step]. rewrite Ht. split; [reflexivity|].
    split; [exact Hid|]. split; [exact Hst|].
    exists count. split; [exact Hc|]. split; [exact Hout|].
    split; [intros; lia|]. split; [exact Hn|]. left. now split.
  - cbn [Worker.step]. rewrite Ht. cbn [app].
    eexists. split; [reflexivity|].
    apply (uncancelled_batch
             {| Worker.currentRequestId := Worker.currentRequestId s;
                Worker.timers := []; Worker.outbox := Worker.outbox s |});
      cbn; assumption.
Qed.

Lemma uncancelled_weaken (stale : list Worker.Job) (p q : nat) (s : Worker.WState) :
  (q <= p)%nat -> uncancelled r base stale p s -> uncancelled r base stale q s.
Proof.
  intros Hq (Hid & Hst & count & Hc & Hout & Hp & Hn & Ht).
  split; [exact Hid|]. split; [exact Hst|]. exists count.
  repeat split; try assumption. intros Hpos. specialize (Hp Hpos). lia.
Qed.



(** Any number of ticks keeps the invariant, for what remains of the
    older callbacks. *)
Lemma uncancelled_run_any (m : nat) : forall (stale : list Worker.Job) (progress : nat)
    (s : Worker.WState),
  uncancelled r base stale progress s ->
  exists s' stale', Worker.run s (repeat Worker.Timeout m) = Some s'
                    /\ uncancelled r base stale' progress s'.
Proof.
  induction m as [|m IH]; intros stale progress s H.
  - exists s, stale. split; [reflexivity|exact H].
  - destruct stale as [|j stale].
    + destruct (uncancelled_timeout _ _ H) as (s1 & E1 & H1).
      apply (uncancelled_weaken _ _ progress) in H1; [|lia].
      destruct (IH _ _ _ H1) as (s' & stale' & E' & H').
      exists s', stale'. cbn [repeat Worker.run]. rewrite E1. split; assumption.
    + destruct (uncancelled_timeout_stale _ _ _ _ H) as (s1 & E1 & H1).
      destruct (IH _ _ _ H1) as (s' & stale' & E' & H').
      exists s', stale'. cbn [repeat Worker.run]. rewrite E1. split; assumption.
Qed.

End UncancelledInvariant.

Section UncancelledStart.
Context {M : MathHost}.

(** The render message itself: the first batch runs at once. *)
Lemma uncancelled_start (st : Worker.WState) (r : RenderRequest) :
  Forall (fun j => rq_requestId (Worker.request j) <> rq_requestId r) (Worker.timers st) ->
  (tileSize (quality r) =? 0)%Z && (0 <? canvasHeight r)%Z = false ->
  exists s', Worker.onmessage st (Render r) = Some s'
             /\ uncancelled r (Worker.outbox st) (Worker.timers st) 1 s'.
Proof.
  intros Hst Hok. cbn [Worker.onmessage]. rewrite handleRenderRequest_eq, Hok.
  eexists. split; [reflexivity|].
  apply (uncancelled_batch r (Worker.outbox st)
           {| Worker.currentRequestId := rq_requestId r;
              Worker.timers := Worker.timers st;
              Worker.outbox := Worker.outbox st |} 0 0 0);
    cbn; try assumption; try reflexivity; try lia.
  now rewrite app_nil_r.
Qed.


End UncancelledStart.

(** ** Order of the schedule *)

Lemma dist2_nonneg (cx cy : Z) (t : Z * Z) : (0 <= Worker.dist2 cx cy t)%Z.
Proof.
  unfold Worker.dist2. rewrite !Z.pow_2_r.
  pose proof (Z.square_nonneg (fst t - cx)).
  pose proof (Z.square_nonneg (snd t - cy)). lia.
Qed.








Lemma sortedTiles_perm (w h ts : Z) :
  Permutation (Worker.sortedTiles w h ts)
    (Worker.generateTiles (Worker.tilesX w ts) (Worker.tilesY h ts)).
Proof. unfold Worker.sortedTiles. apply (Array_sort_perm (Worker.dist2 _ _)). Qed.

Lemma sortedTiles_In (w h ts : Z) (t : Z * Z) :
  In t (Worker.sortedTiles w h ts)
  <-> (0 <= fst t < Worker.tilesX w ts)%Z /\ (0 <= snd t < Worker.tilesY h ts)%Z.
Proof.
  rewrite <- generateTiles_In. split; apply Permutation_in;
    [|symmetry]; apply sortedTiles_perm.
Qed.



(** ** What a step of the worker can emit *)

Section EmissionFacts.
Context {M : MathHost}.

(** Whatever a batch posts carries the id of its own request and no
    iteration data. *)
Lemma batchLoop_ids (indices : list Z) : forall st j b st' j',
  Worker.batchLoop indices st j = (b, st', j') ->
  Worker.currentRequestId st' = Worker.currentRequestId st
  /\ Worker.timers st' = Worker.timers st
  /\ Worker.request j' = Worker.request j
  /\ exists new, Worker.outbox st' = Worker.outbox st ++ new
       /\ Forall (fun x => tr_requestId x = rq_requestId (Worker.request j)
                           /\ tr_iterationData x = None) new.
Proof.
  induction indices as [|i rest IH]; intros st j b st' j'; cbn [Worker.batchLoop].
  - intros [= <- <- <-]. repeat split. exists []. now rewrite app_nil_r.
  - destruct (negb _); [intros [= <- <- <-]; repeat split; exists []; now rewrite app_nil_r|].
    destruct (i <? 0)%Z; [intros [= <- <- <-]; repeat split; exists []; now rewrite app_nil_r|].
    destruct (nth_error _ _) as [t|];
      [|intros [= <- <- <-]; repeat split; exists []; now rewrite app_nil_r].
    destruct (Worker.emitTile st j t) as [st1 j1] eqn:Ee.
    apply emitTile_spec in Ee as (E1 & E2 & E3 & E4 & _).
    intros H. apply IH in H as (F1 & F2 & F3 & new & F4 & F5).
    rewrite F1, F2, F3, E1, E2, E4. repeat split.
    exists (responsesFrom (Worker.request j) (Worker.totalTiles j) (Worker.tilesComputed j) [t]
            ++ new).
    rewrite F4, E3, <- app_assoc. split; [reflexivity|].
    apply Forall_app. split; [|now rewrite <- E4].
    cbn [responsesFrom]. destruct (Worker.tileRect (Worker.request j) t) as [[[? ?] ?] ?].
    repeat constructor.
Qed.

Lemma processBatch_ids (st : Worker.WState) (j : Worker.Job) :
  Worker.currentRequestId (Worker.processBatch st j) = Worker.currentRequestId st
  /\ exists new, Worker.outbox (Worker.processBatch st j) = Worker.outbox st ++ new
       /\ Forall (fun x => tr_requestId x = Worker.currentRequestId st
                           /\ tr_iterationData x = None) new.
Proof.
  unfold Worker.processBatch.
  destruct (Z.eqb_spec (Worker.currentRequestId st) (rq_requestId (Worker.request j)))
    as [E|E]; cbn [negb].
  - destruct (Worker.batchLoop _ st j) as [[b st'] j'] eqn:Eb.
    apply batchLoop_ids in Eb as (F1 & F2 & F3 & new & F4 & F5).
    rewrite <- E in F5.
    destruct b; cbn [negb]; [destruct (_ && _)|]; cbn; (split; [assumption|]);
      exists new; (split; assumption).
  - split; [reflexivity|]. exists []. now rewrite app_nil_r.
Qed.

(** Whatever a task posts carries the id that is active when the task
    ends. *)
Lemma step_ids (st st' : Worker.WState) (e : Worker.Event) :
  Worker.step st e = Some st' ->
  (exists new, Worker.outbox st' = Worker.outbox st ++ new
     /\ Forall (fun x => tr_requestId x = Worker.currentRequestId st'
                         /\ tr_iterationData x = None) new)
  /\ match e with
     | Worker.Message (Cancel _) => Worker.currentRequestId st' = (-1)%Z
     | Worker.Message (Render r) => Worker.currentRequestId st' = rq_requestId r
     | Worker.Timeout => Worker.currentRequestId st' = Worker.currentRequestId st
     end.
Proof.
  destruct e as [[r|c]|]; cbn [Worker.step Worker.onmessage].
  - unfold Worker.handleRenderRequest.
    destruct (_ =? 0)%Z; [destruct (0 <? _)%Z; [discriminate|]|];
      intros [= <-];
      match goal with |- context [Worker.processBatch ?s ?j] =>
        destruct (processBatch_ids s j) as (F1 & new & F2 & F3) end;
      cbn in F1, F2, F3; rewrite F1; (split; [|reflexivity]);
      exists new; (split; assumption).
  - intros [= <-]. cbn. split; [|reflexivity]. exists []. now rewrite app_nil_r.
  - destruct (Worker.timers st) as [|j rest].
    + intros [= <-]. split; [|reflexivity]. exists []. now rewrite app_nil_r.
    + intros [= <-].
      match goal with |- context [Worker.processBatch ?s ?j] =>
        destruct (processBatch_ids s j) as (F1 & new & F2 & F3) end.
      cbn in F1, F2, F3. rewrite F1. split; [|reflexivity].
      exists new. split; assumption.
Qed.

(** While [R] is not the active id and no render request brings it
    back, no response carries it. *)
Lemma run_fenced (R : Z) (es : list Worker.Event) : forall st st',
  R <> (-1)%Z ->
  Worker.currentRequestId st <> R ->
  (forall r, In (Worker.Message (Render r)) es -> rq_requestId r <> R) ->
  Worker.run st es = Some st' ->
  Worker.currentRequestId st' <> R
  /\ exists new, Worker.outbox st' = Worker.outbox st ++ new
       /\ Forall (fun x => tr_requestId x <> R) new.
Proof.
  induction es as [|e es IH]; intros st st' HR Hcur Hes; cbn [Worker.run].
  - intros [= <-]. split; [assumption|]. exists []. now rewrite app_nil_r.
  - destruct (Worker.step st e) as [st1|] eqn:E; [|discriminate].
    intros Hrun. apply step_ids in E as ((new1 & F1 & F2) & F3).
    assert (Hcur1 : Worker.currentRequestId st1 <> R).
    { destruct e as [[r|c]|]; rewrite F3; try assumption; try congruence.
      apply Hes. now left. }
    destruct (IH st1 st' HR Hcur1 (fun r H => Hes r (or_intror H)) Hrun)
      as (Hcur' & new2 & G1 & G2).
    split; [assumption|]. exists (new1 ++ new2).
    rewrite G1, F1, <- app_assoc. split; [reflexivity|].
    apply Forall_app. split; [|assumption].
    eapply Forall_impl; [|exact F2]. cbn. intros x [-> _]. assumption.
Qed.

(** No response of the worker carries iteration data. *)
Lemma run_no_iterationData (es : list Worker.Event) : forall st st',
  Worker.run st es = Some st' ->
  exists new, Worker.outbox st' = Worker.outbox st ++ new
    /\ Forall (fun x => tr_iterationData x = None) new.
Proof.
  induction es as [|e es IH]; intros st st'; cbn [Worker.run].
  - intros [= <-]. exists []. now rewrite app_nil_r.
  - destruct (Worker.step st e) as [st1|] eqn:E; [|discriminate].
    intros Hrun. apply step_ids in E as ((new1 & F1 & F2) & _).
    destruct (IH _ _ Hrun) as (new2 & G1 & G2).
    exists (new1 ++ new2). rewrite G1, F1, <- app_assoc. split; [reflexivity|].
    apply Forall_app. split; [|assumption].
    eapply Forall_impl; [|exact F2]. cbn. now intros x [_ ?].
Qed.

(** After a cancellation, ticks drop the pending batches one by one. *)
Lemma cancelled_ticks (n : nat) : forall st,
  Worker.currentRequestId st = (-1)%Z ->
  Forall (fun j => rq_requestId (Worker.request j) <> (-1)%Z) (Worker.timers st) ->
  exists st', Worker.run st (repeat Worker.Timeout n) = Some st'
              /\ Worker.outbox st' = Worker.outbox st
              /\ Worker.currentRequestId st' = (-1)%Z.
Proof.
  induction n as [|n IH]; intros st Hcur Hst.
  - exists st. repeat split. assumption.
  - cbn [repeat Worker.run Worker.step].
    destruct (Worker.timers st) as [|j rest] eqn:Et.
    + destruct (IH st Hcur) as (st' & E & F); [now rewrite Et|]. now exists st'.
    + inversion Hst as [|? ? Hj Hrest]; subst.
      rewrite processBatch_stale by (cbn; congruence).
      destruct (IH {| Worker.currentRequestId := Worker.currentRequestId st;
                      Worker.timers := rest; Worker.outbox := Worker.outbox st |})
        as (st' & E & F); [assumption..|]. now exists st'.
Qed.

End EmissionFacts.

Lemma run_app {M : MathHost} (es1 es2 : list Worker.Event) : forall st,
  Worker.run st (es1 ++ es2)
  = match Worker.run st es1 with
    | Some s => Worker.run s es2
    | None => None
    end.
Proof.
  induction es1 as [|e es1 IH]; intros st; cbn [app Worker.run]; [reflexivity|].
  destruct (Worker.step st e); [apply IH|reflexivity].
Qed.

Lemma sortedTiles_length (w h ts : Z) :
  length (Worker.sortedTiles w h ts)
  = (Z.to_nat (Worker.tilesY h ts) * Z.to_nat (Worker.tilesX w ts))%nat.
Proof.
  rewrite (Permutation_length (sortedTiles_perm w h ts)). apply generateTiles_length.
Qed.

(** ** The claims about the scheduler *)

(** C5.  For positive canvas and tile sizes the tiles of a render request
    partition the canvas: there are [ceil(W/ts) * ceil(H/ts)] of them, no
    grid cell twice; the tile of cell [(tx, ty)] sits at
    [(tx*ts, ty*ts)] with width [min(ts, W - x)] and height
    [min(ts, H - y)], is not empty and stays inside the canvas; and every
    canvas pixel lies in exactly one tile. *)
Theorem tile_grid_partitions_canvas (r : RenderRequest) :
  let W := canvasWidth r in
  let H := canvasHeight r in
  let ts := tileSize (quality r) in
  let tiles := Worker.sortedTiles W H ts in
  (0 < W)%Z -> (0 < H)%Z -> (0 < ts)%Z ->
  length tiles = Z.to_nat (ceilDiv W ts * ceilDiv H ts)
  /\ NoDup tiles
  /\ (forall t, In t tiles ->
        let '(x, y, w, h) := Worker.tileRect r t in
        x = (fst t * ts)%Z /\ y = (snd t * ts)%Z
        /\ w = Z.min ts (W - x) /\ h = Z.min ts (H - y)
        /\ (0 <= x)%Z /\ (0 <= y)%Z /\ (0 < w)%Z /\ (0 < h)%Z
        /\ (x + w <= W)%Z /\ (y + h <= H)%Z)
  /\ (forall px py, (0 <= px < W)%Z -> (0 <= py < H)%Z ->
        exists t, In t tiles /\ inRect px py (Worker.tileRect r t)
                  /\ forall t', In t' tiles -> inRect px py (Worker.tileRect r t') -> t' = t).
Proof.
  intros W H ts tiles HW HH Hts.
  pose proof (ceilDiv_bounds W ts Hts) as BW.
  pose proof (ceilDiv_bounds H ts Hts) as BH.
  pose proof (ceilDiv_pos W ts HW Hts) as PW.
  pose proof (ceilDiv_pos H ts HH Hts) as PH.
  assert (Hin : forall t, In t tiles <->
            (0 <= fst t < ceilDiv W ts)%Z /\ (0 <= snd t < ceilDiv H ts)%Z)
    by (intros t; apply sortedTiles_In).
  split; [|split; [|split]].
  - unfold tiles. rewrite sortedTiles_length. unfold Worker.tilesX, Worker.tilesY. nia.
  - eapply Permutation_NoDup; [symmetry; apply sortedTiles_perm|apply generateTiles_NoDup].
  - intros [tx ty] Ht. apply Hin in Ht. cbn [fst snd] in Ht.
    unfold Worker.tileRect. cbn [fst snd]. fold ts W H.
    repeat split; try reflexivity; nia.
  - intros px py Hpx Hpy.
    assert (Dx : (ts * (px / ts) <= px < ts * (px / ts) + ts)%Z).
    { pose proof (Z.mul_div_le px ts Hts). pose proof (Z.mul_succ_div_gt px ts Hts). lia. }
    assert (Dy : (ts * (py / ts) <= py < ts * (py / ts) + ts)%Z).
    { pose proof (Z.mul_div_le py ts Hts). pose proof (Z.mul_succ_div_gt py ts Hts). lia. }
    exists ((px / ts)%Z, (py / ts)%Z). split; [|split].
    + apply Hin. cbn [fst snd]. nia.
    + unfold inRect, Worker.tileRect. cbn [fst snd]. fold ts W H. nia.
    + intros [tx ty] Ht. apply Hin in Ht. cbn [fst snd] in Ht.
      unfold inRect, Worker.tileRect. cbn [fst snd]. fold ts W H.
      intros [Hx Hy]. f_equal; nia.
Qed.

(** C5 on a 5 x 5 canvas with tiles of size 2. *)
Lemma tile_grid_partitions_canvas_witness :
  length (Worker.sortedTiles 5 5 2) = 9%nat
  /\ exists t, In t (Worker.sortedTiles 5 5 2)
               /\ inRect 4 3 (Worker.tileRect clippedRequest t).
Proof.
  destruct (tile_grid_partitions_canvas clippedRequest) as (Hlen & _ & _ & Hpix);
    try (cbn; lia).
  split; [exact Hlen|].
  destruct (Hpix 4%Z 3%Z) as (t & Ht & Hr & _); try (cbn; lia).
  exists t. split; assumption.
Defined.

Section SchedulerClaims.
Context {M : MathHost}.



(** C8, as amended.  Once a cancel message was processed while [R] was
    the active id, no response with [requestId = R] is emitted any more,
    provided [R] is not the value [-1] that the cancellation installs and
    no later render request carries [R] again: a batch step and a tile
    step of a request whose id is not the active one return at once. *)
Theorem cancelled_request_emits_no_more
    (st st' : Worker.WState) (R fieldId : Z) (es : list Worker.Event) :
  Worker.currentRequestId st = R ->
  R <> (-1)%Z ->
  (forall r, In (Worker.Message (Render r)) es -> rq_requestId r <> R) ->
  Worker.run st (Worker.Message (Cancel fieldId) :: es) = Some st' ->
  (exists new, Worker.outbox st' = Worker.outbox st ++ new
     /\ Forall (fun x => tr_requestId x <> R) new)
  /\ (forall s j, rq_requestId (Worker.request j) = R ->
        Worker.currentRequestId s <> R ->
        Worker.processBatch s j = s
        /\ forall i rest, Worker.batchLoop (i :: rest) s j = (false, s, j)).
Proof.
  intros Hcur HR Hes Hrun. split.
  - cbn [Worker.run Worker.step Worker.onmessage] in Hrun.
    apply (run_fenced R) in Hrun as (_ & new & H1 & H2);
      try assumption; [|cbn; congruence].
    now exists new.
  - intros s j Hj Hs. split; [|intros i rest].
    + apply processBatch_stale. congruence.
    + apply batchLoop_stale. congruence.
Qed.

(** C9.  The cancel handler does not read the [requestId] of the
    message: whatever it is, the active id becomes [-1] and nothing else
    changes, so that a cancel message with a stale or arbitrary id has,
    on every continuation, the effect of one naming the active request;
    the batches pending then (of requests with an id other than [-1])
    are dropped as their timers fire and nothing more is emitted. *)
Theorem cancel_ignores_requestId (st : Worker.WState) (fieldId : Z) :
  Worker.onmessage st (Cancel fieldId)
  = Some {| Worker.currentRequestId := -1;
            Worker.timers := Worker.timers st;
            Worker.outbox := Worker.outbox st |}
  /\ (forall other es,
        Worker.run st (Worker.Message (Cancel other) :: es)
        = Worker.run st (Worker.Message (Cancel fieldId) :: es))
  /\ (Forall (fun j => rq_requestId (Worker.request j) <> (-1)%Z) (Worker.timers st) ->
      forall n, exists st',
        Worker.run st (Worker.Message (Cancel fieldId) :: repeat Worker.Timeout n) = Some st'
        /\ Worker.outbox st' = Worker.outbox st
        /\ Worker.currentRequestId st' = (-1)%Z).
Proof.
  split; [reflexivity|]. split; [reflexivity|].
  intros Hst n. cbn [Worker.run Worker.step Worker.onmessage].
  apply (cancelled_ticks n
           {| Worker.currentRequestId := -1;
              Worker.timers := Worker.timers st;
              Worker.outbox := Worker.outbox st |}); [reflexivity|exact Hst].
Qed.

End SchedulerClaims.



(** The amended C8 on the busy worker: a cancel message, then two timer
    ticks. *)
Lemma cancelled_request_emits_no_more_witness :
  exists st' new,
    Worker.run (M := stubHost) busyWorker
      (Worker.Message (Cancel 7) :: [Worker.Timeout; Worker.Timeout]) = Some st'
    /\ Worker.outbox st' = Worker.outbox busyWorker ++ new
    /\ Forall (fun x => tr_requestId x <> 7%Z) new.
Proof.
  destruct (Worker.run (M := stubHost) busyWorker
              (Worker.Message (Cancel 7) :: [Worker.Timeout; Worker.Timeout]))
    as [st'|] eqn:E; [|vm_compute in E; discriminate E].
  destruct (cancelled_request_emits_no_more (M := stubHost) busyWorker st' 7 7
              [Worker.Timeout; Worker.Timeout]) as ((new & H1 & H2) & _).
  - reflexivity.
  - lia.
  - intros r [H|[H|[]]]; discriminate H.
  - exact E.
  - exists st', new. repeat split; assumption.
Defined.

(** C8 as stated fails for [R = -1]: the cancellation installs the very
    id of the request, and the pending batch emits the fourth tile after
    the cancel message was processed. *)
Lemma cancelled_request_counterexample :
  Worker.run (M := stubHost) Worker.initial [Worker.Message (Render sentinelRequest)]
  = Some sentinelWorker
  /\ Worker.currentRequestId sentinelWorker = (-1)%Z
  /\ length (Worker.outbox sentinelWorker) = 3%nat
  /\ Worker.run (M := stubHost) sentinelWorker
       [Worker.Message (Cancel (-1)); Worker.Timeout]
     = Some sentinelWorkerCancelled
  /\ firstn 3 (Worker.outbox sentinelWorkerCancelled) = Worker.outbox sentinelWorker
  /\ map (fun x => (tr_requestId x, isComplete x))
         (skipn 3 (Worker.outbox sentinelWorkerCancelled))
     = [((-1)%Z, true)].
Proof. evaluate. Qed.

(** C9 on the busy worker: a cancel message naming a request that never
    existed. *)
Lemma cancel_ignores_requestId_witness :
  exists st',
    Worker.run (M := stubHost) busyWorker
      (Worker.Message (Cancel 12345) :: repeat Worker.Timeout 3) = Some st'
    /\ Worker.outbox st' = Worker.outbox busyWorker
    /\ Worker.currentRequestId st' = (-1)%Z.
Proof.
  destruct (cancel_ignores_requestId (M := stubHost) busyWorker 12345) as (_ & _ & H).
  apply H. vm_compute. repeat constructor. discriminate.
Defined.

(** ** Compositor *)

Section RendererFacts.
Context {M : MathHost}.

(** What [render] does to the request counter, the channel and the
    iteration cache. *)
Lemma render_effects (s : Renderer.State) :
  Renderer.currentRequestId (Renderer.render s) = (Renderer.currentRequestId s + 1)%Z
  /\ Renderer.iterationData (Renderer.render s) = Renderer.iterationData s
  /\ exists rq,
       Renderer.posted (Renderer.render s)
       = Renderer.posted s ++ [Cancel (Renderer.currentRequestId s + 1 - 1)%Z; Render rq]
       /\ rq_requestId rq = (Renderer.currentRequestId s + 1)%Z
       /\ quality rq = (if Renderer.isInteracting s then Renderer.lowQuality s
                        else Renderer.highQuality (Renderer.render s)).
Proof.
  unfold Renderer.render. cbv zeta.
  destruct (Renderer.isInteracting s) eqn:E; cbn; rewrite ?E; cbn;
    (split; [reflexivity|]); (split; [reflexivity|]);
    eexists; (split; [rewrite <- app_assoc; reflexivity|]);
    (split; [reflexivity|cbn; rewrite ?E; reflexivity]).
Qed.

Lemma updateMainCanvas_frame (s : Renderer.State) :
  Renderer.posted (Renderer.updateMainCanvas s) = Renderer.posted s
  /\ Renderer.currentRequestId (Renderer.updateMainCanvas s) = Renderer.currentRequestId s
  /\ Renderer.overscanCanvas (Renderer.updateMainCanvas s) = Renderer.overscanCanvas s
  /\ Renderer.overscanViewport (Renderer.updateMainCanvas s) = Renderer.overscanViewport s
  /\ Renderer.viewport (Renderer.updateMainCanvas s) = Renderer.viewport s
  /\ Renderer.iterationData (Renderer.updateMainCanvas s) = Renderer.iterationData s.
Proof.
  unfold Renderer.updateMainCanvas.
  destruct (Renderer.overscanViewport s) eqn:E; cbn; rewrite ?E; repeat split.
Qed.

Lemma saveToBackground_iterationData (s : Renderer.State) :
  Renderer.iterationData (Renderer.saveToBackground s) = Renderer.iterationData s.
Proof. unfold Renderer.saveToBackground. destruct (_ || _); reflexivity. Qed.

(** The handler of tile responses never touches the iteration cache. *)
Lemma onTileResponse_iterationData (resp : TileResponse) (s : Renderer.State) :
  Renderer.iterationData (Renderer.onTileResponse resp s) = Renderer.iterationData s.
Proof.
  unfold Renderer.onTileResponse.
  destruct (negb _); [reflexivity|].
  destruct (_ && _); rewrite ?saveToBackground_iterationData;
    now rewrite (proj2 (proj2 (proj2 (proj2 (proj2 (updateMainCanvas_frame _)))))).
Qed.

Lemma render_iterationData (s : Renderer.State) :
  Renderer.iterationData (Renderer.render s) = Renderer.iterationData s.
Proof. apply render_effects. Qed.

Lemma recolor_iterationData (hue : float) (s : Renderer.State) :
  Renderer.iterationData (Renderer.recolor hue s) = Renderer.iterationData s.
Proof.
  unfold Renderer.recolor.
  destruct (Renderer.iterationData s) eqn:E; [|now rewrite render_iterationData].
  destruct (_ || _); [now rewrite render_iterationData|].
  destruct (_ || _); [exact E|].
  now rewrite (proj2 (proj2 (proj2 (proj2 (proj2 (updateMainCanvas_frame _)))))).
Qed.

(** No operation of the shipped wiring changes the iteration cache. *)
Lemma applyOp_iterationData (o : Op) (s : Renderer.State) :
  Renderer.iterationData (applyOp o s) = Renderer.iterationData s.
Proof.
  destruct o; cbn [applyOp].
  - apply render_iterationData.
  - unfold Renderer.resize. now rewrite render_iterationData.
  - reflexivity.
  - unfold Renderer.endInteraction. now rewrite render_iterationData.
  - unfold Renderer.pan. cbv zeta.
    destruct (Renderer.isInteracting _); [now rewrite render_iterationData|].
    destruct (Renderer.needsRerender _); [now rewrite render_iterationData|].
    now rewrite (proj2 (proj2 (proj2 (proj2 (proj2 (updateMainCanvas_frame _)))))).
  - unfold Renderer.zoom. cbv zeta.
    destruct (_ || _); [reflexivity|]. now rewrite render_iterationData.
  - unfold Renderer.updateParams. cbv zeta.
    destruct (p_colorHue p); [|now rewrite render_iterationData].
    destruct (Nat.eqb _ _); [|now rewrite render_iterationData].
    destruct (Renderer.iterationData (Renderer.set_params _ s)) eqn:E;
      [now rewrite recolor_iterationData|now rewrite render_iterationData].
  - unfold Renderer.setResolution. cbv zeta.
    destruct (negb _); [now rewrite render_iterationData|reflexivity].
  - apply saveToBackground_iterationData.
  - reflexivity.
  - apply onTileResponse_iterationData.
Qed.

Lemma applyOps_iterationData (ops : list Op) : forall s,
  Renderer.iterationData (applyOps ops s) = Renderer.iterationData s.
Proof.
  unfold applyOps. induction ops as [|o ops IH]; intros s; cbn [fold_left]; [reflexivity|].
  now rewrite IH, applyOp_iterationData.
Qed.

(** The colours of [recolor] are those of [computeTile] for the iteration
    limit 64 in interactive mode and 256 otherwise. *)
Lemma recolorPixel_shadePixel (interacting : bool) (hue : float)
    (p : FractalParams) (smoothIter : float) :
  Renderer.recolorPixel interacting hue smoothIter
  = Worker.shadePixel (withHue hue p) (if interacting then 64 else 256) smoothIter.
Proof. destruct interacting; reflexivity. Qed.

(** C3, as amended.  A pan that leaves the zoom within 1% of the zoom of
    the overscan buffer and each coordinate of the centre within 20% of
    the visible scale [4 / zoom] of the buffer's centre: outside
    interactive mode nothing is posted to the worker and the request
    counter stays; the overscan buffer is kept and is cropped onto the
    visible surface.  In interactive mode the same pan cancels and
    renders anew. *)
Theorem pan_within_overscan (s : Renderer.State) (dx dy : float) (ov : Viewport) :
  let v := Renderer.panViewport dx dy s in
  let s' := Renderer.pan dx dy s in
  Renderer.overscanViewport s = Some ov ->
  (abs (zoom v - zoom ov) <=? zoom v * 0.01) = true ->
  (abs (centerX v - centerX ov) <=? 4 / zoom v * 0.2) = true ->
  (abs (centerY v - centerY ov) <=? 4 / zoom v * 0.2) = true ->
  (Renderer.isInteracting s = false ->
     s' = Renderer.updateMainCanvas (Renderer.set_viewport v s)
     /\ Renderer.posted s' = Renderer.posted s
     /\ Renderer.currentRequestId s' = Renderer.currentRequestId s
     /\ Renderer.overscanCanvas s' = Renderer.overscanCanvas s
     /\ Renderer.overscanViewport s' = Renderer.overscanViewport s
     /\ Renderer.viewport s' = v
     /\ exists sx sy w h,
          content (Renderer.canvas s')
          = DrawImageCrop (content (Renderer.overscanCanvas s))
              (width (Renderer.overscanCanvas s)) (height (Renderer.overscanCanvas s))
              sx sy w h 0 0 w h (content (Renderer.canvas s)))
  /\ (Renderer.isInteracting s = true ->
        s' = Renderer.render (Renderer.set_viewport v s)
        /\ Renderer.currentRequestId s' = (Renderer.currentRequestId s + 1)%Z
        /\ exists c rq, Renderer.posted s' = Renderer.posted s ++ [Cancel c; Render rq]).
Proof.
  intros v s' Hov Hz Hx Hy. split; intros Hi.
  - assert (E : s' = Renderer.updateMainCanvas (Renderer.set_viewport v s)).
    { unfold s', Renderer.pan. cbv zeta. fold v.
      change (Renderer.isInteracting (Renderer.set_viewport v s))
        with (Renderer.isInteracting s). rewrite Hi.
      unfold Renderer.needsRerender.
      change (Renderer.overscanViewport (Renderer.set_viewport v s))
        with (Renderer.overscanViewport s). rewrite Hov.
      change (Renderer.viewport (Renderer.set_viewport v s)) with v.
      rewrite (leb_not_gtb _ _ Hz), (leb_not_gtb _ _ Hx), (leb_not_gtb _ _ Hy).
      reflexivity. }
    split; [exact E|]. rewrite E.
    destruct (updateMainCanvas_frame (Renderer.set_viewport v s))
      as (F1 & F2 & F3 & F4 & F5 & _).
    rewrite F1, F2, F3, F4, F5. repeat split.
    unfold Renderer.updateMainCanvas.
    change (Renderer.overscanViewport (Renderer.set_viewport v s))
      with (Renderer.overscanViewport s). rewrite Hov. cbn.
    do 4 eexists. reflexivity.
  - assert (E : s' = Renderer.render (Renderer.set_viewport v s)).
    { unfold s', Renderer.pan. cbv zeta. fold v.
      change (Renderer.isInteracting (Renderer.set_viewport v s))
        with (Renderer.isInteracting s). now rewrite Hi. }
    split; [exact E|]. rewrite E.
    destruct (render_effects (Renderer.set_viewport v s)) as (F1 & _ & rq & F2 & _).
    split; [exact F1|]. now exists (Renderer.currentRequestId s + 1 - 1)%Z, rq.
Qed.

(** C10.  Through the shipped wiring the iteration cache stays empty:
    the worker's responses never carry iteration data, the handler of
    tile responses never stores any, and no operation other than
    [storeIterationData] does; so every [updateParams], also one that
    changes [colorHue] alone, goes through [render], posting a cancel and
    a render request.  Once [storeIterationData] was called from outside,
    such an update goes through [recolor] instead. *)
Theorem iteration_cache_never_populated
    (canvasW canvasH : Z) (initialViewport : Viewport) (initialParams : FractalParams)
    (ops : list Op) (es : list Worker.Event) :
  let s := applyOps ops (Renderer.create canvasW canvasH initialViewport initialParams) in
  (forall w, Worker.run Worker.initial es = Some w ->
     Forall (fun resp => tr_iterationData resp = None) (Worker.outbox w))
  /\ (forall resp s0,
        Renderer.iterationData (Renderer.onTileResponse resp s0) = Renderer.iterationData s0)
  /\ Renderer.iterationData s = None
  /\ (forall p,
        Renderer.updateParams p s
        = Renderer.render (Renderer.set_params (Renderer.mergeParams (Renderer.params s) p) s)
        /\ Renderer.currentRequestId (Renderer.updateParams p s)
           = (Renderer.currentRequestId s + 1)%Z
        /\ exists c rq,
             Renderer.posted (Renderer.updateParams p s)
             = Renderer.posted s ++ [Cancel c; Render rq])
  /\ (forall data hue,
        Renderer.updateParams (onlyHue hue) (Renderer.storeIterationData data s)
        = Renderer.recolor hue
            (Renderer.set_params
               (Renderer.mergeParams (Renderer.params s) (onlyHue hue))
               (Renderer.storeIterationData data s))).
Proof.
  intros s.
  assert (Hnone : Renderer.iterationData s = None)
    by (unfold s; now rewrite applyOps_iterationData).
  split; [|split; [|split; [|split]]].
  - intros w Hrun. destruct (run_no_iterationData es _ _ Hrun) as (new & E & H).
    rewrite E. exact H.
  - apply onTileResponse_iterationData.
  - exact Hnone.
  - intros p.
    assert (E : Renderer.updateParams p s
                = Renderer.render
                    (Renderer.set_params (Renderer.mergeParams (Renderer.params s) p) s)).
    { unfold Renderer.updateParams. cbv zeta.
      change (Renderer.iterationData (Renderer.set_params _ s))
        with (Renderer.iterationData s). rewrite Hnone.
      destruct (p_colorHue p); [destruct (Nat.eqb _ _)|]; reflexivity. }
    split; [exact E|]. rewrite E.
    destruct (render_effects
                (Renderer.set_params (Renderer.mergeParams (Renderer.params s) p) s))
      as (F1 & _ & rq & F2 & _).
    split; [exact F1|]. now exists (Renderer.currentRequestId s + 1 - 1)%Z, rq.
  - intros data hue. reflexivity.
Qed.

End RendererFacts.

(** C3 as stated fails in interactive mode: while the user drags, a pan
    that moves nothing at all still cancels and renders anew. *)
Lemma pan_within_overscan_counterexample :
  Renderer.isInteracting draggingRenderer = true
  /\ Renderer.overscanViewport draggingRenderer = Some unitViewport
  /\ Renderer.panViewport 0 0 draggingRenderer = unitViewport
  /\ Renderer.currentRequestId draggingRenderer = 1%Z
  /\ Renderer.currentRequestId (Renderer.pan (M := stubHost) 0 0 draggingRenderer) = 2%Z
  /\ length (Renderer.posted draggingRenderer) = 2%nat
  /\ skipn 2 (Renderer.posted (Renderer.pan (M := stubHost) 0 0 draggingRenderer))
     = [Cancel 1;
        Render {| canvasWidth := 300; canvasHeight := 150;
                  rq_viewport := unitViewport; rq_params := mandelbrotParams;
                  quality := {| maxIterations := 64; tileSize := 64; tilesPerFrame := 8 |};
                  rq_requestId := 2; storeIterations := Some true |}].
Proof. evaluate. Qed.

(** The amended C3 on the renderer at rest, panned by one pixel each
    way. *)
Lemma pan_within_overscan_witness :
  Renderer.posted (Renderer.pan (M := stubHost) 1 1 restingRenderer)
  = Renderer.posted restingRenderer
  /\ Renderer.currentRequestId (Renderer.pan (M := stubHost) 1 1 restingRenderer)
     = Renderer.currentRequestId restingRenderer.
Proof.
  destruct (pan_within_overscan (M := stubHost) restingRenderer 1 1 unitViewport)
    as (H & _); try (vm_compute; reflexivity).
  destruct H as (_ & H1 & H2 & _); [vm_compute; reflexivity|]. split; assumption.
Defined.

(** C10 after a first render, an interaction and a completed tile. *)
Lemma iteration_cache_never_populated_witness :
  Renderer.iterationData
    (applyOps (M := stubHost)
       [OpRender; OpStartInteraction; OpPan 3 4; OpEndInteraction;
        OpUpdateParams (onlyHue 200)]
       (Renderer.create 200 100 unitViewport mandelbrotParams)) = None.
Proof.
  apply (iteration_cache_never_populated (M := stubHost) 200 100 unitViewport
           mandelbrotParams _ []).
Defined.

(** C1 fails on the code.  On the cached renderer, whose render request
    asked for [maxIterations = 128], changing the hue alone takes the
    fast path, and [recolor] overwrites the whole overscan buffer with
    colours computed for the limit 256: the pixel of a cached value 8
    becomes (23, 142, 150), where [computeTile] gives (24, 92, 159). *)
Theorem recolor_differs_from_recompute :
  let s := cachedRenderer in
  let s' := Renderer.updateParams (M := stubHost) (onlyHue 120) s in
  (exists c rq, Renderer.posted s = [Cancel c; Render rq]
                /\ maxIterations (quality rq) = 128%Z)
  /\ Renderer.isInteracting s = false
  /\ Renderer.iterationData s = Some cachedEights
  /\ Renderer.iterationDataWidth s = width (Renderer.overscanCanvas s)
  /\ Renderer.iterationDataHeight s = height (Renderer.overscanCanvas s)
  /\ Renderer.posted s' = Renderer.posted s
  /\ content (Renderer.overscanCanvas s')
     = PutImageData (Renderer.recolorData false 120 cachedEights 3 3) 3 3 0 0
         (content (Renderer.overscanCanvas s))
  /\ firstn 4 (Renderer.recolorData false 120 cachedEights 3 3) = [23; 142; 150; 255]%Z
  /\ Worker.shadePixel (withHue 120 (Renderer.params s)) 128 8 = [24; 92; 159; 255]%Z
  /\ Worker.shadePixel (withHue 120 (Renderer.params s)) 256 8 = [23; 142; 150; 255]%Z
  /\ firstn 4 (Renderer.recolorData false 120 cachedEights 3 3)
     <> Worker.shadePixel (withHue 120 (Renderer.params s)) 128 8.
Proof.
  cbv zeta. split; [do 2 eexists; split; vm_compute; reflexivity|].
  repeat match goal with |- _ /\ _ => split end;
    try (vm_compute; reflexivity).
  vm_compute. discriminate.
Qed.

(** The same in interactive mode at half resolution: the render asked
    for 32 iterations, [recolor] colours for 64. *)
Lemma interactive_recolor_differs :
  let s := cachedDraggingRenderer in
  let s' := Renderer.updateParams (M := stubHost) (onlyHue 120) s in
  (exists c rq, Renderer.posted s = [Cancel c; Render rq]
                /\ maxIterations (quality rq) = 32%Z)
  /\ Renderer.isInteracting s = true
  /\ content (Renderer.overscanCanvas s')
     = PutImageData (Renderer.recolorData true 120 cachedEights 3 3) 3 3 0 0
         (content (Renderer.overscanCanvas s))
  /\ firstn 4 (Renderer.recolorData true 120 cachedEights 3 3) = [44; 26; 173; 255]%Z
  /\ Worker.shadePixel (withHue 120 (Renderer.params s)) 32 8 = [191; 29; 191; 255]%Z.
Proof.
  cbv zeta. split; [do 2 eexists; split; vm_compute; reflexivity|]. evaluate.
Qed.

(** * Further properties of the worker *)

(** ** The pixel buffer of a tile *)

Lemma flat_map_chunks {A B : Type} (f : A -> list B) (k : nat) (l : list A) :
  (forall a, length (f a) = k) ->
  forall i, skipn (k * i) (flat_map f l) = flat_map f (skipn i l).
Proof.
  intros Hk. induction l as [|a l IH]; intros i.
  - now rewrite !skipn_nil.
  - destruct i as [|i]; [now rewrite Nat.mul_0_r|].
    cbn [flat_map skipn]. replace (k * S i)%nat with (length (f a) + k * i)%nat
      by (rewrite Hk; lia).
    rewrite skipn_app, skipn_all2 by lia.
    replace (length (f a) + k * i - length (f a))%nat with (k * i)%nat by lia.
    cbn [app]. apply IH.
Qed.

Lemma flat_map_length_chunks {A B : Type} (f : A -> list B) (k : nat) (l : list A) :
  (forall a, length (f a) = k) -> length (flat_map f l) = (k * length l)%nat.
Proof.
  intros Hk. induction l as [|a l IH]; cbn [flat_map length]; [lia|].
  rewrite length_app, IH, Hk. lia.
Qed.

Lemma zrange_skipn (lo hi : Z) (i : nat) :
  skipn i (zrange lo hi) = zrange (lo + Z.of_nat i) hi.
Proof.
  revert lo. induction i as [|i IH]; intros lo.
  - cbn [skipn]. f_equal. lia.
  - destruct (Z.lt_ge_cases lo hi) as [H|H].
    + rewrite (zrange_cons lo hi H). cbn [skipn]. rewrite IH. f_equal. lia.
    + rewrite !zrange_nil by lia. reflexivity.
Qed.

Lemma toUint8Clamp_range (x : float) : (0 <= JS.toUint8Clamp x <= 255)%Z.
Proof.
  unfold JS.toUint8Clamp.
  destruct (Prim2SF x) as [s|s| |s m e]; try (destruct s); try lia.
  destruct (0 <=? e)%Z eqn:E.
  - apply Z.leb_le in E. pose proof (Z.pow_nonneg 2 e). nia.
  - apply Z.leb_gt in E.
    assert (P : (0 < 2 ^ (- e))%Z) by (apply Z.pow_pos_nonneg; lia).
    pose proof (Z.div_pos (Zpos m) (2 ^ (- e)) ltac:(lia) P).
    destruct (_ ?= _)%Z; [destruct (Z.even _)| |]; lia.
Qed.

(** A pixel is three colour bytes and an opaque alpha. *)
Lemma shadePixel_bytes (params : FractalParams) (maxIterations : Z) (smoothIter : float) :
  exists r g b,
    Worker.shadePixel params maxIterations smoothIter = [r; g; b; 255%Z]
    /\ (0 <= r <= 255)%Z /\ (0 <= g <= 255)%Z /\ (0 <= b <= 255)%Z.
Proof.
  unfold Worker.shadePixel. destruct (smoothIter <? 0).
  - exists 0%Z, 0%Z, 0%Z. repeat split; lia.
  - destruct (Worker.hsvToRgb _ _ _) as [[r g] b].
    exists (JS.toUint8Clamp r), (JS.toUint8Clamp g), (JS.toUint8Clamp b).
    split; [reflexivity|]. repeat split; apply toUint8Clamp_range.
Qed.

Lemma shadePixel_length (params : FractalParams) (maxIterations : Z) (smoothIter : float) :
  length (Worker.shadePixel params maxIterations smoothIter) = 4%nat.
Proof.
  destruct (shadePixel_bytes params maxIterations smoothIter) as (r & g & b & -> & _).
  reflexivity.
Qed.

Section TileBufferFacts.
Context {M : MathHost}.

Lemma computeTile_pixel
    (tileX tileY tileWidth tileHeight canvasW canvasH : Z)
    (viewport : Viewport) (params : FractalParams) (maxIter : Z) (px py : Z) :
  (0 <= px < tileWidth)%Z -> (0 <= py < tileHeight)%Z ->
  tilePixel (Worker.computeTile tileX tileY tileWidth tileHeight canvasW canvasH
               viewport params maxIter) px py
  = let '(x0, y0) := pixelToPlane canvasW canvasH viewport (tileX + px) (tileY + py) in
    Worker.shadePixel params maxIter
      (Worker.computePixel x0 y0 params maxIter (isJuliaSet params)).
Proof.
  intros Hpx Hpy. unfold tilePixel, Worker.computeTile. cbn [imageData tile_width].
  fold (isJuliaSet params).
  set (pix := fun py px : Z =>
    Worker.shadePixel params maxIter
      (Worker.computePixel
         (centerX viewport +
          (JS.ofZ (tileX + px) / JS.ofZ canvasW - 0.5) * (4 / zoom viewport) *
          (JS.ofZ canvasW / JS.ofZ canvasH))
         (centerY viewport -
          (JS.ofZ (tileY + py) / JS.ofZ canvasH - 0.5) * (4 / zoom viewport))
         params maxIter (isJuliaSet params))).
  set (row := fun py : Z => flat_map (pix py) (zrange 0 tileWidth)).
  change (firstn 4 (skipn (Z.to_nat ((py * tileWidth + px) * 4))
                      (flat_map row (zrange 0 tileHeight)))
          = pix py px).
  assert (Hpix : forall y x, length (pix y x) = 4%nat)
    by (intros; apply shadePixel_length).
  assert (Hrow : forall y, length (row y) = (4 * Z.to_nat tileWidth)%nat).
  { intros y. unfold row. rewrite (flat_map_length_chunks _ 4) by apply Hpix.
    now rewrite zrange_length, Z.sub_0_r. }
  replace (Z.to_nat ((py * tileWidth + px) * 4))
    with (4 * Z.to_nat px + (4 * Z.to_nat tileWidth) * Z.to_nat py)%nat by nia.
  rewrite <- skipn_skipn.
  rewrite (flat_map_chunks row (4 * Z.to_nat tileWidth)) by exact Hrow.
  rewrite zrange_skipn, zrange_cons by lia. cbn [flat_map].
  rewrite skipn_app.
  replace (4 * Z.to_nat px - length (row (0 + Z.of_nat (Z.to_nat py))%Z))%nat with 0%nat
    by (rewrite Hrow; lia).
  cbn [skipn]. unfold row at 1.
  rewrite (flat_map_chunks _ 4) by apply Hpix.
  rewrite zrange_skipn, zrange_cons by lia. cbn [flat_map].
  rewrite <- !app_assoc, firstn_app, firstn_all2 by (rewrite Hpix; lia).
  rewrite Hpix. cbn [Nat.sub firstn]. rewrite app_nil_r.
  f_equal; lia.
Qed.

(** X1.  The buffer of a tile is row-major: the four bytes at
    [(py * width + px) * 4] are the shade of [computePixel] at the plane
    point of the screen pixel [(tileX + px, tileY + py)], the mode being
    resolved once for the tile. *)
Theorem tile_pixel_layout
    (tileX tileY tileWidth tileHeight canvasW canvasH : Z)
    (viewport : Viewport) (params : FractalParams) (maxIter : Z) (px py : Z) :
  (0 <= px < tileWidth)%Z -> (0 <= py < tileHeight)%Z ->
  tilePixel (Worker.computeTile tileX tileY tileWidth tileHeight canvasW canvasH
               viewport params maxIter) px py
  = let '(x0, y0) := pixelToPlane canvasW canvasH viewport (tileX + px) (tileY + py) in
    Worker.shadePixel params maxIter
      (Worker.computePixel x0 y0 params maxIter (isJuliaSet params)).
Proof.
  apply computeTile_pixel.
Qed.

(** X2.  The buffer of a tile with pixels holds [4 * width * height]
    bytes, each in [0 .. 255], and the alpha byte of every pixel is 255:
    the image is opaque whatever the parameters. *)
Theorem tile_buffer_bytes
    (tileX tileY tileWidth tileHeight canvasW canvasH : Z)
    (viewport : Viewport) (params : FractalParams) (maxIter : Z) :
  (0 < tileWidth)%Z -> (0 < tileHeight)%Z ->
  let t := Worker.computeTile tileX tileY tileWidth tileHeight canvasW canvasH
             viewport params maxIter in
  length (imageData t) = (4 * Z.to_nat tileWidth * Z.to_nat tileHeight)%nat
  /\ Forall (fun b => (0 <= b <= 255)%Z) (imageData t)
  /\ (forall px py, (0 <= px < tileWidth)%Z -> (0 <= py < tileHeight)%Z ->
        nth_error (tilePixel t px py) 3 = Some 255%Z).
Proof.
  intros _ _ t. split; [|split].
  - unfold t, Worker.computeTile. cbn [imageData].
    rewrite (flat_map_length_chunks _ (4 * Z.to_nat tileWidth)).
    + rewrite zrange_length. lia.
    + intros y. rewrite (flat_map_length_chunks _ 4).
      * rewrite zrange_length. lia.
      * intros x. apply shadePixel_length.
  - unfold t, Worker.computeTile. cbn [imageData].
    apply Forall_flat_map, Forall_forall. intros y _.
    apply Forall_flat_map, Forall_forall. intros x _.
    match goal with |- Forall _ (Worker.shadePixel ?p ?m ?v) =>
      destruct (shadePixel_bytes p m v) as (r & g & b & -> & Hr & Hg & Hb) end.
    repeat constructor; lia.
  - intros px py Hpx Hpy. unfold t. rewrite computeTile_pixel by assumption.
    destruct (pixelToPlane _ _ _ _ _) as [x0 y0].
    match goal with |- nth_error (Worker.shadePixel ?p ?m ?v) _ = _ =>
      destruct (shadePixel_bytes p m v) as (r & g & b & -> & _) end.
    reflexivity.
Qed.

(** X3.  With an iteration limit of zero or less every point is reported
    inside, and every pixel of every tile is opaque black. *)
Theorem no_iterations_all_black
    (tileX tileY tileWidth tileHeight canvasW canvasH : Z)
    (viewport : Viewport) (params : FractalParams) (maxIter : Z) :
  (maxIter <= 0)%Z ->
  (forall x0 y0 useJulia, Worker.computePixel x0 y0 params maxIter useJulia = -1)
  /\ (forall px py, (0 <= px < tileWidth)%Z -> (0 <= py < tileHeight)%Z ->
        tilePixel (Worker.computeTile tileX tileY tileWidth tileHeight canvasW canvasH
                     viewport params maxIter) px py
        = [0; 0; 0; 255]%Z).
Proof.
  intros Hm.
  assert (H : forall x0 y0 useJulia,
            Worker.computePixel x0 y0 params maxIter useJulia = -1).
  { intros x0 y0 useJulia. unfold Worker.computePixel, Worker.computePixelRun.
    destruct (negb useJulia && _); [reflexivity|].
    replace (Z.to_nat maxIter) with 0%nat by lia. reflexivity. }
  split; [exact H|].
  intros px py Hpx Hpy. rewrite computeTile_pixel by assumption.
  destruct (pixelToPlane _ _ _ _ _) as [x0 y0]. rewrite H. reflexivity.
Qed.

End TileBufferFacts.

(** X1 at pixel (1, 0) of the lower-right tile of a 4 x 4 canvas. *)
Lemma tile_pixel_layout_witness :
  tilePixel (Worker.computeTile (M := stubHost) 2 2 2 2 4 4 unitViewport mandelbrotParams 8) 1 0
  = let '(x0, y0) := pixelToPlane 4 4 unitViewport (2 + 1) (2 + 0) in
    Worker.shadePixel mandelbrotParams 8
      (Worker.computePixel (M := stubHost) x0 y0 mandelbrotParams 8
         (isJuliaSet mandelbrotParams)).
Proof.
  apply (tile_pixel_layout (M := stubHost) 2 2 2 2 4 4 unitViewport mandelbrotParams 8 1 0); lia.
Defined.

(** X2 on a clipped 3 x 2 tile. *)
Lemma tile_buffer_bytes_witness :
  length (imageData (Worker.computeTile (M := stubHost) 0 0 3 2 4 4
                       unitViewport mandelbrotParams 8)) = 24%nat
  /\ nth_error
       (tilePixel (Worker.computeTile (M := stubHost) 0 0 3 2 4 4
                     unitViewport mandelbrotParams 8) 2 1) 3
     = Some 255%Z.
Proof.
  destruct (tile_buffer_bytes (M := stubHost) 0 0 3 2 4 4 unitViewport mandelbrotParams 8)
    as (H1 & _ & H3); [lia | lia |].
  split; [exact H1 | apply H3; lia].
Defined.

(** X3 with an iteration limit of zero. *)
Lemma no_iterations_all_black_witness :
  tilePixel (Worker.computeTile (M := stubHost) 0 0 2 2 4 4 unitViewport juliaParams 0) 1 1
  = [0; 0; 0; 255]%Z.
Proof.
  apply (no_iterations_all_black (M := stubHost) 0 0 2 2 4 4 unitViewport juliaParams 0);
    lia.
Defined.

(** ** The schedule and the batches *)

Lemma dist2_zero (cx cy : Z) (t : Z * Z) :
  Worker.dist2 cx cy t = 0%Z -> t = (cx, cy).
Proof.
  destruct t as [tx ty]. unfold Worker.dist2. cbn [fst snd]. rewrite !Z.pow_2_r.
  intros H.
  pose proof (Z.square_nonneg (tx - cx)) as Hx.
  pose proof (Z.square_nonneg (ty - cy)) as Hy.
  assert (Ex : ((tx - cx) * (tx - cx) = 0)%Z) by lia.
  assert (Ey : ((ty - cy) * (ty - cy) = 0)%Z) by lia.
  apply Z.mul_eq_0 in Ex, Ey. f_equal; lia.
Qed.

(** X4.  Whatever the size of a non-empty grid, the centre tile
    [(floor(tilesX/2), floor(tilesY/2))] heads the schedule; every other
    tile is strictly farther from the centre. *)
Theorem centre_tile_first (w h ts : Z) :
  let nx := Worker.tilesX w ts in
  let ny := Worker.tilesY h ts in
  (0 < nx)%Z -> (0 < ny)%Z ->
  exists rest,
    Worker.sortedTiles w h ts = ((nx / 2)%Z, (ny / 2)%Z) :: rest
    /\ Forall (fun t => (0 < Worker.dist2 (nx / 2) (ny / 2) t)%Z) rest.
Proof.
  intros nx ny Hx Hy.
  assert (Hc : In ((nx / 2)%Z, (ny / 2)%Z) (Worker.sortedTiles w h ts)).
  { apply sortedTiles_In. cbn [fst snd]. fold nx ny.
    pose proof (Z.div_pos nx 2). pose proof (Z.div_lt nx 2).
    pose proof (Z.div_pos ny 2). pose proof (Z.div_lt ny 2). lia. }
  assert (Hs : StronglySorted
                 (fun a b => (Worker.dist2 (nx / 2) (ny / 2) a
                              <= Worker.dist2 (nx / 2) (ny / 2) b)%Z)
                 (Worker.sortedTiles w h ts))
    by apply (Array_sort_sorted (Worker.dist2 (nx / 2) (ny / 2))).
  assert (Hd : NoDup (Worker.sortedTiles w h ts)).
  { eapply Permutation_NoDup; [symmetry; apply sortedTiles_perm|apply generateTiles_NoDup]. }
  destruct (Worker.sortedTiles w h ts) as [|t rest]; [destruct Hc|].
  inversion Hs as [|? ? Hs' Ht]; subst. inversion Hd as [|? ? Hn Hd']; subst.
  assert (Et : t = ((nx / 2)%Z, (ny / 2)%Z)).
  { destruct Hc as [Hc|Hc]; [exact Hc|]. apply dist2_zero.
    rewrite Forall_forall in Ht. specialize (Ht _ Hc).
    pose proof (dist2_nonneg (nx / 2) (ny / 2) t).
    change (Worker.dist2 (nx / 2) (ny / 2) ((nx / 2)%Z, (ny / 2)%Z))
      with ((nx / 2 - nx / 2) ^ 2 + (ny / 2 - ny / 2) ^ 2)%Z in Ht.
    rewrite !Z.sub_diag in Ht. cbn in Ht. lia. }
  subst t. exists rest. split; [reflexivity|].
  apply Forall_forall. intros t Hin.
  pose proof (dist2_nonneg (nx / 2) (ny / 2) t).
  destruct (Z.eq_dec (Worker.dist2 (nx / 2) (ny / 2) t) 0) as [E|E]; [|lia].
  apply dist2_zero in E. subst t. contradiction.
Qed.

(** X4 on the 300 x 150 canvas with tiles of 64: the grid is 5 x 3 and
    starts at cell (2, 1). *)
Lemma centre_tile_first_witness :
  exists rest, Worker.sortedTiles 300 150 64 = (2%Z, 1%Z) :: rest.
Proof.
  destruct (centre_tile_first 300 150 64) as (rest & E & _); try (vm_compute; reflexivity).
  exists rest. exact E.
Defined.

Lemma generateTiles_empty (nx ny : Z) :
  (nx <= 0)%Z \/ (ny <= 0)%Z -> Worker.generateTiles nx ny = [].
Proof.
  intros H. destruct (Worker.generateTiles nx ny) as [|t l] eqn:E; [reflexivity|].
  assert (Hin : In t (Worker.generateTiles nx ny)) by (rewrite E; now left).
  apply generateTiles_In in Hin. lia.
Qed.

Lemma ceilDiv_nonpos (a b : Z) : (a <= 0)%Z -> (0 < b)%Z -> (ceilDiv a b <= 0)%Z.
Proof. intros Ha Hb. pose proof (ceilDiv_bounds a b Hb). nia. Qed.

Section BatchFacts.
Context {M : MathHost}.

(** X5.  A render request for a canvas without pixels, whatever its tile
    size above zero and its batch size from zero up, only installs its id:
    nothing is emitted, not even a completion, and nothing is scheduled. *)
Theorem empty_canvas_emits_nothing (st : Worker.WState) (r : RenderRequest) :
  (canvasWidth r <= 0)%Z \/ (canvasHeight r <= 0)%Z ->
  (0 < tileSize (quality r))%Z ->
  (0 <= tilesPerFrame (quality r))%Z ->
  Worker.sortedTiles (canvasWidth r) (canvasHeight r) (tileSize (quality r)) = []
  /\ exists st', Worker.onmessage st (Render r) = Some st'
       /\ Worker.currentRequestId st' = rq_requestId r
       /\ Worker.outbox st' = Worker.outbox st
       /\ Worker.timers st' = Worker.timers st.
Proof.
  intros Hdim Hts Htpf.
  assert (E : Worker.sortedTiles (canvasWidth r) (canvasHeight r) (tileSize (quality r)) = []).
  { unfold Worker.sortedTiles. rewrite generateTiles_empty; [reflexivity|].
    unfold Worker.tilesX, Worker.tilesY.
    destruct Hdim; [left|right]; now apply ceilDiv_nonpos. }
  split; [exact E|].
  cbn [Worker.onmessage]. rewrite handleRenderRequest_eq.
  destruct (Z.eqb_spec (tileSize (quality r)) 0) as [?|_]; [lia|]. cbn [andb].
  eexists. split; [reflexivity|].
  destruct (processBatch_active r
              {| Worker.currentRequestId := rq_requestId r;
                 Worker.timers := Worker.timers st;
                 Worker.outbox := Worker.outbox st |} 0 eq_refl ltac:(lia))
    as (H1 & H2 & H3).
  rewrite E in H2, H3. cbn [length] in H2, H3.
  change (Z.of_nat 0) with 0%Z in *.
  replace (Z.min (0 + tilesPerFrame (quality r)) 0) with 0%Z in * by lia.
  cbn in H2, H3. rewrite app_nil_r in H2, H3.
  repeat split; assumption.
Qed.

(** X6.  With a batch size of zero or less and a grid that is not empty
    the worker never emits a tile of the request: every timer tick finds
    a batch pending and leaves one pending. *)
Theorem nonpositive_batch_never_emits (st : Worker.WState) (r : RenderRequest) (m : nat) :
  (tilesPerFrame (quality r) <= 0)%Z ->
  tileSize (quality r) <> 0%Z ->
  Worker.sortedTiles (canvasWidth r) (canvasHeight r) (tileSize (quality r)) <> [] ->
  Forall (fun j => rq_requestId (Worker.request j) <> rq_requestId r) (Worker.timers st) ->
  exists st',
    Worker.run st (Worker.Message (Render r) :: repeat Worker.Timeout m) = Some st'
    /\ Worker.outbox st' = Worker.outbox st
    /\ Worker.timers st' <> [].
Proof.
  intros Htpf Hts Hne Hst.
  assert (Hok : (tileSize (quality r) =? 0)%Z && (0 <? canvasHeight r)%Z = false)
    by (destruct (Z.eqb_spec (tileSize (quality r)) 0); [contradiction|reflexivity]).
  destruct (uncancelled_start st r Hst Hok) as (s1 & E1 & H1).
  destruct (uncancelled_run_any r _ m _ _ _ H1) as (s' & stale' & E' & H').
  exists s'. cbn [Worker.run Worker.step]. rewrite E1. split; [exact E'|].
  destruct H' as (_ & _ & count & _ & Hout & _ & Hn & Ht).
  rewrite (Hn Htpf) in *. cbn [firstn responsesFrom] in Hout. rewrite app_nil_r in Hout.
  split; [exact Hout|].
  destruct Ht as [[_ Hlen]|(index & Ht & _)].
  - destruct (Worker.sortedTiles _ _ _); [contradiction|discriminate].
  - rewrite Ht. intros K. destruct (app_cons_not_nil _ _ _ (eq_sym K)).
Qed.

Lemma batchLoop_count (indices : list Z) : forall st j b st' j',
  Worker.batchLoop indices st j = (b, st', j') ->
  exists new, Worker.outbox st' = Worker.outbox st ++ new
              /\ (length new <= length indices)%nat.
Proof.
  induction indices as [|i rest IH]; intros st j b st' j'; cbn [Worker.batchLoop].
  - intros [= <- <- <-]. exists []. rewrite app_nil_r. split; [reflexivity|cbn; lia].
  - destruct (negb _);
      [intros [= <- <- <-]; exists []; rewrite app_nil_r; split; [reflexivity|cbn; lia]|].
    destruct (i <? 0)%Z;
      [intros [= <- <- <-]; exists []; rewrite app_nil_r; split; [reflexivity|cbn; lia]|].
    destruct (nth_error _ _) as [t|];
      [|intros [= <- <- <-]; exists []; rewrite app_nil_r; split; [reflexivity|cbn; lia]].
    destruct (Worker.emitTile st j t) as [st1 j1] eqn:Ee.
    apply emitTile_spec in Ee as (_ & _ & E3 & _).
    intros H. apply IH in H as (new & F1 & F2).
    eexists. rewrite F1, E3, <- app_assoc. split; [reflexivity|].
    rewrite length_app, responsesFrom_length. cbn [length]. lia.
Qed.

Lemma processBatch_count (st : Worker.WState) (j : Worker.Job) :
  exists new,
    Worker.outbox (Worker.processBatch st j) = Worker.outbox st ++ new
    /\ (length new <= Z.to_nat (tilesPerFrame (quality (Worker.request j))))%nat.
Proof.
  unfold Worker.processBatch.
  destruct (negb _); [exists []; rewrite app_nil_r; split; [reflexivity|cbn; lia]|].
  destruct (Worker.batchLoop _ st j) as [[b st'] j'] eqn:Eb.
  apply batchLoop_count in Eb as (new & F1 & F2).
  rewrite zrange_length in F2.
  exists new. split; [|lia].
  destruct b; cbn [negb]; [destruct (_ && _)|]; cbn; exact F1.
Qed.

(** X7.  One task of the worker (a message or a timer callback) posts at
    most [tilesPerFrame] responses, [tilesPerFrame] being the batch size of
    the request the task works for. *)
Theorem task_emits_at_most_one_batch (st st' : Worker.WState) (e : Worker.Event) :
  Worker.step st e = Some st' ->
  exists new, Worker.outbox st' = Worker.outbox st ++ new
              /\ (length new <= stepBound st e)%nat.
Proof.
  destruct e as [[r|c]|]; cbn [Worker.step Worker.onmessage stepBound].
  - unfold Worker.handleRenderRequest.
    destruct (_ =? 0)%Z; [destruct (0 <? _)%Z; [discriminate|]|];
      intros [= <-];
      match goal with |- context [Worker.processBatch ?s ?j] =>
        destruct (processBatch_count s j) as (new & F1 & F2) end;
      exists new; split; assumption.
  - intros [= <-]. exists []. rewrite app_nil_r. split; [reflexivity|cbn; lia].
  - destruct (Worker.timers st) as [|j rest].
    + intros [= <-]. exists []. rewrite app_nil_r. split; [reflexivity|cbn; lia].
    + intros [= <-].
      match goal with |- context [Worker.processBatch ?s ?j] =>
        destruct (processBatch_count s j) as (new & F1 & F2) end.
      exists new. split; assumption.
Qed.

(** X8.  A render request supersedes the one before: once the worker has
    received a request with another id, it emits no response with the old
    id [R] any more (for [R] other than [-1], and as long as no later
    request carries [R] again). *)
Theorem newer_request_supersedes
    (st st' : Worker.WState) (R : Z) (r : RenderRequest) (es : list Worker.Event) :
  rq_requestId r <> R ->
  R <> (-1)%Z ->
  (forall r', In (Worker.Message (Render r')) es -> rq_requestId r' <> R) ->
  Worker.run st (Worker.Message (Render r) :: es) = Some st' ->
  exists new, Worker.outbox st' = Worker.outbox st ++ new
              /\ Forall (fun x => tr_requestId x <> R) new.
Proof.
  intros Hr HR Hes. cbn [Worker.run].
  destruct (Worker.step st (Worker.Message (Render r))) as [st1|] eqn:E; [|discriminate].
  intros Hrun. apply step_ids in E as ((new1 & F1 & F2) & F3).
  apply (run_fenced R) in Hrun as (_ & new2 & G1 & G2); try assumption; [|congruence].
  exists (new1 ++ new2). rewrite G1, F1, <- app_assoc. split; [reflexivity|].
  apply Forall_app. split; [|exact G2].
  eapply Forall_impl; [|exact F2]. cbn. intros x [-> _]. congruence.
Qed.

End BatchFacts.

(** X5 for a canvas of width zero. *)
Lemma empty_canvas_emits_nothing_witness :
  exists st',
    Worker.onmessage (M := stubHost) Worker.initial
      (Render {| canvasWidth := 0; canvasHeight := 150;
                 rq_viewport := unitViewport; rq_params := mandelbrotParams;
                 quality := {| maxIterations := 64; tileSize := 64; tilesPerFrame := 8 |};
                 rq_requestId := 1; storeIterations := Some true |}) = Some st'
    /\ Worker.outbox st' = [] /\ Worker.timers st' = [].
Proof.
  match goal with |- exists st', Worker.onmessage ?st (Render ?r) = _ /\ _ =>
    destruct (empty_canvas_emits_nothing (M := stubHost) st r) as (_ & st' & E & _ & H1 & H2) end;
    try (cbn; lia).
  exists st'. repeat split; assumption.
Defined.

(** X6 on [smallRequest] with a batch size of zero. *)
Lemma nonpositive_batch_never_emits_witness :
  exists st',
    Worker.run (M := stubHost) Worker.initial
      (Worker.Message
         (Render {| canvasWidth := 2; canvasHeight := 2;
                    rq_viewport := unitViewport; rq_params := mandelbrotParams;
                    quality := {| maxIterations := 4; tileSize := 1; tilesPerFrame := 0 |};
                    rq_requestId := 7; storeIterations := Some true |})
       :: repeat Worker.Timeout 5) = Some st'
    /\ Worker.outbox st' = []
    /\ Worker.timers st' <> [].
Proof.
  match goal with |- exists st', Worker.run ?st (Worker.Message (Render ?r) :: _) = _ /\ _ =>
    apply (nonpositive_batch_never_emits (M := stubHost) st r 5) end.
  - cbn; lia.
  - cbn; lia.
  - vm_compute. discriminate.
  - constructor.
Defined.

(** X7 on the first task of [smallRequest]: three responses, the batch
    size. *)
Lemma task_emits_at_most_one_batch_witness :
  exists new, Worker.outbox busyWorker = Worker.outbox Worker.initial ++ new
              /\ (length new <= 3)%nat.
Proof.
  apply (task_emits_at_most_one_batch (M := stubHost) Worker.initial busyWorker
           (Worker.Message (Render smallRequest))).
  vm_compute. reflexivity.
Defined.

(** X8 on the busy worker, superseded by [clippedRequest]. *)
Lemma newer_request_supersedes_witness :
  exists st' new,
    Worker.run (M := stubHost) busyWorker
      (Worker.Message (Render clippedRequest) :: [Worker.Timeout; Worker.Timeout]) = Some st'
    /\ Worker.outbox st' = Worker.outbox busyWorker ++ new
    /\ Forall (fun x => tr_requestId x <> 7%Z) new.
Proof.
  destruct (Worker.run (M := stubHost) busyWorker
              (Worker.Message (Render clippedRequest) :: [Worker.Timeout; Worker.Timeout]))
    as [st'|] eqn:E; [|vm_compute in E; discriminate E].
  destruct (newer_request_supersedes (M := stubHost) busyWorker st' 7 clippedRequest
              [Worker.Timeout; Worker.Timeout]) as (new & H1 & H2).
  - cbn; lia.
  - lia.
  - intros r' [H|[H|[]]]; discriminate H.
  - exact E.
  - exists st', new. repeat split; assumption.
Defined.

Section ProvenanceFacts.
Context {M : MathHost}.

Lemma processBatch_provenance (st : Worker.WState) (j : Worker.Job) :
  (exists new, Worker.outbox (Worker.processBatch st j) = Worker.outbox st ++ new
     /\ Forall (fun x => tr_requestId x = rq_requestId (Worker.request j)) new)
  /\ (exists more, Worker.timers (Worker.processBatch st j) = Worker.timers st ++ more
        /\ Forall (fun j' => Worker.request j' = Worker.request j) more).
Proof.
  unfold Worker.processBatch.
  destruct (negb _).
  { split; exists []; rewrite app_nil_r; split; (reflexivity || constructor). }
  destruct (Worker.batchLoop _ st j) as [[b st'] j'] eqn:Eb.
  apply batchLoop_ids in Eb as (F1 & F2 & F3 & new & F4 & F5).
  assert (G : Forall (fun x => tr_requestId x = rq_requestId (Worker.request j)) new)
    by (eapply Forall_impl; [|exact F5]; cbn; now intros x [? _]).
  destruct b; cbn [negb]; [destruct (_ && _)|]; cbn.
  - split; [now exists new|]. eexists. rewrite F2. split; [reflexivity|].
    constructor; [exact F3|constructor].
  - split; [now exists new|]. exists []. rewrite app_nil_r, F2. split; [reflexivity|constructor].
  - split; [now exists new|]. exists []. rewrite app_nil_r, F2. split; [reflexivity|constructor].
Qed.

Lemma step_provenance (ids : Z -> Prop) (st st' : Worker.WState) (e : Worker.Event) :
  (forall r, e = Worker.Message (Render r) -> ids (rq_requestId r)) ->
  Forall (fun j => ids (rq_requestId (Worker.request j))) (Worker.timers st) ->
  Forall (fun x => ids (tr_requestId x)) (Worker.outbox st) ->
  Worker.step st e = Some st' ->
  Forall (fun j => ids (rq_requestId (Worker.request j))) (Worker.timers st')
  /\ Forall (fun x => ids (tr_requestId x)) (Worker.outbox st').
Proof.
  intros He Ht Ho.
  assert (P : forall s j, ids (rq_requestId (Worker.request j)) ->
            Forall (fun j => ids (rq_requestId (Worker.request j))) (Worker.timers s) ->
            Forall (fun x => ids (tr_requestId x)) (Worker.outbox s) ->
            Forall (fun j => ids (rq_requestId (Worker.request j)))
              (Worker.timers (Worker.processBatch s j))
            /\ Forall (fun x => ids (tr_requestId x))
                 (Worker.outbox (Worker.processBatch s j))).
  { intros s j Hj Hts Hos.
    destruct (processBatch_provenance s j) as ((new & E1 & F1) & (more & E2 & F2)).
    rewrite E1, E2. split; apply Forall_app; (split; [assumption|]).
    - eapply Forall_impl; [|exact F2]. cbn. now intros j' ->.
    - eapply Forall_impl; [|exact F1]. cbn. now intros x ->. }
  destruct e as [[r|c]|]; cbn [Worker.step Worker.onmessage].
  - unfold Worker.handleRenderRequest.
    destruct (_ =? 0)%Z; [destruct (0 <? _)%Z; [discriminate|]|];
      intros [= <-]; apply P; cbn; try assumption; now apply He.
  - intros [= <-]. cbn. split; assumption.
  - destruct (Worker.timers st) as [|j rest] eqn:E.
    + intros [= <-]. rewrite E. split; [constructor|assumption].
    + intros [= <-]. inversion Ht; subst. apply P; cbn; assumption.
Qed.

(** X9.  The worker never emits a response for a request id it has not
    received: every response in the outbox carries the id of a render
    request among the messages delivered so far. *)
Theorem responses_carry_received_ids (es : list Worker.Event) (st' : Worker.WState) :
  Worker.run Worker.initial es = Some st' ->
  Forall (fun x => exists r, In (Worker.Message (Render r)) es
                             /\ tr_requestId x = rq_requestId r)
    (Worker.outbox st').
Proof.
  set (ids := fun z => exists r, In (Worker.Message (Render r)) es /\ z = rq_requestId r).
  assert (G : forall es' st,
            (forall r, In (Worker.Message (Render r)) es' -> ids (rq_requestId r)) ->
            Forall (fun j => ids (rq_requestId (Worker.request j))) (Worker.timers st) ->
            Forall (fun x => ids (tr_requestId x)) (Worker.outbox st) ->
            Worker.run st es' = Some st' ->
            Forall (fun x => ids (tr_requestId x)) (Worker.outbox st')).
  { induction es' as [|e es' IH]; intros st Hes Ht Ho; cbn [Worker.run].
    - now intros [= <-].
    - destruct (Worker.step st e) as [st1|] eqn:E; [|discriminate].
      intros Hrun.
      destruct (step_provenance ids st st1 e) as (Ht1 & Ho1); try assumption.
      { intros r ->. apply Hes. now left. }
      apply (IH st1); try assumption. intros r Hr. apply Hes. now right. }
  intros Hrun. apply (G es Worker.initial); try assumption; try constructor.
  intros r Hr. now exists r.
Qed.

End ProvenanceFacts.

(** X9 on the busy worker's history. *)
Lemma responses_carry_received_ids_witness :
  Forall (fun x => exists r, In (Worker.Message (Render r))
                               [Worker.Message (Render smallRequest)]
                             /\ tr_requestId x = rq_requestId r)
    (Worker.outbox busyWorker).
Proof.
  apply (responses_carry_received_ids (M := stubHost)). vm_compute. reflexivity.
Defined.

Section BatchingFacts.
Context {M : MathHost}.
Variable r : RenderRequest.

Local Abbreviation ts := (tileSize (quality r)).
Local Abbreviation tpf := (tilesPerFrame (quality r)).
Local Abbreviation schedule := (Worker.sortedTiles (canvasWidth r) (canvasHeight r) ts).
Local Abbreviation total :=
  (Worker.tilesX (canvasWidth r) ts * Worker.tilesY (canvasHeight r) ts)%Z.

Lemma run_batches (st : Worker.WState) (k : nat) :
  Worker.timers st = [] ->
  (0 < tpf)%Z -> ts <> 0%Z ->
  let count := Nat.min (length schedule) (S k * Z.to_nat tpf) in
  exists st',
    Worker.run st (Worker.Message (Render r) :: repeat Worker.Timeout k) = Some st'
    /\ Worker.outbox st' = Worker.outbox st ++ responsesFrom r total 0 (firstn count schedule)
    /\ Worker.timers st'
       = (if (count <? length schedule)%nat then [jobAt r count (Z.of_nat count)] else [])
    /\ Worker.currentRequestId st' = rq_requestId r.
Proof.
  intros Hidle Htpf Hts. cbv zeta.
  assert (Hok : (ts =? 0)%Z && (0 <? canvasHeight r)%Z = false)
    by (destruct (Z.eqb_spec ts 0); [contradiction|reflexivity]).
  assert (Step : forall s0 c,
            Worker.currentRequestId s0 = rq_requestId r ->
            Worker.timers s0 = [] ->
            (c <= length schedule)%nat ->
            Worker.outbox s0 = Worker.outbox st ++ responsesFrom r total 0 (firstn c schedule) ->
            let c' := Nat.min (length schedule) (c + Z.to_nat tpf) in
            let s1 := Worker.processBatch s0 (jobAt r c (Z.of_nat c)) in
            Worker.currentRequestId s1 = rq_requestId r
            /\ Worker.outbox s1
               = Worker.outbox st ++ responsesFrom r total 0 (firstn c' schedule)
            /\ Worker.timers s1
               = (if (c' <? length schedule)%nat then [jobAt r c' (Z.of_nat c')] else [])).
  { intros s0 c Hid Ht Hc Hout. cbv zeta.
    destruct (processBatch_active r s0 c Hid Hc) as (H1 & H2 & H3).
    set (batchEnd := Z.min (Z.of_nat c + tpf) (Z.of_nat (length schedule))) in *.
    set (kk := Z.to_nat (batchEnd - Z.of_nat c)) in *.
    assert (Ec : Nat.min (length schedule) (c + Z.to_nat tpf) = (c + kk)%nat) by lia.
    assert (Eb : batchEnd = Z.of_nat (c + kk)) by lia.
    rewrite Ec. split; [exact H1|]. split.
    - rewrite H2, Hout, firstn_plus, responsesFrom_app, <- app_assoc.
      rewrite length_firstn, Nat.min_l by lia. reflexivity.
    - rewrite H3, Ht. cbn [app].
      destruct (Z.ltb_spec batchEnd (Z.of_nat (length schedule)));
        destruct (Nat.ltb_spec (c + kk) (length schedule)); try lia; [|reflexivity].
      now rewrite Eb. }
  induction k as [|k IH].
  - replace (1 * Z.to_nat tpf)%nat with (0 + Z.to_nat tpf)%nat by lia.
    cbn [repeat Worker.run Worker.step Worker.onmessage].
    rewrite handleRenderRequest_eq, Hok. eexists. split; [reflexivity|].
    destruct (Step {| Worker.currentRequestId := rq_requestId r;
                      Worker.timers := Worker.timers st;
                      Worker.outbox := Worker.outbox st |} 0%nat)
      as (H1 & H2 & H3);
      [reflexivity | exact Hidle | lia | cbn; now rewrite app_nil_r |].
    split; [exact H2|]. split; [exact H3|exact H1].
  - destruct IH as (s & Hrun & Hout & Ht & Hid).
    replace (repeat Worker.Timeout (S k)) with (repeat Worker.Timeout k ++ [Worker.Timeout])
      by (rewrite <- repeat_cons; reflexivity).
    rewrite app_comm_cons, run_app, Hrun. cbn [Worker.run Worker.step].
    set (c := Nat.min (length schedule) (S k * Z.to_nat tpf)) in *.
    destruct (Nat.ltb_spec c (length schedule)) as [Hlt|Hge].
    + rewrite Ht.
      replace (Nat.min (length schedule) (S (S k) * Z.to_nat tpf))
        with (Nat.min (length schedule) (c + Z.to_nat tpf)) by lia.
      eexists. split; [reflexivity|].
      destruct (Step {| Worker.currentRequestId := Worker.currentRequestId s;
                        Worker.timers := []; Worker.outbox := Worker.outbox s |} c)
        as (H1 & H2 & H3); [exact Hid | reflexivity | lia | exact Hout |].
      split; [exact H2|]. split; [exact H3|exact H1].
    + rewrite Ht. exists s. split; [reflexivity|].
      replace (Nat.min (length schedule) (S (S k) * Z.to_nat tpf)) with c by lia.
      destruct (Nat.ltb_spec c (length schedule)); [lia|].
      split; [exact Hout|]. split; [exact Ht|exact Hid].
Qed.


End BatchingFacts.


Section EscapeReportedInside.
Context {M : MathHost}.

(** C2.  The value [-1] is not kept for the inside of the set.  On a
    host whose [Math.log] returns the binary64 numbers nearest to
    [ln 65536], [ln 8] and [ln 2], the Mandelbrot point [256 + 0i], of
    modulus 256, leaves the loop through the escape branch at counter 1,
    whatever the iteration limit from 2 on; the smooth value computed
    there, [1 + 1 - log2(log2 256) = 2 - 3], is exactly [-1], the value
    [computePixel] returns for a point of the set.  [computeTile], which
    paints every negative value black, gives the escaped point the colour
    of the interior: the worker answers a request for a 2 x 2 canvas
    centred at [256 + 0i] with a tile whose pixel [(1, 1)] is black. *)
Theorem escaped_point_reported_inside (maxIterations : Z) :
  Math_log 65536 = 11.090354888959125 ->
  Math_log 8 = 2.0794415416798357 ->
  Math_log 2 = 0.6931471805599453 ->
  (2 <= maxIterations)%Z ->
  (256 * 256 + 0 * 0 >? 4) = true
  /\ Worker.computePixelRun 256 0 mandelbrotParams maxIterations false = (-1, 1%Z)
  /\ Worker.computePixel 256 0 mandelbrotParams maxIterations false
     = Worker.computePixel 0 0 mandelbrotParams maxIterations false
  /\ Worker.shadePixel mandelbrotParams maxIterations
       (Worker.computePixel 256 0 mandelbrotParams maxIterations false)
     = [0; 0; 0; 255]%Z
  /\ exists st' response,
       Worker.run Worker.initial [Worker.Message (Render (farRequest maxIterations))]
       = Some st'
       /\ Worker.outbox st' = [response]
       /\ tilePixel (tile response) 1 1 = [0; 0; 0; 255]%Z.
Proof.
  intros L16 L3 L1 Hmax.
  assert (Hrun : Worker.computePixelRun 256 0 mandelbrotParams maxIterations false
                 = (-1, 1%Z)).
  { rewrite outside_disc_escapes_at_counter_1 by (reflexivity || exact Hmax).
    f_equal. unfold smoothValue. cbv zeta.
    change (256 * 256 + 0 * 0) with 65536. rewrite L16, L1.
    change (11.090354888959125 / 2 / 0.6931471805599453) with 8.
    rewrite L3. reflexivity. }
  assert (Hpix : Worker.computePixel 256 0 mandelbrotParams maxIterations false = -1)
    by (unfold Worker.computePixel; rewrite Hrun; reflexivity).
  split; [reflexivity|]. split; [exact Hrun|]. split; [|split].
  - rewrite Hpix. reflexivity.
  - rewrite Hpix. reflexivity.
  - destruct (run_batches (farRequest maxIterations) Worker.initial 0 eq_refl)
      as (st' & E & Hout & _); [reflexivity | discriminate |].
    change (Worker.sortedTiles (canvasWidth (farRequest maxIterations))
              (canvasHeight (farRequest maxIterations))
              (tileSize (quality (farRequest maxIterations))))
      with [(0%Z, 0%Z)] in Hout.
    cbn [length Nat.min firstn responsesFrom app Worker.outbox Worker.initial] in Hout.
    change (Worker.tileRect (farRequest maxIterations) (0%Z, 0%Z))
      with (0, 0, 2, 2)%Z in Hout.
    cbv beta iota in Hout.
    eexists st', _. split; [exact E|]. split; [exact Hout|].
    change (tilePixel (Worker.computeTile 0 0 2 2 2 2 farViewport mandelbrotParams
                         maxIterations) 1 1
            = [0; 0; 0; 255]%Z).
    rewrite computeTile_pixel by lia.
    change (pixelToPlane 2 2 farViewport (0 + 1) (0 + 1)) with (256, 0).
    change (isJuliaSet mandelbrotParams) with false. cbv beta iota.
    rewrite Hpix. reflexivity.
Qed.

End EscapeReportedInside.

(** C2 on the host [roundedLogs], with the iteration limit 64 of the
    interactive profile. *)
Lemma escaped_point_reported_inside_witness :
  Worker.computePixelRun (M := roundedLogs) 256 0 mandelbrotParams 64 false = (-1, 1%Z)
  /\ exists st' response,
       Worker.run (M := roundedLogs) Worker.initial
         [Worker.Message (Render (farRequest 64))] = Some st'
       /\ Worker.outbox st' = [response]
       /\ tilePixel (tile response) 1 1 = [0; 0; 0; 255]%Z.
Proof.
  destruct (escaped_point_reported_inside (M := roundedLogs) 64) as (_ & H1 & _ & _ & H2);
    [reflexivity | reflexivity | reflexivity | lia |].
  split; assumption.
Defined.

(** * Further properties of the compositor *)

Section CompositorFacts.
Context {M : MathHost}.

Ltac unfold_render :=
  cbv beta iota zeta delta
    [Renderer.render Renderer.postMessage
     Renderer.set_canvas Renderer.set_posted Renderer.set_currentRequestId
     Renderer.set_overscanCanvas Renderer.set_overscanViewport
     Renderer.set_backgroundCanvas Renderer.set_backgroundViewport
     Renderer.set_viewport Renderer.set_params Renderer.set_isInteracting
     Renderer.set_lowQuality Renderer.set_highQuality Renderer.set_iterationData
     Renderer.set_iterationDataWidth Renderer.set_iterationDataHeight
     Renderer.set_resolutionMultiplier Renderer.set_terminated
     Renderer.canvas Renderer.posted Renderer.currentRequestId
     Renderer.overscanCanvas Renderer.overscanViewport
     Renderer.backgroundCanvas Renderer.backgroundViewport
     Renderer.viewport Renderer.params Renderer.isInteracting
     Renderer.lowQuality Renderer.highQuality Renderer.iterationData
     Renderer.iterationDataWidth Renderer.iterationDataHeight
     Renderer.resolutionMultiplier Renderer.terminated
     width height content].

Ltac unfold_compositor :=
  cbv beta iota zeta delta
    [Renderer.updateMainCanvas Renderer.saveToBackground Renderer.storeIterationData
     Renderer.startInteraction Renderer.destroy
     Renderer.set_canvas Renderer.set_posted Renderer.set_currentRequestId
     Renderer.set_overscanCanvas Renderer.set_overscanViewport
     Renderer.set_backgroundCanvas Renderer.set_backgroundViewport
     Renderer.set_viewport Renderer.set_params Renderer.set_isInteracting
     Renderer.set_lowQuality Renderer.set_highQuality Renderer.set_iterationData
     Renderer.set_iterationDataWidth Renderer.set_iterationDataHeight
     Renderer.set_resolutionMultiplier Renderer.set_terminated
     Renderer.canvas Renderer.posted Renderer.currentRequestId
     Renderer.overscanCanvas Renderer.overscanViewport
     Renderer.backgroundCanvas Renderer.backgroundViewport
     Renderer.viewport Renderer.params Renderer.isInteracting
     Renderer.lowQuality Renderer.highQuality Renderer.iterationData
     Renderer.iterationDataWidth Renderer.iterationDataHeight
     Renderer.resolutionMultiplier Renderer.terminated].

(** Closes an equation between a field of a state and the same field
    after setters, [updateMainCanvas] or [saveToBackground]. *)
Ltac frame s :=
  destruct s; unfold_compositor;
  repeat (match goal with
          | |- context [match ?x with _ => _ end] => is_var x; destruct x
          | |- context [if ?c then _ else _] => destruct c
          end; unfold_compositor);
  reflexivity.

(** Everything [render] does, field by field. *)
Lemma render_shape (s : Renderer.State) :
  let s' := Renderer.render s in
  let ow := Renderer.overscanFactorTimes (width (Renderer.canvas s)) in
  let oh := Renderer.overscanFactorTimes (height (Renderer.canvas s)) in
  let hq := if Renderer.isInteracting s then Renderer.highQuality s
            else {| maxIterations :=
                      Z.min 512 (JS.floorZ (128 + Math_log2 (zoom (Renderer.viewport s)) * 32));
                    tileSize := tileSize (Renderer.highQuality s);
                    tilesPerFrame := tilesPerFrame (Renderer.highQuality s) |} in
  Renderer.currentRequestId s' = (Renderer.currentRequestId s + 1)%Z
  /\ Renderer.posted s'
     = Renderer.posted s
       ++ [Cancel (Renderer.currentRequestId s);
           Render {| canvasWidth := ow; canvasHeight := oh;
                     rq_viewport := Renderer.viewport s;
                     rq_params := Renderer.params s;
                     quality := if Renderer.isInteracting s then Renderer.lowQuality s else hq;
                     rq_requestId := (Renderer.currentRequestId s + 1)%Z;
                     storeIterations := Some true |}]
  /\ Renderer.overscanViewport s' = Some (Renderer.viewport s)
  /\ width (Renderer.overscanCanvas s') = ow
  /\ height (Renderer.overscanCanvas s') = oh
  /\ Renderer.iterationDataWidth s' = ow
  /\ Renderer.iterationDataHeight s' = oh
  /\ Renderer.canvas s' = Renderer.canvas s
  /\ Renderer.lowQuality s' = Renderer.lowQuality s
  /\ Renderer.highQuality s' = hq
  /\ Renderer.viewport s' = Renderer.viewport s
  /\ Renderer.params s' = Renderer.params s
  /\ Renderer.isInteracting s' = Renderer.isInteracting s
  /\ Renderer.iterationData s' = Renderer.iterationData s
  /\ Renderer.backgroundCanvas s' = Renderer.backgroundCanvas s
  /\ Renderer.backgroundViewport s' = Renderer.backgroundViewport s.
Proof.
  destruct s as [cv po cur oc ov bc bv vp pa [|] lq hq idata idw idh rm tm];
    unfold_render;
    rewrite <- ?app_assoc, ?Z.add_simpl_r; cbn [app];
    repeat match goal with |- _ /\ _ => split end; reflexivity.
Qed.


Lemma zrange_snoc (lo hi : Z) : (lo <= hi)%Z -> zrange lo (hi + 1) = zrange lo hi ++ [hi].
Proof.
  intros H. unfold zrange.
  replace (Z.to_nat (hi + 1 - lo)) with (S (Z.to_nat (hi - lo))) by lia.
  rewrite seq_S, map_app. cbn [map Nat.add]. do 2 f_equal. lia.
Qed.

Lemma requestPairs_app (rs1 rs2 : list RenderRequest) :
  requestPairs (rs1 ++ rs2) = requestPairs rs1 ++ requestPairs rs2.
Proof. unfold requestPairs. apply flat_map_app. Qed.

(** [render] keeps the channel in shape. *)
Lemma render_Channel (s : Renderer.State) : Channel s -> Channel (Renderer.render s).
Proof.
  intros (Hcur & (rs & Hp & Hids) & Hl & Hh & Hls & Hhs & Hrq).
  destruct (render_shape s)
    as (E1 & E2 & _ & _ & _ & _ & _ & _ & E9 & E10 & _).
  cbv zeta in E2, E10.
  unfold Channel. rewrite E1, E2, E9, E10.
  split; [lia|]. split.
  { match type of E2 with _ = _ ++ [_; Render ?rq] => exists (rs ++ [rq]) end.
    rewrite requestPairs_app, <- Hp. split.
    - unfold requestPairs at 1. cbn [flat_map app rq_requestId].
      now rewrite Z.add_simpl_r.
    - rewrite map_app, Hids, (zrange_snoc 1 (Renderer.currentRequestId s + 1)) by lia.
      reflexivity. }
  split; [exact Hl|].
  split; [destruct (Renderer.isInteracting s); [exact Hh|exact Hh]|].
  split; [exact Hls|].
  split; [destruct (Renderer.isInteracting s); [exact Hhs|exact Hhs]|].
  intros r Hin. apply in_app_or in Hin as [Hin|[Hin|[Hin|[]]]].
  - now apply Hrq.
  - discriminate Hin.
  - injection Hin as <-. cbn.
    destruct (Renderer.isInteracting s); cbn; repeat split; auto; lia.
Qed.

(** After [render] the overscan buffer belongs to the request just
    posted. *)
Lemma render_Geometry (s : Renderer.State) : Geometry (Renderer.render s).
Proof.
  destruct (render_shape s)
    as (E1 & E2 & E3 & E4 & E5 & E6 & E7 & E8 & _).
  cbv zeta in E2, E4, E5, E6, E7.
  unfold Geometry. cbv zeta. rewrite E1, E2, E3, E4, E5, E6, E7, E8.
  split; [|repeat split; reflexivity].
  eexists (Renderer.posted s ++ [Cancel _]), _. rewrite <- app_assoc. cbn [app].
  split; [reflexivity|].
  cbn [rq_requestId rq_viewport canvasWidth canvasHeight]. repeat split; reflexivity.
Qed.

Lemma Channel_ext (s s' : Renderer.State) :
  Renderer.currentRequestId s' = Renderer.currentRequestId s ->
  Renderer.posted s' = Renderer.posted s ->
  Renderer.lowQuality s' = Renderer.lowQuality s ->
  Renderer.highQuality s' = Renderer.highQuality s ->
  Channel s -> Channel s'.
Proof. unfold Channel. intros -> -> -> ->. exact (fun H => H). Qed.

Lemma Geometry_ext (s s' : Renderer.State) :
  Renderer.currentRequestId s' = Renderer.currentRequestId s ->
  Renderer.posted s' = Renderer.posted s ->
  Renderer.overscanViewport s' = Renderer.overscanViewport s ->
  width (Renderer.overscanCanvas s') = width (Renderer.overscanCanvas s) ->
  height (Renderer.overscanCanvas s') = height (Renderer.overscanCanvas s) ->
  width (Renderer.canvas s') = width (Renderer.canvas s) ->
  height (Renderer.canvas s') = height (Renderer.canvas s) ->
  Renderer.iterationDataWidth s' = Renderer.iterationDataWidth s ->
  Renderer.iterationDataHeight s' = Renderer.iterationDataHeight s ->
  Geometry s -> Geometry s'.
Proof.
  unfold Geometry. cbv zeta. intros -> -> -> -> -> -> -> -> ->. exact (fun H => H).
Qed.


(** The two invariants survive every change that leaves the fields they
    read alone. *)
Ltac keep s H :=
  first
    [ refine (Channel_ext s _ _ _ _ _ H); frame s
    | refine (Geometry_ext s _ _ _ _ _ _ _ _ _ _ H); frame s ].

Lemma render_after (s s1 : Renderer.State) :
  Channel s1 -> Channel (Renderer.render s1) /\ Geometry (Renderer.render s1).
Proof. intros H. split; [now apply render_Channel|apply render_Geometry]. Qed.

Lemma recolor_invariant (hue : float) (s : Renderer.State) :
  Channel s /\ Geometry s ->
  Channel (Renderer.recolor hue s) /\ Geometry (Renderer.recolor hue s).
Proof.
  intros [HC HG]. unfold Renderer.recolor.
  destruct (Renderer.iterationData s); [|now apply (render_after s)].
  destruct (_ || _); [now apply (render_after s)|].
  destruct (_ || _); [now split|].
  split; [keep s HC|keep s HG].
Qed.

Lemma onTileResponse_invariant (response : TileResponse) (s : Renderer.State) :
  Channel s /\ Geometry s ->
  Channel (Renderer.onTileResponse response s)
  /\ Geometry (Renderer.onTileResponse response s).
Proof.
  intros [HC HG]. unfold Renderer.onTileResponse.
  destruct (negb _); [now split|]. cbv zeta.
  destruct (_ && _); split; first [keep s HC|keep s HG].
Qed.

Lemma setResolution_invariant (multiplier : float) (s : Renderer.State) :
  Channel s /\ Geometry s ->
  Channel (Renderer.setResolution multiplier s)
  /\ Geometry (Renderer.setResolution multiplier s).
Proof.
  intros [HC HG]. unfold Renderer.setResolution. cbv zeta.
  match goal with |- context [if _ then Renderer.render ?s1 else _] =>
    assert (HC1 : Channel s1); [|assert (HG1 : Geometry s1); [keep s HG|]] end.
  { destruct HC as (Hcur & Hrs & Hl & Hh & Hls & Hhs & Hrq).
    destruct s. revert Hcur Hrs Hl Hh Hls Hhs Hrq. unfold Channel. unfold_compositor.
    cbn [tilesPerFrame tileSize]. intros Hcur Hrs Hl Hh Hls Hhs Hrq.
    repeat split; try assumption; try lia; apply Hrq; assumption. }
  destruct (negb _); [now apply (render_after s)|now split].
Qed.

(** Every public method keeps the channel and the overscan geometry in
    shape. *)
Lemma applyCall_invariant (c : Call) (s : Renderer.State) :
  Channel s /\ Geometry s -> Channel (applyCall c s) /\ Geometry (applyCall c s).
Proof.
  intros [HC HG]. destruct c as [o|data]; [destruct o|]; cbn [applyCall applyOp].
  - now apply (render_after s).
  - unfold Renderer.resize. apply (render_after s). keep s HC.
  - split; [keep s HC|keep s HG].
  - unfold Renderer.endInteraction. apply (render_after s). keep s HC.
  - unfold Renderer.pan. cbv zeta.
    destruct (Renderer.isInteracting _); [apply (render_after s); keep s HC|].
    destruct (Renderer.needsRerender _); [apply (render_after s); keep s HC|].
    split; [keep s HC|keep s HG].
  - unfold Renderer.zoom. cbv zeta.
    destruct (_ || _); [now split|]. apply (render_after s). keep s HC.
  - unfold Renderer.updateParams. cbv zeta.
    assert (H1 : Channel (Renderer.set_params (Renderer.mergeParams (Renderer.params s) p) s)
                 /\ Geometry (Renderer.set_params (Renderer.mergeParams (Renderer.params s) p) s))
      by (split; [keep s HC|keep s HG]).
    destruct (p_colorHue p); [|now apply (render_after s)].
    destruct (Nat.eqb _ _); [|now apply (render_after s)].
    destruct (Renderer.iterationData _);
      [now apply recolor_invariant|now apply (render_after s)].
  - now apply setResolution_invariant.
  - split; [keep s HC|keep s HG].
  - split; [keep s HC|keep s HG].
  - now apply onTileResponse_invariant.
  - split; [keep s HC|keep s HG].
Qed.

Lemma create_invariant (canvasW canvasH : Z) (v : Viewport) (p : FractalParams) :
  Channel (Renderer.create canvasW canvasH v p)
  /\ Geometry (Renderer.create canvasW canvasH v p).
Proof.
  split.
  - unfold Channel. cbn.
    split; [lia|]. split; [exists []; split; reflexivity|].
    repeat split; try lia; destruct H.
  - unfold Geometry. cbn. repeat split.
Qed.

Lemma applyCalls_invariant (calls : list Call) : forall s,
  Channel s /\ Geometry s -> Channel (applyCalls calls s) /\ Geometry (applyCalls calls s).
Proof.
  unfold applyCalls. induction calls as [|c calls IH]; intros s H; cbn [fold_left];
    [exact H|]. apply IH. now apply applyCall_invariant.
Qed.


Lemma reachable_invariant (calls : list Call) (canvasW canvasH : Z)
    (v : Viewport) (p : FractalParams) :
  Channel (applyCalls calls (Renderer.create canvasW canvasH v p))
  /\ Geometry (applyCalls calls (Renderer.create canvasW canvasH v p)).
Proof. apply applyCalls_invariant, create_invariant. Qed.

Lemma In_requestPairs (r : RenderRequest) (rs : list RenderRequest) :
  In (Render r) (requestPairs rs) -> In r rs.
Proof.
  induction rs as [|x rs IH]; cbn; [tauto|].
  intros [H|[H|H]]; [discriminate H|injection H as ->; now left|right; now apply IH].
Qed.

(** The shape of a channel whose last message is known. *)
Lemma requestPairs_last (rs : list RenderRequest) (pre : list WorkerRequest)
    (m : WorkerRequest) :
  requestPairs rs = pre ++ [m] ->
  exists rs' r, rs = rs' ++ [r] /\ m = Render r
                /\ pre = requestPairs rs' ++ [Cancel (rq_requestId r - 1)].
Proof.
  destruct rs as [|x rs] using rev_ind.
  - intros H. destruct pre; discriminate H.
  - clear IHrs. rewrite requestPairs_app. cbn [requestPairs flat_map app].
    change (requestPairs rs ++ [Cancel (rq_requestId x - 1); Render x])
      with (requestPairs rs ++ [Cancel (rq_requestId x - 1)] ++ [Render x]).
    rewrite app_assoc. intros H. apply app_inj_tail in H as [H1 H2].
    exists rs, x. repeat split; congruence.
Qed.

(** X11.  Whatever is called on a compositor, the messages it has posted
    are, in order, [cancel (k - 1); render k] for [k = 1, 2, ..., n], [n]
    being its request counter: ids are issued once each, in increasing
    order, and never the worker's sentinel [-1]. *)
Theorem request_ids_count_up (calls : list Call) (canvasW canvasH : Z)
    (v : Viewport) (p : FractalParams) :
  let s := applyCalls calls (Renderer.create canvasW canvasH v p) in
  exists rs,
    Renderer.posted s = requestPairs rs
    /\ map rq_requestId rs = zrange 1 (Renderer.currentRequestId s + 1).
Proof.
  intros s. destruct (reachable_invariant calls canvasW canvasH v p) as [HC _].
  apply HC.
Qed.

(** X12.  A tile response that answers any request but the latest one is
    dropped: the compositor is left exactly as it was. *)
Theorem answers_to_earlier_requests_are_dropped (calls : list Call)
    (canvasW canvasH : Z) (v : Viewport) (p : FractalParams)
    (pre : list WorkerRequest) (latest : WorkerRequest)
    (r : RenderRequest) (response : TileResponse) :
  let s := applyCalls calls (Renderer.create canvasW canvasH v p) in
  Renderer.posted s = pre ++ [latest] ->
  In (Render r) pre ->
  tr_requestId response = rq_requestId r ->
  Renderer.onTileResponse response s = s.
Proof.
  intros s Hp Hin Hid.
  destruct (reachable_invariant calls canvasW canvasH v p)
    as [(Hcur & (rs & Hrs & Hids) & _) _].
  fold s in Hcur, Hrs, Hids. rewrite Hp in Hrs. symmetry in Hrs.
  apply requestPairs_last in Hrs as (rs' & x & -> & -> & ->).
  apply in_app_or in Hin as [Hin|[Hin|[]]]; [|discriminate Hin].
  apply In_requestPairs in Hin.
  rewrite map_app in Hids. cbn [map] in Hids.
  assert (Hlen : length (map rq_requestId rs' ++ [rq_requestId x])
                 = Z.to_nat (Renderer.currentRequestId s + 1 - 1))
    by (rewrite Hids; apply zrange_length).
  rewrite length_app in Hlen. cbn [length] in Hlen.
  replace (Renderer.currentRequestId s + 1)%Z
    with (Renderer.currentRequestId s - 1 + 1 + 1)%Z in Hids by lia.
  rewrite (zrange_snoc 1 (Renderer.currentRequestId s - 1 + 1)) in Hids by lia.
  apply app_inj_tail in Hids as [Hids _].
  assert (Hr : In (rq_requestId r) (zrange 1 (Renderer.currentRequestId s - 1 + 1)))
    by (rewrite <- Hids; now apply in_map).
  apply zrange_In in Hr.
  unfold Renderer.onTileResponse.
  destruct (Z.eqb_spec (tr_requestId response) (Renderer.currentRequestId s)) as [E|E];
    [lia|reflexivity].
Qed.

(** X21.  Once a render has been issued, the overscan buffer belongs to
    the latest request: it has that request's size, which is the canvas
    size times 1.5 rounded down in each dimension, it is tagged with that
    request's viewport, and the dimensions recorded for iteration data are
    its own. *)
Theorem overscan_belongs_to_latest_request (calls : list Call)
    (canvasW canvasH : Z) (v : Viewport) (p : FractalParams) :
  let s := applyCalls calls (Renderer.create canvasW canvasH v p) in
  Renderer.posted s <> [] ->
  exists pre r,
    Renderer.posted s = pre ++ [Render r]
    /\ rq_requestId r = Renderer.currentRequestId s
    /\ Renderer.overscanViewport s = Some (rq_viewport r)
    /\ width (Renderer.overscanCanvas s) = canvasWidth r
    /\ height (Renderer.overscanCanvas s) = canvasHeight r
    /\ canvasWidth r = (3 * width (Renderer.canvas s) / 2)%Z
    /\ canvasHeight r = (3 * height (Renderer.canvas s) / 2)%Z
    /\ Renderer.iterationDataWidth s = canvasWidth r
    /\ Renderer.iterationDataHeight s = canvasHeight r.
Proof.
  intros s Hne.
  destruct (reachable_invariant calls canvasW canvasH v p)
    as [(Hcur & (rs & Hrs & Hids) & _) HG].
  fold s in Hcur, Hrs, Hids, HG. unfold Geometry in HG. cbv zeta in HG.
  destruct (Renderer.overscanViewport s) as [ov|].
  - destruct HG as ((pre & r & E1 & E2 & E3 & E4 & E5) & G1 & G2 & G3 & G4).
    exists pre, r. unfold Renderer.overscanFactorTimes in G1, G2.
    repeat split; congruence.
  - destruct HG as (E0 & _). rewrite E0 in Hids. cbn in Hids.
    destruct rs; [|discriminate Hids]. now rewrite Hrs in Hne.
Qed.

(** X14.  A hue-only update with cached iteration data posts nothing to
    the worker once a render has been issued: the dimensions recorded for
    the cache are then always those of the overscan buffer.  Before the
    first render they never are, and the update renders. *)
Theorem hue_update_posts_nothing_after_first_render (calls : list Call)
    (canvasW canvasH : Z) (v : Viewport) (p : FractalParams)
    (update : PartialParams) (hue : float) (cached : list float) :
  let s := applyCalls calls (Renderer.create canvasW canvasH v p) in
  Renderer.iterationData s = Some cached ->
  p_colorHue update = Some hue ->
  Renderer.keyCount update = 1%nat ->
  (Renderer.posted s <> [] ->
     Renderer.posted (Renderer.updateParams update s) = Renderer.posted s
     /\ Renderer.currentRequestId (Renderer.updateParams update s)
        = Renderer.currentRequestId s)
  /\ (Renderer.posted s = [] ->
        Renderer.currentRequestId (Renderer.updateParams update s) = 1%Z).
Proof.
  intros s Hdata Hhue Hkeys.
  destruct (reachable_invariant calls canvasW canvasH v p)
    as [(Hcur & (rs & Hrs & Hids) & _) HG].
  fold s in Hcur, Hrs, Hids, HG.
  unfold Renderer.updateParams. cbv zeta. rewrite Hhue, Hkeys. cbn [Nat.eqb].
  set (s1 := Renderer.set_params _ s).
  assert (Hdata1 : Renderer.iterationData s1 = Some cached)
    by (rewrite <- Hdata; unfold s1; generalize s as s0; intros s0; frame s0).
  assert (HG1 : Geometry s1) by (unfold s1; generalize s HG; intros s0 HG0; keep s0 HG0).
  assert (Hp1 : Renderer.posted s1 = Renderer.posted s)
    by (unfold s1; generalize s as s0; intros s0; frame s0).
  assert (Hc1 : Renderer.currentRequestId s1 = Renderer.currentRequestId s)
    by (unfold s1; generalize s as s0; intros s0; frame s0).
  rewrite Hdata1. unfold Renderer.recolor. rewrite Hdata1.
  unfold Geometry in HG1. cbv zeta in HG1.
  destruct (Renderer.overscanViewport s1) as [ov|] eqn:Eov.
  - destruct HG1 as (_ & _ & _ & G3 & G4). rewrite G3, G4, !Z.eqb_refl. cbn [negb orb].
    split; [intros _|].
    + destruct (_ || _); [now split|].
      match goal with |- context [Renderer.updateMainCanvas ?x] =>
        destruct (updateMainCanvas_frame x) as (F1 & F2 & _) end.
      rewrite F1, F2. split; [exact Hp1|exact Hc1].
    + intros Hnil. exfalso.
      unfold Geometry in HG. cbv zeta in HG.
      assert (Eov' : Renderer.overscanViewport s = Some ov)
        by (rewrite <- Eov; unfold s1; generalize s as s0; intros s0; frame s0).
      rewrite Eov' in HG. destruct HG as ((pre & r & E1 & _) & _).
      rewrite Hnil in E1. destruct pre; discriminate E1.
  - destruct HG1 as (E0 & G1 & G2 & G3 & G4). rewrite G1, G3.
    change (negb (0 =? 300)%Z) with true. cbn [orb].
    destruct (render_shape s1) as (R1 & _). rewrite R1, E0.
    split; [|reflexivity].
    intros Hne. exfalso. rewrite Hc1 in E0. rewrite E0 in Hids. cbn in Hids.
    destruct rs; [|discriminate Hids]. now rewrite Hrs in Hne.
Qed.












Lemma render_background (s : Renderer.State) :
  Renderer.backgroundCanvas (Renderer.render s) = Renderer.backgroundCanvas s
  /\ Renderer.backgroundViewport (Renderer.render s) = Renderer.backgroundViewport s.
Proof. split; apply render_shape. Qed.

Ltac background s :=
  first
    [ split; frame s
    | match goal with |- context [Renderer.render ?s1] =>
        destruct (render_background s1) as [-> ->] end;
      split; frame s ].

Lemma recolor_background (hue : float) (s : Renderer.State) :
  Renderer.backgroundCanvas (Renderer.recolor hue s) = Renderer.backgroundCanvas s
  /\ Renderer.backgroundViewport (Renderer.recolor hue s) = Renderer.backgroundViewport s.
Proof.
  unfold Renderer.recolor.
  destruct (Renderer.iterationData s); [|apply render_background].
  destruct (_ || _); [apply render_background|].
  destruct (_ || _); [now split|]. background s.
Qed.

(** X13.  The persistent background is replaced by [saveToBackground]
    and by the final tile of the current request arriving outside
    interactive mode, and by nothing else: no other call, and no tile of an
    interactive or a superseded render, changes its canvas or its
    viewport. *)
Theorem background_kept_unless_saved (c : Call) (s : Renderer.State) :
  savesBackground c s = false ->
  Renderer.backgroundCanvas (applyCall c s) = Renderer.backgroundCanvas s
  /\ Renderer.backgroundViewport (applyCall c s) = Renderer.backgroundViewport s.
Proof.
  intros Hs. destruct c as [o|data]; [destruct o|]; cbn [applyCall applyOp];
    try discriminate Hs.
  - apply render_background.
  - unfold Renderer.resize. background s.
  - background s.
  - unfold Renderer.endInteraction. background s.
  - unfold Renderer.pan. cbv zeta.
    destruct (Renderer.isInteracting _); [background s|].
    destruct (Renderer.needsRerender _); background s.
  - unfold Renderer.zoom. cbv zeta.
    destruct (_ || _); [now split|]. background s.
  - unfold Renderer.updateParams. cbv zeta.
    destruct (p_colorHue _) as [hue|]; [|background s].
    destruct (Nat.eqb _ _); [|background s].
    destruct (Renderer.iterationData _); [|background s].
    match goal with |- context [Renderer.recolor hue ?s1] =>
      destruct (recolor_background hue s1) as [-> ->] end.
    background s.
  - unfold Renderer.setResolution. cbv zeta.
    destruct (negb _); background s.
  - background s.
  - unfold Renderer.onTileResponse. cbn [savesBackground] in Hs.
    destruct (tr_requestId response =? Renderer.currentRequestId s)%Z;
      cbn [negb andb] in *; [|now split].
    cbv zeta.
    match goal with |- context [if isComplete response && negb (Renderer.isInteracting ?s2)
                                then _ else _] =>
      replace (Renderer.isInteracting s2) with (Renderer.isInteracting s)
        by (generalize s as s0; intros s0; frame s0)
    end.
    rewrite Hs. background s.
  - background s.
Qed.

(** ** Zoom limits *)

Lemma is_nan_Prim2SF (x : float) : is_nan x = true <-> Prim2SF x = S754_nan.
Proof.
  unfold is_nan. rewrite eqb_spec. unfold SFeqb.
  destruct (Prim2SF x) as [s|s| |s m e]; cbn.
  - split; discriminate.
  - destruct s; split; discriminate.
  - split; reflexivity.
  - destruct s; rewrite Z.compare_refl, Pos.compare_cont_refl; cbn; split; discriminate.
Qed.

Lemma not_ltb_leb (x y : float) :
  (x <? y) = false -> is_nan x = false -> is_nan y = false -> (y <=? x) = true.
Proof.
  intros H Hx Hy. rewrite ltb_spec in H. rewrite leb_spec. unfold SFltb in H. unfold SFleb.
  destruct (SFcompare (Prim2SF x) (Prim2SF y)) as [c|] eqn:E.
  - rewrite (SFcompare_antisym _ _ _ E). destruct c; [reflexivity|discriminate H|reflexivity].
  - exfalso.
    assert (Prim2SF x = S754_nan \/ Prim2SF y = S754_nan) as [K|K].
    { destruct (Prim2SF x) as [?|?| |? ? ?], (Prim2SF y) as [?|?| |? ? ?];
        cbn in E; try discriminate E; auto. }
    + apply is_nan_Prim2SF in K. congruence.
    + apply is_nan_Prim2SF in K. congruence.
Qed.

Lemma mul_nan (x y : float) : is_nan x = true \/ is_nan y = true -> is_nan (x * y) = true.
Proof.
  rewrite !is_nan_Prim2SF, mul_spec. unfold SF64mul, SFmul.
  intros [-> | ->]; [reflexivity|]. destruct (Prim2SF x); reflexivity.
Qed.

Lemma nan_compares_false (x y : float) :
  is_nan x = true -> (x <? y) = false /\ (x >? y) = false.
Proof.
  rewrite is_nan_Prim2SF. intros H. unfold JS.gtb. rewrite !ltb_spec. unfold SFltb.
  rewrite H. cbn. destruct (Prim2SF y); split; reflexivity.
Qed.

Lemma applyCall_zoom (c : Call) (s : Renderer.State) :
  passesZoomLimits (zoom (Renderer.viewport s)) ->
  passesZoomLimits (zoom (Renderer.viewport (applyCall c s))).
Proof.
  intros H.
  assert (R : forall s1, Renderer.viewport (Renderer.render s1) = Renderer.viewport s1)
    by (intros s1; apply render_shape).
  assert (U : forall s1, Renderer.viewport (Renderer.updateMainCanvas s1)
                         = Renderer.viewport s1)
    by (intros s1; apply updateMainCanvas_frame).
  destruct c as [o|data]; [destruct o|]; cbn [applyCall applyOp].
  - now rewrite R.
  - unfold Renderer.resize. now rewrite R.
  - exact H.
  - unfold Renderer.endInteraction. now rewrite R.
  - unfold Renderer.pan. cbv zeta.
    destruct (Renderer.isInteracting _); [rewrite R|].
    2: destruct (Renderer.needsRerender _); [rewrite R|rewrite U].
    all: destruct s; exact H.
  - unfold Renderer.zoom. cbv zeta.
    destruct (_ <? _) eqn:E1; [exact H|]. destruct (_ >? _) eqn:E2; [exact H|].
    cbn [orb]. rewrite R.
    destruct mouse as [[mouseX mouseY]|]; destruct s; split; assumption.
  - unfold Renderer.updateParams. cbv zeta.
    destruct (p_colorHue p); [|rewrite R; destruct s; exact H].
    destruct (Nat.eqb _ _); [|rewrite R; destruct s; exact H].
    destruct (Renderer.iterationData _); [|rewrite R; destruct s; exact H].
    unfold Renderer.recolor.
    destruct (Renderer.iterationData _); [|rewrite R; destruct s; exact H].
    destruct (_ || _); [rewrite R; destruct s; exact H|].
    destruct (_ || _); [destruct s; exact H|].
    rewrite U. destruct s; exact H.
  - unfold Renderer.setResolution. cbv zeta.
    destruct (negb _); [rewrite R|]; destruct s; exact H.
  - unfold Renderer.saveToBackground. destruct (_ || _); [exact H|]. destruct s; exact H.
  - exact H.
  - unfold Renderer.onTileResponse. destruct (negb _); [exact H|]. cbv zeta.
    destruct (_ && _).
    + unfold Renderer.saveToBackground. destruct (_ || _); [|cbn]; rewrite U;
        destruct s; exact H.
    + rewrite U. destruct s; exact H.
  - exact H.
Qed.

(** X15.  The zoom limits hold for the life of a compositor: if the
    initial zoom passes the two tests of [zoom], then after any calls the
    zoom is a number in [minZoom .. maxZoom], unless it is NaN. *)
Theorem zoom_stays_within_limits (calls : list Call) (canvasW canvasH : Z)
    (v : Viewport) (p : FractalParams) :
  passesZoomLimits (zoom v) ->
  let z := zoom (Renderer.viewport (applyCalls calls (Renderer.create canvasW canvasH v p))) in
  is_nan z = true
  \/ ((Renderer.minZoom <=? z) = true /\ (z <=? Renderer.maxZoom) = true).
Proof.
  intros H0 z.
  assert (H : passesZoomLimits z).
  { unfold z, applyCalls.
    change (zoom v) with (zoom (Renderer.viewport (Renderer.create canvasW canvasH v p))) in H0.
    revert H0. generalize (Renderer.create canvasW canvasH v p).
    induction calls as [|c calls IH]; intros s H; cbn [fold_left]; [exact H|].
    apply IH. now apply applyCall_zoom. }
  destruct (is_nan z) eqn:En; [now left|right].
  destruct H as [H1 H2]. unfold JS.gtb in H2. split.
  - apply not_ltb_leb; [exact H1|exact En|reflexivity].
  - apply not_ltb_leb; [exact H2|reflexivity|exact En].
Qed.

(** X16.  A factor that is NaN passes the limits of [zoom]: the zoom
    becomes NaN and a render is issued; from then on every factor
    passes. *)
Theorem zoom_accepts_nan (factor : float) (mouse : option (float * float))
    (s : Renderer.State) :
  is_nan factor = true \/ is_nan (zoom (Renderer.viewport s)) = true ->
  Renderer.currentRequestId (Renderer.zoom factor mouse s)
  = (Renderer.currentRequestId s + 1)%Z
  /\ is_nan (zoom (Renderer.viewport (Renderer.zoom factor mouse s))) = true.
Proof.
  intros H.
  assert (Hn : is_nan (zoom (Renderer.viewport s) * factor) = true)
    by (apply mul_nan; tauto).
  destruct (nan_compares_false _ Renderer.minZoom Hn) as [E1 _].
  destruct (nan_compares_false _ Renderer.maxZoom Hn) as [_ E2].
  unfold Renderer.zoom. cbv zeta. rewrite E1, E2. cbn [orb].
  match goal with |- context [Renderer.render ?s1] =>
    destruct (render_shape s1) as (R1 & _ & _ & _ & _ & _ & _ & _ & _ & _ & R11 & _) end.
  rewrite R1, R11. split.
  - destruct s; reflexivity.
  - destruct mouse as [[mouseX mouseY]|]; destruct s; exact Hn.
Qed.

(** X17.  Outside interactive mode [setResolution] renders at once, and
    the iteration limit of that request is the adaptive one,
    [min(512, floor(128 + 32 log2 zoom))]: the limit [floor(256 * multiplier)]
    that the method has just stored is overwritten before it is sent.  Of
    the multiplier the request carries the tile size only.  The multiplier
    is one whose tile size [32 / multiplier] is a finite number (not NaN,
    [0] or [-0]), the zoom one whose adaptive limit is. *)
Theorem resolution_never_sets_iteration_limit (multiplier : float) (s : Renderer.State) :
  JS.isFinite (32 / multiplier) = true ->
  JS.isFinite (128 + Math_log2 (zoom (Renderer.viewport s)) * 32) = true ->
  Renderer.isInteracting s = false ->
  let s' := Renderer.setResolution multiplier s in
  let adaptive :=
    Z.min 512 (JS.floorZ (128 + Math_log2 (zoom (Renderer.viewport s)) * 32)) in
  exists rq,
    Renderer.posted s'
    = Renderer.posted s ++ [Cancel (Renderer.currentRequestId s); Render rq]
    /\ maxIterations (quality rq) = adaptive
    /\ tileSize (quality rq) = Z.max 16 (JS.floorZ (32 / multiplier))
    /\ maxIterations (Renderer.highQuality s') = adaptive.
Proof.
  intros _ _ Hi. cbv zeta. unfold Renderer.setResolution. cbv zeta.
  match goal with |- context [if negb (Renderer.isInteracting ?s1) then _ else _] =>
    assert (Hi1 : Renderer.isInteracting s1 = false)
      by (rewrite <- Hi; generalize s as s0; intros s0; frame s0);
    rewrite Hi1; cbn [negb];
    destruct (render_shape s1) as (_ & R2 & _ & _ & _ & _ & _ & _ & _ & R10 & _)
  end.
  cbv zeta in R2, R10. rewrite Hi1 in R2, R10. rewrite R2, R10.
  match goal with |- context [Renderer.posted ?s1 ++ _] =>
    replace (Renderer.posted s1) with (Renderer.posted s)
      by (generalize s as s0; intros s0; frame s0);
    replace (Renderer.currentRequestId s1) with (Renderer.currentRequestId s)
      by (generalize s as s0; intros s0; frame s0)
  end.
  eexists. split; [reflexivity|].
  cbn [quality maxIterations tileSize]. destruct s; repeat split; reflexivity.
Qed.

(** X18.  An update that names all seven keys, which is what the page
    sends on every change of its parameters, installs them and renders:
    with or without cached iteration data it never takes the recolouring
    path. *)
Theorem full_update_always_renders (p : FractalParams) (s : Renderer.State) :
  Renderer.updateParams (fullParams p) s = Renderer.render (Renderer.set_params p s).
Proof.
  unfold Renderer.updateParams. cbv zeta.
  replace (Renderer.mergeParams (Renderer.params s) (fullParams p)) with p
    by (destruct p; reflexivity).
  reflexivity.
Qed.

(** ** The compositor and the worker together *)

Lemma onTileResponse_keeps (response : TileResponse) (s : Renderer.State) :
  let s' := Renderer.onTileResponse response s in
  Renderer.currentRequestId s' = Renderer.currentRequestId s
  /\ Renderer.isInteracting s' = Renderer.isInteracting s
  /\ Renderer.overscanViewport s' = Renderer.overscanViewport s
  /\ width (Renderer.overscanCanvas s') = width (Renderer.overscanCanvas s)
  /\ height (Renderer.overscanCanvas s') = height (Renderer.overscanCanvas s)
  /\ Renderer.posted s' = Renderer.posted s
  /\ Renderer.viewport s' = Renderer.viewport s.
Proof.
  cbv zeta. unfold Renderer.onTileResponse.
  destruct (negb _); [repeat split|]. cbv zeta.
  destruct (_ && _); repeat match goal with |- _ /\ _ => split end; frame s.
Qed.

Lemma onTileResponses_keep (responses : list TileResponse) : forall s : Renderer.State,
  let s' := fold_left (fun s response => Renderer.onTileResponse response s) responses s in
  Renderer.currentRequestId s' = Renderer.currentRequestId s
  /\ Renderer.isInteracting s' = Renderer.isInteracting s
  /\ Renderer.overscanViewport s' = Renderer.overscanViewport s
  /\ width (Renderer.overscanCanvas s') = width (Renderer.overscanCanvas s)
  /\ height (Renderer.overscanCanvas s') = height (Renderer.overscanCanvas s)
  /\ Renderer.posted s' = Renderer.posted s
  /\ Renderer.viewport s' = Renderer.viewport s.
Proof.
  induction responses as [|response responses IH]; intros s; cbn [fold_left].
  - repeat split.
  - destruct (IH (Renderer.onTileResponse response s)) as (A1 & A2 & A3 & A4 & A5 & A6 & A7).
    destruct (onTileResponse_keeps response s) as (B1 & B2 & B3 & B4 & B5 & B6 & B7).
    cbv zeta in *. repeat split; congruence.
Qed.

(** The final tile of the current request, arriving outside interactive
    mode on an overscan buffer with pixels, is followed by the snapshot. *)
Lemma final_tile_saves (response : TileResponse) (s : Renderer.State) :
  tr_requestId response = Renderer.currentRequestId s ->
  isComplete response = true ->
  Renderer.isInteracting s = false ->
  (0 < width (Renderer.overscanCanvas s))%Z ->
  (0 < height (Renderer.overscanCanvas s))%Z ->
  let s' := Renderer.onTileResponse response s in
  Renderer.backgroundViewport s' = Renderer.overscanViewport s
  /\ width (Renderer.backgroundCanvas s') = width (Renderer.overscanCanvas s)
  /\ height (Renderer.backgroundCanvas s') = height (Renderer.overscanCanvas s).
Proof.
  intros Hid Hc Hi Hw Hh. cbv zeta. unfold Renderer.onTileResponse.
  rewrite Hid, Z.eqb_refl, Hc. cbn [negb andb]. cbv zeta.
  match goal with |- context [negb (Renderer.isInteracting ?s2)] =>
    replace (Renderer.isInteracting s2) with (Renderer.isInteracting s)
      by (generalize s as s0; intros s0; frame s0)
  end.
  rewrite Hi. cbn [negb]. unfold Renderer.saveToBackground.
  match goal with |- context [if (width (Renderer.overscanCanvas ?s2) =? 0)%Z || _ then _ else _] =>
    replace (width (Renderer.overscanCanvas s2)) with (width (Renderer.overscanCanvas s))
      by (generalize s as s0; intros s0; frame s0);
    replace (height (Renderer.overscanCanvas s2)) with (height (Renderer.overscanCanvas s))
      by (generalize s as s0; intros s0; frame s0);
    replace (Renderer.overscanViewport s2) with (Renderer.overscanViewport s)
      by (generalize s as s0; intros s0; frame s0)
  end.
  destruct (Z.eqb_spec (width (Renderer.overscanCanvas s)) 0) as [E|_]; [lia|].
  destruct (Z.eqb_spec (height (Renderer.overscanCanvas s)) 0) as [E|_]; [lia|].
  cbn. repeat split.
Qed.

Lemma responsesFrom_snoc (r : RenderRequest) (total count : Z) (l : list (Z * Z))
    (t : Z * Z) :
  exists response,
    responsesFrom r total count (l ++ [t]) = responsesFrom r total count l ++ [response]
    /\ tr_requestId response = rq_requestId r
    /\ isComplete response = (count + Z.of_nat (length l) + 1 =? total)%Z.
Proof.
  rewrite responsesFrom_app. cbn [responsesFrom].
  destruct (Worker.tileRect r t) as [[[x y] w] h].
  eexists. split; [reflexivity|]. split; reflexivity.
Qed.

(** X28.  A render that is left alone ends in the background.  For a
    compositor at rest on a canvas with pixels (the multipliers of
    [setResolution] being such that the tile sizes are finite), an idle
    worker turns the latest request into the responses of its whole
    schedule; once the compositor has handled them, the persistent
    background holds a snapshot of the overscan buffer, tagged with the
    viewport of that request. *)
Theorem finished_render_reaches_background (calls : list Call)
    (canvasW canvasH : Z) (v : Viewport) (p : FractalParams) (st : Worker.WState) :
  let s := applyCalls calls (Renderer.create canvasW canvasH v p) in
  forallb finiteTileSizes calls = true ->
  Renderer.posted s <> [] ->
  Renderer.isInteracting s = false ->
  (0 < width (Renderer.canvas s))%Z -> (0 < height (Renderer.canvas s))%Z ->
  Worker.timers st = [] ->
  exists r k st' responses,
    last (Renderer.posted s) (Cancel 0) = Render r
    /\ Worker.run st (Worker.Message (Render r) :: repeat Worker.Timeout k) = Some st'
    /\ Worker.outbox st' = Worker.outbox st ++ responses
    /\ Worker.timers st' = []
    /\ let s' := fold_left (fun s response => Renderer.onTileResponse response s)
                   responses s in
       Renderer.backgroundViewport s' = Some (rq_viewport r)
       /\ width (Renderer.backgroundCanvas s') = canvasWidth r
       /\ height (Renderer.backgroundCanvas s') = canvasHeight r
       /\ Renderer.posted s' = Renderer.posted s.
Proof.
  intros s _ Hne Hrest Hw Hh Hidle.
  destruct (reachable_invariant calls canvasW canvasH v p)
    as [(Hcur & (rs & Hrs & Hids) & _ & _ & _ & _ & Hrq) HG].
  fold s in Hcur, Hrs, Hids, Hrq, HG. unfold Geometry in HG. cbv zeta in HG.
  destruct (Renderer.overscanViewport s) as [ov|] eqn:Eov.
  2:{ destruct HG as (E0 & _). rewrite E0 in Hids. cbn in Hids.
      destruct rs; [|discriminate Hids]. now rewrite Hrs in Hne. }
  destruct HG as ((pre & r & E1 & E2 & E3 & E4 & E5) & G1 & G2 & _).
  destruct (Hrq r) as (Htpf & Hts & _); [rewrite E1; apply in_or_app; right; now left|].
  set (ts := tileSize (quality r)) in *.
  set (schedule := Worker.sortedTiles (canvasWidth r) (canvasHeight r) ts).
  set (total := (Worker.tilesX (canvasWidth r) ts * Worker.tilesY (canvasHeight r) ts)%Z).
  assert (Hcw : (0 < canvasWidth r)%Z).
  { rewrite E4, G1. unfold Renderer.overscanFactorTimes.
    apply Z.div_str_pos. lia. }
  assert (Hch : (0 < canvasHeight r)%Z).
  { rewrite E5, G2. unfold Renderer.overscanFactorTimes.
    apply Z.div_str_pos. lia. }
  assert (Hlen : Z.of_nat (length schedule) = total).
  { unfold schedule, total. rewrite sortedTiles_length.
    pose proof (ceilDiv_pos (canvasWidth r) ts Hcw ltac:(lia)).
    pose proof (ceilDiv_pos (canvasHeight r) ts Hch ltac:(lia)).
    unfold Worker.tilesX, Worker.tilesY in *. nia. }
  assert (Hpos : (0 < total)%Z).
  { unfold total.
    pose proof (ceilDiv_pos (canvasWidth r) ts Hcw ltac:(lia)).
    pose proof (ceilDiv_pos (canvasHeight r) ts Hch ltac:(lia)).
    unfold Worker.tilesX, Worker.tilesY in *. nia. }
  destruct (run_batches r st (length schedule) Hidle) as (st' & E & Hout & Ht & _);
    [lia | lia |].
  fold ts schedule total in Hout, Ht.
  assert (Hn : Nat.min (length schedule)
                 (S (length schedule) * Z.to_nat (tilesPerFrame (quality r)))
               = length schedule) by nia.
  rewrite Hn in Hout, Ht. rewrite firstn_all in Hout. rewrite Nat.ltb_irrefl in Ht.
  exists r, (length schedule), st', (responsesFrom r total 0 schedule).
  split; [rewrite E1; apply last_last|].
  split; [exact E|]. split; [exact Hout|]. split; [exact Ht|].
  cbv zeta.
  destruct schedule as [|t0 schedule0] eqn:Es using rev_ind; [cbn in Hlen; lia|].
  clear IHschedule0.
  destruct (responsesFrom_snoc r total 0 schedule0 t0) as (final & F1 & F2 & F3).
  rewrite F1, fold_left_app. cbn [fold_left].
  set (s1 := fold_left _ (responsesFrom r total 0 schedule0) s).
  destruct (onTileResponses_keep (responsesFrom r total 0 schedule0) s)
    as (K1 & K2 & K3 & K4 & K5 & K6 & K7).
  fold s1 in K1, K2, K3, K4, K5, K6, K7. cbv zeta in K1, K2, K3, K4, K5, K6, K7.
  destruct (final_tile_saves final s1) as (S1 & S2 & S3).
  - rewrite F2, K1. exact E2.
  - rewrite F3. apply Z.eqb_eq. rewrite length_app in Hlen. cbn [length] in Hlen. lia.
  - now rewrite K2.
  - rewrite K4. lia.
  - rewrite K5. lia.
  - cbv zeta in S1, S2, S3. rewrite S1, S2, S3, K3, K4, K5, Eov.
    destruct (onTileResponse_keeps final s1) as (_ & _ & _ & _ & _ & L6 & _).
    cbv zeta in L6. rewrite L6, K6.
    repeat split; congruence.
Qed.

(** A call posts nothing, or it ends in one [render] of a state that has
    the channel of the state before. *)
Lemma applyCall_cases (c : Call) (s : Renderer.State) :
  Channel s ->
  Renderer.posted (applyCall c s) = Renderer.posted s
  \/ exists s1, applyCall c s = Renderer.render s1
                /\ Channel s1
                /\ Renderer.posted s1 = Renderer.posted s.
Proof.
  intros HC.
  assert (R : forall s1, Channel s1 -> Renderer.posted s1 = Renderer.posted s ->
              Renderer.posted (Renderer.render s1) = Renderer.posted s
              \/ exists s2, Renderer.render s1 = Renderer.render s2
                            /\ Channel s2 /\ Renderer.posted s2 = Renderer.posted s)
    by (intros s1 H1 H2; right; exists s1; split; [reflexivity|split; assumption]).
  destruct c as [o|data]; [destruct o|]; cbn [applyCall applyOp].
  - apply R; [exact HC|reflexivity].
  - unfold Renderer.resize. apply R; [keep s HC|frame s].
  - left. frame s.
  - unfold Renderer.endInteraction. apply R; [keep s HC|frame s].
  - unfold Renderer.pan. cbv zeta.
    destruct (Renderer.isInteracting _); [apply R; [keep s HC|frame s]|].
    destruct (Renderer.needsRerender _); [apply R; [keep s HC|frame s]|].
    left. frame s.
  - unfold Renderer.zoom. cbv zeta.
    destruct (_ || _); [now left|]. apply R; [keep s HC|frame s].
  - unfold Renderer.updateParams. cbv zeta.
    destruct (p_colorHue _) as [hue|]; [|apply R; [keep s HC|frame s]].
    destruct (Nat.eqb _ _); [|apply R; [keep s HC|frame s]].
    destruct (Renderer.iterationData _); [|apply R; [keep s HC|frame s]].
    unfold Renderer.recolor.
    destruct (Renderer.iterationData _); [|apply R; [keep s HC|frame s]].
    destruct (_ || _); [apply R; [keep s HC|frame s]|].
    destruct (_ || _); left; frame s.
  - unfold Renderer.setResolution. cbv zeta.
    match goal with |- context [if _ then Renderer.render ?s1 else _] =>
      assert (HC1 : Channel s1) end.
    { destruct HC as (Hcur & Hrs & Hl & Hh & Hls & Hhs & Hrq).
      destruct s. revert Hcur Hrs Hl Hh Hls Hhs Hrq. unfold Channel. unfold_compositor.
      cbn [tilesPerFrame tileSize]. intros Hcur Hrs Hl Hh Hls Hhs Hrq.
      repeat split; try assumption; try lia; apply Hrq; assumption. }
    destruct (negb _); [apply R; [exact HC1|frame s]|left; frame s].
  - left. frame s.
  - left. frame s.
  - left. unfold Renderer.onTileResponse. destruct (negb _); [reflexivity|]. cbv zeta.
    destruct (_ && _); frame s.
  - left. frame s.
Qed.

(** X29.  The quality profile follows the interaction.  Whenever a call
    posts to the worker, it posts one cancel and one render request, and
    the request carries the low-quality profile (8 tiles a batch) if the
    compositor is in interactive mode after the call, and the
    high-quality profile (4 tiles a batch) if it is not. *)
Theorem quality_follows_interaction (calls : list Call) (canvasW canvasH : Z)
    (v : Viewport) (p : FractalParams) (c : Call) :
  let s := applyCalls calls (Renderer.create canvasW canvasH v p) in
  let s' := applyCall c s in
  Renderer.posted s' <> Renderer.posted s ->
  exists rq,
    Renderer.posted s' = Renderer.posted s ++ [Cancel (Renderer.currentRequestId s); Render rq]
    /\ rq_requestId rq = (Renderer.currentRequestId s + 1)%Z
    /\ if Renderer.isInteracting s'
       then quality rq = Renderer.lowQuality s' /\ tilesPerFrame (quality rq) = 8%Z
       else quality rq = Renderer.highQuality s' /\ tilesPerFrame (quality rq) = 4%Z.
Proof.
  intros s s' Hne.
  destruct (reachable_invariant calls canvasW canvasH v p) as [HC _]. fold s in HC.
  destruct (applyCall_cases c s HC) as [E|(s1 & E & HC1 & Hp)]; [contradiction|].
  fold s' in E.
  destruct HC as (Hc0 & (rs & Hrs & Hids) & _).
  destruct HC1 as (Hc1 & (rs1 & Hrs1 & Hids1) & Hl & Hh & Hls & _).
  assert (Hcur : Renderer.currentRequestId s1 = Renderer.currentRequestId s).
  { assert (Hlen : length rs1 = length rs).
    { apply (f_equal (@length _)) in Hrs, Hrs1. rewrite Hp, Hrs in Hrs1.
      unfold requestPairs in Hrs1.
      rewrite !(flat_map_length_chunks _ 2) in Hrs1 by reflexivity. lia. }
    apply (f_equal (@length _)) in Hids, Hids1.
    rewrite length_map, zrange_length in Hids, Hids1.
    lia. }
  destruct (render_shape s1)
    as (_ & R2 & _ & _ & _ & _ & _ & _ & R9 & R10 & _ & _ & R13 & _).
  cbv zeta in R2, R10. rewrite <- E in R2, R9, R10, R13.
  rewrite R2, Hp, Hcur. eexists. split; [reflexivity|].
  split; [reflexivity|].
  rewrite R13, R9, R10. cbn [quality].
  destruct (Renderer.isInteracting s1).
  - split; [reflexivity|assumption].
  - split; [reflexivity|assumption].
Qed.

End CompositorFacts.

(** ** The buffer of [recolor] *)

Lemma recolorPixel_length (interacting : bool) (hue x : float) :
  length (Renderer.recolorPixel interacting hue x) = 4%nat.
Proof.
  unfold Renderer.recolorPixel. cbv zeta. destruct (x <? 0); [reflexivity|].
  destruct (Renderer.hsvToRgb _ _ _) as [[r g] b]. reflexivity.
Qed.

Lemma skipn_repeat {A : Type} (a : A) (k n : nat) :
  skipn k (repeat a n) = repeat a (n - k).
Proof.
  revert n. induction k as [|k IH]; intros n; [now rewrite Nat.sub_0_r|].
  destruct n as [|n]; [reflexivity|]. cbn [repeat skipn Nat.sub]. apply IH.
Qed.

(** X19.  The buffer that [recolor] puts on the overscan canvas has
    [4 * w * h] bytes; pixel [i] holds the colour of the cached value [i]
    as long as there is one, and is left transparent black where the cache
    has run out; cached values beyond the last pixel are dropped. *)
Theorem recolor_buffer_layout (interacting : bool) (hue : float)
    (cached : list float) (w h : Z) :
  (0 < w)%Z -> (0 < h)%Z ->
  let data := Renderer.recolorData interacting hue cached w h in
  length data = Z.to_nat (4 * w * h)
  /\ (forall i x, nth_error cached i = Some x -> (Z.of_nat i < w * h)%Z ->
        pixelAt data i = Renderer.recolorPixel interacting hue x)
  /\ (forall i, (length cached <= i)%nat -> (Z.of_nat i < w * h)%Z ->
        pixelAt data i = [0; 0; 0; 0]%Z).
Proof.
  intros Hw Hh. cbv zeta. unfold Renderer.recolorData, pixelAt. cbv zeta.
  set (size := Z.to_nat (4 * w * h)).
  set (flat := flat_map (Renderer.recolorPixel interacting hue) cached).
  assert (Hflat : length flat = (4 * length cached)%nat)
    by (apply flat_map_length_chunks; intros; apply recolorPixel_length).
  assert (Hwr : length (firstn size flat) = Nat.min size (4 * length cached))
    by (rewrite length_firstn, Hflat; reflexivity).
  split; [|split].
  - rewrite length_app, repeat_length, Hwr. lia.
  - intros i x Hx Hi.
    assert (Hlt : (i < length cached)%nat) by (apply nth_error_Some; congruence).
    assert (Hsz : (4 * i + 4 <= size)%nat) by (unfold size; nia).
    rewrite skipn_app, skipn_firstn_comm, Hwr.
    replace (4 * i - Nat.min size (4 * length cached))%nat with 0%nat by lia.
    cbn [skipn]. unfold flat.
    rewrite (flat_map_chunks _ 4) by (intros; apply recolorPixel_length).
    destruct (nth_error_split cached i Hx) as (l1 & l2 & -> & <-).
    rewrite skipn_app, skipn_all, Nat.sub_diag. cbn [skipn app flat_map].
    set (px := Renderer.recolorPixel interacting hue x).
    assert (Hpx : length px = 4%nat) by apply recolorPixel_length.
    set (rest := flat_map (Renderer.recolorPixel interacting hue) l2).
    assert (E : firstn (size - 4 * length l1) (px ++ rest)
                = px ++ firstn (size - 4 * length l1 - 4) rest)
      by (rewrite firstn_app, Hpx; f_equal; apply firstn_all2; lia).
    rewrite E, <- app_assoc, firstn_app, Hpx, Nat.sub_diag.
    rewrite firstn_O, app_nil_r. apply firstn_all2. lia.
  - intros i Hi Hlt.
    assert (Hsz : (4 * i + 4 <= size)%nat) by (unfold size; nia).
    rewrite skipn_app, skipn_all2 by (rewrite Hwr; lia).
    cbn [app]. rewrite Hwr, skipn_repeat.
    replace (size - Nat.min size (4 * length cached)
             - (4 * i - Nat.min size (4 * length cached)))%nat
      with (4 + (size - 4 * i - 4))%nat by lia.
    reflexivity.
Qed.

(** X12 after a wheel gesture: the answer to the first of the three
    requests is dropped. *)
Lemma answers_to_earlier_requests_are_dropped_witness :
  Renderer.onTileResponse firstResponse wheeledRenderer = wheeledRenderer.
Proof.
  apply (answers_to_earlier_requests_are_dropped (M := stubHost) wheelCalls
           2 2 unitViewport mandelbrotParams
           (removelast (Renderer.posted wheeledRenderer))
           (last (Renderer.posted wheeledRenderer) (Cancel 0))
           firstRequest firstResponse).
  - vm_compute. reflexivity.
  - vm_compute. right. left. reflexivity.
  - reflexivity.
Defined.

(** X21 after a wheel gesture. *)
Lemma overscan_belongs_to_latest_request_witness :
  exists pre r,
    Renderer.posted wheeledRenderer = pre ++ [Render r]
    /\ rq_requestId r = 3%Z
    /\ width (Renderer.overscanCanvas wheeledRenderer) = canvasWidth r.
Proof.
  destruct (overscan_belongs_to_latest_request (M := stubHost) wheelCalls
              2 2 unitViewport mandelbrotParams)
    as (pre & r & H1 & H2 & _ & H4 & _); [vm_compute; discriminate|].
  exists pre, r. split; [exact H1|]. split; [exact H2|exact H4].
Defined.

(** X14 on a renderer with nine cached values. *)
Lemma hue_update_posts_nothing_after_first_render_witness :
  Renderer.posted
    (Renderer.updateParams (M := stubHost) (onlyHue 120)
       (applyCalls (M := stubHost) cachedCalls
          (Renderer.create 2 2 unitViewport mandelbrotParams)))
  = Renderer.posted
      (applyCalls (M := stubHost) cachedCalls
         (Renderer.create 2 2 unitViewport mandelbrotParams)).
Proof.
  destruct (hue_update_posts_nothing_after_first_render (M := stubHost) cachedCalls
              2 2 unitViewport mandelbrotParams (onlyHue 120) 120 cachedEights)
    as [H _]; [vm_compute; reflexivity | reflexivity | reflexivity |].
  destruct H as [H _]; [vm_compute; discriminate|]. exact H.
Defined.


(** X13 during a drag: the final tile of the current request leaves the
    background alone. *)
Lemma background_kept_unless_saved_witness :
  Renderer.backgroundViewport
    (applyCall (M := stubHost) (CallOp (OpTile firstResponse)) draggingRenderer)
  = Renderer.backgroundViewport draggingRenderer.
Proof.
  destruct (background_kept_unless_saved (M := stubHost) (CallOp (OpTile firstResponse))
              draggingRenderer) as [_ H]; [vm_compute; reflexivity|].
  exact H.
Defined.

(** X15 after a wheel gesture from the default view. *)
Lemma zoom_stays_within_limits_witness :
  is_nan (zoom (Renderer.viewport wheeledRenderer)) = true
  \/ ((Renderer.minZoom <=? zoom (Renderer.viewport wheeledRenderer)) = true
      /\ (zoom (Renderer.viewport wheeledRenderer) <=? Renderer.maxZoom) = true).
Proof.
  exact (zoom_stays_within_limits (M := stubHost) wheelCalls 2 2 unitViewport
           mandelbrotParams (conj eq_refl eq_refl)).
Defined.

(** X16 on the renderer at rest. *)
Lemma zoom_accepts_nan_witness :
  Renderer.currentRequestId (Renderer.zoom (M := stubHost) nan None restingRenderer)
  = (Renderer.currentRequestId restingRenderer + 1)%Z
  /\ is_nan (zoom (Renderer.viewport (Renderer.zoom (M := stubHost) nan None restingRenderer)))
     = true.
Proof.
  exact (zoom_accepts_nan (M := stubHost) nan None restingRenderer (or_introl eq_refl)).
Defined.

(** X17 on the renderer at rest, at twice the resolution: the request
    asks for 128 iterations, not 512. *)
Lemma resolution_never_sets_iteration_limit_witness :
  exists rq,
    Renderer.posted (Renderer.setResolution (M := stubHost) 2 restingRenderer)
    = Renderer.posted restingRenderer
      ++ [Cancel (Renderer.currentRequestId restingRenderer); Render rq]
    /\ maxIterations (quality rq) = 128%Z.
Proof.
  destruct (resolution_never_sets_iteration_limit (M := stubHost) 2 restingRenderer)
    as (rq & H1 & H2 & _);
    [vm_compute; reflexivity | vm_compute; reflexivity | vm_compute; reflexivity |].
  exists rq. split; [exact H1|]. rewrite H2. vm_compute. reflexivity.
Defined.

(** X19 for nine cached values on the 3 x 3 overscan buffer. *)
Lemma recolor_buffer_layout_witness :
  length (Renderer.recolorData false 120 cachedEights 3 3) = 36%nat.
Proof.
  apply (recolor_buffer_layout false 120 cachedEights 3 3); lia.
Defined.

(** X28 for the first render of a 2 x 2 canvas. *)
Lemma finished_render_reaches_background_witness :
  exists r k st' responses,
    last (Renderer.posted
            (applyCalls (M := stubHost) [CallOp OpRender]
               (Renderer.create 2 2 unitViewport mandelbrotParams))) (Cancel 0)
    = Render r
    /\ Worker.run (M := stubHost) Worker.initial
         (Worker.Message (Render r) :: repeat Worker.Timeout k) = Some st'
    /\ Worker.outbox st' = Worker.outbox Worker.initial ++ responses
    /\ Worker.timers st' = []
    /\ Renderer.backgroundViewport
         (fold_left (fun s response => Renderer.onTileResponse response s) responses
            (applyCalls (M := stubHost) [CallOp OpRender]
               (Renderer.create 2 2 unitViewport mandelbrotParams)))
       = Some (rq_viewport r).
Proof.
  destruct (finished_render_reaches_background (M := stubHost) [CallOp OpRender]
              2 2 unitViewport mandelbrotParams Worker.initial)
    as (r & k & st' & responses & H1 & H2 & H3 & H4 & H5 & _);
    [reflexivity | vm_compute; discriminate | reflexivity | reflexivity | reflexivity
    | reflexivity |].
  exists r, k, st', responses. repeat split; assumption.
Defined.

(** X29 for the zoom of a wheel gesture: the request is a low-quality
    one. *)
Lemma quality_follows_interaction_witness :
  exists rq,
    Renderer.posted
      (applyCall (M := stubHost) (CallOp (OpZoom 1.05 (Some (1, 1))))
         (applyCalls (M := stubHost) [CallOp OpRender; CallOp OpStartInteraction]
            (Renderer.create 2 2 unitViewport mandelbrotParams)))
    = Renderer.posted
        (applyCalls (M := stubHost) [CallOp OpRender; CallOp OpStartInteraction]
           (Renderer.create 2 2 unitViewport mandelbrotParams))
      ++ [Cancel 1; Render rq]
    /\ tilesPerFrame (quality rq) = 8%Z.
Proof.
  destruct (quality_follows_interaction (M := stubHost)
              [CallOp OpRender; CallOp OpStartInteraction]
              2 2 unitViewport mandelbrotParams (CallOp (OpZoom 1.05 (Some (1, 1)))))
    as (rq & H1 & _ & H2); [vm_compute; discriminate|].
  exists rq. split; [exact H1|].
  change (Renderer.isInteracting
            (applyCall (M := stubHost) (CallOp (OpZoom 1.05 (Some (1, 1))))
               (applyCalls (M := stubHost) [CallOp OpRender; CallOp OpStartInteraction]
                  (Renderer.create 2 2 unitViewport mandelbrotParams)))) with true in H2.
  apply H2.
Defined.

(** * Further properties of the iteration engine *)

Section IterationForms.
Context {M : MathHost}.



Lemma computePixel_complex_from_origin (x0 y0 : float) (params : FractalParams)
    (maxIterations : Z) :
  (imagExponent params === 0) = false ->
  realZ0 params = 0 -> imagZ0 params = 0 ->
  Worker.computePixel x0 y0 params maxIterations false = -1.
Proof.
  intros Him Hr Hi. unfold Worker.computePixel, Worker.computePixelRun.
  destruct (negb false && _); [reflexivity|]. cbv zeta. rewrite Hr, Hi.
  destruct (Z.to_nat maxIterations) as [|fuel]; [reflexivity|].
  cbn [Worker.escapeLoop]. rewrite Him, andb_false_r.
  change (0 * 0 + 0 * 0 >? 4) with false. cbv iota.
  change (PrimFloat.sqrt (0 * 0 + 0 * 0) <? 1e-10) with true. reflexivity.
Qed.

(** X23.  With an exponent that has an imaginary part (anything but
    [imagExponent === 0]) and [z0 = 0], the Mandelbrot-mode iteration
    stops at its very first update, at the guard against [log 0]: every
    point is reported inside, and every pixel of every tile computed in
    that mode is black. *)
Theorem complex_exponent_from_origin_is_black
    (tileX tileY tileWidth tileHeight canvasW canvasH : Z)
    (viewport : Viewport) (params : FractalParams) (maxIterations : Z) :
  (imagExponent params === 0) = false ->
  realZ0 params = 0 -> imagZ0 params = 0 ->
  isJuliaSet params = false ->
  (forall x0 y0, Worker.computePixel x0 y0 params maxIterations false = -1)
  /\ (forall px py, (0 <= px < tileWidth)%Z -> (0 <= py < tileHeight)%Z ->
        tilePixel (Worker.computeTile tileX tileY tileWidth tileHeight canvasW canvasH
                     viewport params maxIterations) px py
        = [0; 0; 0; 255]%Z).
Proof.
  intros Him Hr Hi Hmode.
  split; [intros; now apply computePixel_complex_from_origin|].
  intros px py Hpx Hpy. rewrite computeTile_pixel by assumption.
  destruct (pixelToPlane _ _ _ _ _) as [x0 y0]. rewrite Hmode.
  rewrite computePixel_complex_from_origin by assumption. reflexivity.
Qed.

End IterationForms.

(** X23 for the exponent [2 + 0.5 i]. *)
Lemma complex_exponent_from_origin_is_black_witness :
  tilePixel
    (Worker.computeTile (M := stubHost) 0 0 2 2 4 4 unitViewport
       {| realZ0 := 0; imagZ0 := 0; realC := 0; imagC := 0;
          exponent := 2; imagExponent := 0.5; colorHue := 200 |} 64) 1 1
  = [0; 0; 0; 255]%Z.
Proof.
  apply (complex_exponent_from_origin_is_black (M := stubHost) 0 0 2 2 4 4 unitViewport
           {| realZ0 := 0; imagZ0 := 0; realC := 0; imagC := 0;
              exponent := 2; imagExponent := 0.5; colorHue := 200 |} 64);
    try reflexivity; lia.
Defined.

(** * Properties of the page's parameter controls *)

Lemma handle_othersDefault (a : Page.Action) (st : Page.State) :
  othersDefault st -> othersDefault (Page.handle a st).
Proof.
  unfold othersDefault. cbv zeta.
  destruct a as [key value|newPerspective|v|]; cbn [Page.handle].
  - unfold Page.updatePerspectiveParam. cbv zeta. cbn [Page.perspective Page.params].
    destruct (Page.perspective st), key; cbn; exact (fun H => H).
  - intros _. destruct newPerspective; cbn; repeat split.
  - unfold Page.setColorHue. cbn [Page.perspective Page.params].
    destruct (Page.perspective st); cbn; exact (fun H => H).
  - intros _. cbn. repeat split.
Qed.

Lemma handleAll_othersDefault (actions : list Page.Action) : forall st,
  othersDefault st -> othersDefault (Page.handleAll actions st).
Proof.
  unfold Page.handleAll. induction actions as [|a actions IH]; intros st H;
    cbn [fold_left]; [exact H|]. apply IH. now apply handle_othersDefault.
Qed.

Lemma initial_othersDefault : othersDefault Page.initial.
Proof. cbn. repeat split. Qed.

(** X24.  Whatever the user does to the parameter controls, the page's
    parameters differ from the defaults only in the pair the perspective
    selects, and the worker's mode follows the perspective: Julia mode is
    chosen exactly in perspective [c] with a constant more than 0.001
    away from the origin in one coordinate; perspectives [z0] and [k] are
    always drawn in Mandelbrot mode. *)
Theorem page_mode_follows_perspective (actions : list Page.Action) :
  let st := Page.handleAll actions Page.initial in
  othersDefault st
  /\ isJuliaSet (Page.params st)
     = match Page.perspective st with
       | Page.C => (abs (realC (Page.params st) - 0) >? 0.001)
                   || (abs (imagC (Page.params st)) >? 0.001)
       | _ => false
       end.
Proof.
  intros st.
  assert (H : othersDefault st) by apply handleAll_othersDefault, initial_othersDefault.
  split; [exact H|]. unfold othersDefault in H. cbv zeta in H. unfold isJuliaSet.
  destruct (Page.perspective st).
  - destruct H as (-> & -> & _). reflexivity.
  - destruct H as (-> & -> & _).
    change (abs 0 <? 0.001) with true. now rewrite andb_true_r.
  - destruct H as (_ & _ & -> & ->). reflexivity.
Qed.

Section PageAndWorker.
Context {M : MathHost}.

(** X25.  In perspective [k], as soon as the exponent has an imaginary
    part, every tile the worker computes for the page's parameters is
    black all over, whatever the viewport and the iteration limit. *)
Theorem page_complex_exponent_is_black (actions : list Page.Action)
    (tileX tileY tileWidth tileHeight canvasW canvasH : Z)
    (viewport : Viewport) (maxIterations : Z) (px py : Z) :
  let st := Page.handleAll actions Page.initial in
  Page.perspective st = Page.K ->
  (imagExponent (Page.params st) === 0) = false ->
  (0 <= px < tileWidth)%Z -> (0 <= py < tileHeight)%Z ->
  tilePixel (Worker.computeTile tileX tileY tileWidth tileHeight canvasW canvasH
               viewport (Page.params st) maxIterations) px py
  = [0; 0; 0; 255]%Z.
Proof.
  intros st HK Him Hpx Hpy.
  assert (H : othersDefault st) by apply handleAll_othersDefault, initial_othersDefault.
  unfold othersDefault in H. cbv zeta in H. rewrite HK in H.
  destruct H as (Hr & Hi & Hcr & Hci).
  rewrite computeTile_pixel by assumption.
  destruct (pixelToPlane _ _ _ _ _) as [x0 y0].
  assert (Hmode : isJuliaSet (Page.params st) = false)
    by (unfold isJuliaSet; rewrite Hcr, Hci; reflexivity).
  rewrite Hmode, computePixel_complex_from_origin by assumption. reflexivity.
Qed.

End PageAndWorker.

(** X25 after the user has set the exponent to [2 + 0.5 i]. *)
Lemma page_complex_exponent_is_black_witness :
  tilePixel
    (Worker.computeTile (M := stubHost) 0 0 2 2 4 4 unitViewport
       (Page.params (Page.handleAll complexExponentActions Page.initial)) 64) 1 1
  = [0; 0; 0; 255]%Z.
Proof.
  apply (page_complex_exponent_is_black (M := stubHost) complexExponentActions
           0 0 2 2 4 4 unitViewport 64 1 1); try reflexivity; lia.
Defined.

(** * Properties of the flower graphs *)

Lemma add_old (x n : nat) : (x < n)%nat -> Flowers.add x (seq 0 n) = seq 0 n.
Proof.
  intros H. unfold Flowers.add.
  replace (existsb (Nat.eqb x) (seq 0 n)) with true; [reflexivity|].
  symmetry. apply existsb_exists. exists x. split; [|apply Nat.eqb_refl].
  apply in_seq. lia.
Qed.

Lemma add_new (n : nat) : Flowers.add n (seq 0 n) = seq 0 (S n).
Proof.
  unfold Flowers.add.
  replace (existsb (Nat.eqb n) (seq 0 n)) with false; [now rewrite seq_S|].
  symmetry. apply not_true_is_false. intros H.
  apply existsb_exists in H as (y & Hy & E). apply Nat.eqb_eq in E. subst y.
  apply in_seq in Hy. lia.
Qed.

Lemma linkChain_cons (suffix : nat -> Flowers.Suffix) (edge : Flowers.SPEdge) (gen : Z)
    (i a b : nat) (rest nodes : list nat) (E : list Flowers.SPEdge) :
  Flowers.linkChain suffix edge gen i (a :: b :: rest) nodes E
  = Flowers.linkChain suffix edge gen (S i) (b :: rest)
      (Flowers.add b (Flowers.add a nodes))
      (E ++ [{| Flowers.id := Flowers.id edge ++ [suffix i];
                Flowers.source := a; Flowers.target := b;
                Flowers.generation := gen |}]).
Proof. reflexivity. Qed.

(** Linking a chain over [k] new nodes adds these nodes, in order, and
    [k + 1] edges between nodes. *)
Lemma linkChain_spec (suffix : nat -> Flowers.Suffix) (edge : Flowers.SPEdge) (gen : Z)
    (b : nat) (k : nat) : forall (a n i : nat) (E : list Flowers.SPEdge),
  (a < n)%nat -> (b < n)%nat ->
  exists new,
    Flowers.linkChain suffix edge gen i (a :: seq n k ++ [b]) (seq 0 n) E
    = (seq 0 (n + k), E ++ new)
    /\ length new = S k
    /\ Forall (fun e => (Flowers.source e < n + k)%nat /\ (Flowers.target e < n + k)%nat) new.
Proof.
  induction k as [|k IH]; intros a n i E Ha Hb.
  - cbn [seq app]. rewrite linkChain_cons. cbn [Flowers.linkChain].
    rewrite (add_old a n Ha), (add_old b n Hb).
    eexists. rewrite Nat.add_0_r. split; [reflexivity|]. split; [reflexivity|].
    constructor; [cbn; lia|constructor].
  - cbn [seq app]. rewrite linkChain_cons, (add_old a n Ha), add_new.
    destruct (IH n (S n) (S i)
                (E ++ [{| Flowers.id := Flowers.id edge ++ [suffix i];
                          Flowers.source := a; Flowers.target := n;
                          Flowers.generation := gen |}]))
      as (new & H1 & H2 & H3); [lia|lia|].
    eexists. rewrite H1, <- app_assoc. cbn [app].
    replace (S n + k)%nat with (n + S k)%nat by lia.
    split; [reflexivity|]. split; [cbn [length]; now rewrite H2|].
    constructor; [cbn; lia|].
    eapply Forall_impl; [|exact H3]. cbn. intros e. lia.
Qed.

(** The state of a generation's loops is in order: the node set is
    [n0 .. n(nodeId - 1)] and every edge at hand joins two of them. *)
Lemma pushChain_spec (suffix : nat -> Flowers.Suffix) (count gen : Z)
    (edge : Flowers.SPEdge) (b : Flowers.Build) :
  Flowers.nodeSet b = seq 0 (Flowers.nodeId b) ->
  (Flowers.source edge < Flowers.nodeId b)%nat ->
  (Flowers.target edge < Flowers.nodeId b)%nat ->
  let b' := Flowers.pushChain suffix count gen edge b in
  Flowers.nodeId b' = (Flowers.nodeId b + Z.to_nat (count - 1))%nat
  /\ Flowers.nodeSet b' = seq 0 (Flowers.nodeId b')
  /\ exists new,
       Flowers.newEdges b' = Flowers.newEdges b ++ new
       /\ length new = S (Z.to_nat (count - 1))
       /\ Forall (fun e => (Flowers.source e < Flowers.nodeId b')%nat
                           /\ (Flowers.target e < Flowers.nodeId b')%nat) new.
Proof.
  intros Hn Hs Ht. unfold Flowers.pushChain. cbv zeta. rewrite Hn.
  destruct (linkChain_spec suffix edge gen (Flowers.target edge) (Z.to_nat (count - 1))
              (Flowers.source edge) (Flowers.nodeId b) 0 (Flowers.newEdges b) Hs Ht)
    as (new & H1 & H2 & H3).
  rewrite H1. cbn. split; [reflexivity|]. split; [reflexivity|].
  exists new. repeat split; assumption.
Qed.

Lemma replaceEdge_spec (u v gen : Z) (edge : Flowers.SPEdge) (b : Flowers.Build) :
  Flowers.nodeSet b = seq 0 (Flowers.nodeId b) ->
  (Flowers.source edge < Flowers.nodeId b)%nat ->
  (Flowers.target edge < Flowers.nodeId b)%nat ->
  let b' := Flowers.replaceEdge u v gen b edge in
  Flowers.nodeId b'
  = (Flowers.nodeId b + (Z.to_nat (u - 1) + Z.to_nat (v - 1)))%nat
  /\ Flowers.nodeSet b' = seq 0 (Flowers.nodeId b')
  /\ exists new,
       Flowers.newEdges b' = Flowers.newEdges b ++ new
       /\ length new = (Z.to_nat (u - 1) + Z.to_nat (v - 1) + 2)%nat
       /\ Forall (fun e => (Flowers.source e < Flowers.nodeId b')%nat
                           /\ (Flowers.target e < Flowers.nodeId b')%nat) new.
Proof.
  intros Hn Hs Ht. unfold Flowers.replaceEdge. cbv zeta.
  destruct (pushChain_spec Flowers.U u gen edge b Hn Hs Ht)
    as (U1 & U2 & newU & U3 & U4 & U5).
  set (bu := Flowers.pushChain Flowers.U u gen edge b) in *.
  destruct (pushChain_spec Flowers.V v gen edge bu U2)
    as (V1 & V2 & newV & V3 & V4 & V5); [lia|lia|].
  set (bv := Flowers.pushChain Flowers.V v gen edge bu) in *.
  split; [lia|]. split; [exact V2|].
  exists (newU ++ newV). rewrite V3, U3, <- app_assoc. split; [reflexivity|].
  split; [rewrite length_app; lia|].
  apply Forall_app. split; [|exact V5].
  eapply Forall_impl; [|exact U5]. cbn. intros e. lia.
Qed.

Lemma replaceEdges_spec (u v gen : Z) (todo : list Flowers.SPEdge) :
  forall b : Flowers.Build,
  Flowers.nodeSet b = seq 0 (Flowers.nodeId b) ->
  Forall (fun e => (Flowers.source e < Flowers.nodeId b)%nat
                   /\ (Flowers.target e < Flowers.nodeId b)%nat) todo ->
  Forall (fun e => (Flowers.source e < Flowers.nodeId b)%nat
                   /\ (Flowers.target e < Flowers.nodeId b)%nat) (Flowers.newEdges b) ->
  let b' := fold_left (Flowers.replaceEdge u v gen) todo b in
  Flowers.nodeId b'
  = (Flowers.nodeId b + length todo * (Z.to_nat (u - 1) + Z.to_nat (v - 1)))%nat
  /\ Flowers.nodeSet b' = seq 0 (Flowers.nodeId b')
  /\ length (Flowers.newEdges b')
     = (length (Flowers.newEdges b)
        + length todo * (Z.to_nat (u - 1) + Z.to_nat (v - 1) + 2))%nat
  /\ Forall (fun e => (Flowers.source e < Flowers.nodeId b')%nat
                      /\ (Flowers.target e < Flowers.nodeId b')%nat) (Flowers.newEdges b').
Proof.
  induction todo as [|edge todo IH]; intros b Hn Htodo Hnew; cbn [fold_left].
  - cbn. repeat split; try lia; assumption.
  - inversion Htodo as [|? ? [Hs Ht] Hrest]; subst.
    destruct (replaceEdge_spec u v gen edge b Hn Hs Ht) as (R1 & R2 & new & R3 & R4 & R5).
    set (b1 := Flowers.replaceEdge u v gen b edge) in *.
    destruct (IH b1 R2) as (I1 & I2 & I3 & I4).
    + eapply Forall_impl; [|exact Hrest]. cbn. intros e. lia.
    + rewrite R3. apply Forall_app. split; [|exact R5].
      eapply Forall_impl; [|exact Hnew]. cbn. intros e. lia.
    + cbv zeta. split; [cbn [length]; lia|]. split; [exact I2|].
      split; [|exact I4]. rewrite I3, R3, length_app, R4. cbn [length]. lia.
Qed.

(** The two loops over the generations, side by side: the construction
    and the projection agree on the number of nodes and of edges. *)
Lemma generations_agree (u v : Z) (gens : list Z) :
  (1 <= u)%Z -> (1 <= v)%Z ->
  forall (next : nat) (nodes0 : list nat) (edges0 : list Flowers.SPEdge)
         (totalNodes currentEdges : Z),
  nodes0 = seq 0 next ->
  Forall (fun e => (Flowers.source e < next)%nat /\ (Flowers.target e < next)%nat) edges0 ->
  totalNodes = Z.of_nat next ->
  currentEdges = Z.of_nat (length edges0) ->
  let '(next', nodes', edges') :=
    fold_left (Flowers.generationStep u v) gens (next, nodes0, edges0) in
  let '(totalNodes', currentEdges') :=
    fold_left
      (fun (st : Z * Z) (_ : Z) =>
         let '(totalNodes, currentEdges) := st in
         let newNodes := (currentEdges * ((u - 1) + (v - 1)))%Z in
         ((totalNodes + newNodes)%Z, (currentEdges * (u + v))%Z))
      gens (totalNodes, currentEdges) in
  nodes' = seq 0 next'
  /\ Forall (fun e => (Flowers.source e < next')%nat /\ (Flowers.target e < next')%nat) edges'
  /\ totalNodes' = Z.of_nat next'
  /\ currentEdges' = Z.of_nat (length edges')
  /\ currentEdges' = (currentEdges * (u + v) ^ Z.of_nat (length gens))%Z.
Proof.
  intros Hu Hv. induction gens as [|gen gens IH];
    intros next nodes0 edges0 totalNodes currentEdges Hn He Ht Hc.
  - cbn [fold_left length]. repeat split; try assumption. cbn. lia.
  - cbn [fold_left]. unfold Flowers.generationStep at 2.
    destruct (replaceEdges_spec u v gen edges0
                {| Flowers.nodeId := next; Flowers.nodeSet := nodes0;
                   Flowers.newEdges := [] |} Hn He (Forall_nil _))
      as (R1 & R2 & R3 & R4).
    set (b := fold_left (Flowers.replaceEdge u v gen) edges0 _) in *.
    cbn [Flowers.nodeId Flowers.nodeSet Flowers.newEdges length Nat.add] in R1, R3.
    specialize (IH (Flowers.nodeId b) (Flowers.nodeSet b) (Flowers.newEdges b)
                  (totalNodes + currentEdges * (u - 1 + (v - 1)))%Z
                  (currentEdges * (u + v))%Z R2 R4).
    cbv zeta.
    destruct (fold_left (Flowers.generationStep u v) gens _) as [[next' nodes'] edges'].
    destruct (fold_left _ gens (_, _)) as [totalNodes' currentEdges'].
    destruct IH as (I1 & I2 & I3 & I4 & I5).
    + rewrite R1, Ht, Hc. nia.
    + rewrite R3, Hc. nia.
    + repeat split; try assumption.
      rewrite I5. cbn [length]. rewrite Nat2Z.inj_succ, Z.pow_succ_r by lia. ring.
Qed.

Lemma projection_grows (u v : Z) (gens : list Z) :
  (1 <= u)%Z -> (1 <= v)%Z ->
  forall totalNodes currentEdges : Z,
  (0 <= totalNodes)%Z -> (1 <= currentEdges)%Z ->
  let '(totalNodes', currentEdges') :=
    fold_left
      (fun (st : Z * Z) (_ : Z) =>
         let '(totalNodes, currentEdges) := st in
         let newNodes := (currentEdges * ((u - 1) + (v - 1)))%Z in
         ((totalNodes + newNodes)%Z, (currentEdges * (u + v))%Z))
      gens (totalNodes, currentEdges) in
  (totalNodes <= totalNodes')%Z /\ (currentEdges <= currentEdges')%Z.
Proof.
  intros Hu Hv. induction gens as [|gen gens IH]; intros t e Ht He.
  - cbn [fold_left]. lia.
  - cbn [fold_left]. cbv zeta.
    specialize (IH (t + e * (u - 1 + (v - 1)))%Z (e * (u + v))%Z).
    destruct (fold_left _ gens _) as [t' e'].
    destruct IH; nia.
Qed.

(** The projection in binary64 and in exact integers, side by side: as
    long as the integers stay below 2^53 the numbers computed denote
    them. *)
Lemma projections_agree (u v : Z) :
  (1 <= u)%Z -> (1 <= v)%Z ->
  forall gens : list Z,
  let '(totalNodes, currentEdges) :=
    fold_left
      (fun (st : Z * Z) (_ : Z) =>
         let '(totalNodes, currentEdges) := st in
         let newNodes := (currentEdges * ((u - 1) + (v - 1)))%Z in
         ((totalNodes + newNodes)%Z, (currentEdges * (u + v))%Z))
      gens (2%Z, 1%Z) in
  (totalNodes < 2 ^ 53)%Z -> (currentEdges < 2 ^ 53)%Z ->
  fold_left
    (fun (st : float * float) (_ : Z) =>
       let '(totalNodes, currentEdges) := st in
       let newNodes := currentEdges * ((JS.ofZ u - 1) + (JS.ofZ v - 1)) in
       (totalNodes + newNodes, currentEdges * (JS.ofZ u + JS.ofZ v)))
    gens (2, 1)
  = (JS.ofZ totalNodes, JS.ofZ currentEdges).
Proof.
  intros Hu Hv gens.
  set (stepZ := fun (st : Z * Z) (_ : Z) => let '(totalNodes, currentEdges) := st in _).
  set (stepF := fun (st : float * float) (_ : Z) =>
                  let '(totalNodes, currentEdges) := st in _).
  induction gens as [|gen gens IH] using rev_ind.
  - cbn [fold_left]. intros _ _. reflexivity.
  - rewrite !fold_left_app. cbn [fold_left].
    pose proof (projection_grows u v gens Hu Hv 2 1 ltac:(lia) ltac:(lia)) as Hg.
    cbv zeta in Hg. fold stepZ in Hg.
    destruct (fold_left stepZ gens (2%Z, 1%Z)) as [t e].
    destruct Hg as [Ht2 He1]. unfold stepZ at 1. cbv beta iota zeta.
    intros Ht He.
    assert (Hc : (0 <= u - 1 + (v - 1))%Z) by lia.
    rewrite IH by nia. unfold stepF. cbv zeta.
    change 1 with (JS.ofZ 1).
    rewrite !ofZ_sub by nia.
    rewrite (ofZ_add (u - 1) (v - 1)) by nia.
    rewrite (ofZ_add u v) by nia.
    rewrite !ofZ_mul by nia.
    rewrite ofZ_add by nia.
    reflexivity.
Qed.

Lemma gtb_100 (n : Z) : (0 <= n)%Z -> (n < 2 ^ 53)%Z -> (JS.ofZ n >? 100) = (100 <? n)%Z.
Proof.
  intros H0 H. unfold JS.gtb. change 100 with (JS.ofZ 100).
  destruct (Z.eq_dec n 0) as [->|Hn]; [reflexivity|].
  apply ofZ_ltb; lia.
Qed.

(** Below 2^53 the number [calculateFlowersNodeCount] returns is the
    exact projection. *)
Lemma projection_exact (u v generations : Z) :
  (1 <= u)%Z -> (1 <= v)%Z -> safeIntegers u v generations ->
  Flowers.calculateFlowersNodeCount u v generations
  = JS.ofZ (flowerNodeCount u v generations).
Proof.
  intros Hu Hv [Hs1 Hs2]. revert Hs2.
  unfold Flowers.calculateFlowersNodeCount, flowerNodeCount.
  pose proof (projections_agree u v Hu Hv (zrange 1 (generations + 1))) as H.
  pose proof (generations_agree u v (zrange 1 (generations + 1)) Hu Hv 2 [0; 1]%nat
                [{| Flowers.id := []; Flowers.source := 0; Flowers.target := 1;
                    Flowers.generation := 0 |}] 2 1 eq_refl) as G.
  destruct (fold_left (Flowers.generationStep u v) _ _) as [[next' nodes'] edges'].
  destruct (fold_left _ _ (2%Z, 1%Z)) as [totalNodes currentEdges].
  destruct G as (_ & _ & _ & _ & G5); [|reflexivity|reflexivity|].
  { constructor; [cbn; lia|constructor]. }
  rewrite zrange_length in G5.
  change (fst (totalNodes, currentEdges)) with totalNodes. intros Hs2.
  cbv zeta in H |- *. rewrite H; [reflexivity|exact Hs2|].
  rewrite G5, Z.mul_1_l. replace (Z.of_nat (Z.to_nat (generations + 1 - 1)))
    with (Z.max 0 generations) by lia. exact Hs1.
Qed.

(** X26.  For [u, v >= 1] and as long as the integers of the projection
    stay below 2^53, the number [calculateFlowersNodeCount] returns is
    exactly the number of nodes of the graph [buildSeriesParallelGraph]
    builds: the node set is [n0, n1, ..., n(N-1)] in creation order, each
    once; the graph has [(u + v) ^ generations] edges, each joining two
    of these nodes. *)
Theorem flowers_node_count_is_exact (u v generations : Z) :
  (1 <= u)%Z -> (1 <= v)%Z -> safeIntegers u v generations ->
  let g := Flowers.buildSeriesParallelGraph u v generations in
  let N := flowerNodeCount u v generations in
  Flowers.calculateFlowersNodeCount u v generations = JS.ofZ N
  /\ Flowers.nodes g = seq 0 (Z.to_nat N)
  /\ Z.of_nat (length (Flowers.nodes g)) = N
  /\ Z.of_nat (length (Flowers.edges g)) = ((u + v) ^ Z.max 0 generations)%Z
  /\ Forall (fun e => In (Flowers.source e) (Flowers.nodes g)
                      /\ In (Flowers.target e) (Flowers.nodes g)) (Flowers.edges g).
Proof.
  intros Hu Hv Hs. cbv zeta. split; [now apply projection_exact|].
  unfold Flowers.buildSeriesParallelGraph, flowerNodeCount. cbv zeta.
  pose proof (generations_agree u v (zrange 1 (generations + 1)) Hu Hv 2 [0; 1]%nat
                [{| Flowers.id := []; Flowers.source := 0; Flowers.target := 1;
                    Flowers.generation := 0 |}] 2 1 eq_refl) as H.
  destruct (fold_left (Flowers.generationStep u v) _ _) as [[next' nodes'] edges'].
  destruct (fold_left _ _ (2%Z, 1%Z)) as [totalNodes' currentEdges'].
  destruct H as (H1 & H2 & H3 & H4 & H5); [|reflexivity|reflexivity|].
  { constructor; [cbn; lia|constructor]. }
  cbn [fst Flowers.nodes Flowers.edges].
  rewrite zrange_length in H5.
  split; [rewrite H1, H3, Nat2Z.id; reflexivity|].
  split; [rewrite H1, length_seq; lia|].
  split.
  - rewrite <- H4, H5. rewrite Z.mul_1_l. f_equal. lia.
  - eapply Forall_impl; [|exact H2]. cbn. intros e [Hs' Ht]. rewrite H1.
    split; apply in_seq; lia.
Qed.

(** X27.  As long as the integers of the projection stay below 2^53, a
    graph that passes the checks of [generateFlowers] has at most 100
    nodes, no node twice, and every edge joins two of its nodes: the
    limit, tested on the number [calculateFlowersNodeCount] returns, is
    enforced on the true size. *)
Theorem accepted_flowers_respect_limit (u v generations : Z) (g : Flowers.SPGraph) :
  safeIntegers u v generations ->
  Flowers.generateFlowersGraph u v generations = Some g ->
  (length (Flowers.nodes g) <= 100)%nat
  /\ NoDup (Flowers.nodes g)
  /\ Forall (fun e => In (Flowers.source e) (Flowers.nodes g)
                      /\ In (Flowers.target e) (Flowers.nodes g)) (Flowers.edges g).
Proof.
  intros Hs. unfold Flowers.generateFlowersGraph.
  destruct (Z.ltb_spec u 2) as [|Hu]; [discriminate|].
  destruct (Z.ltb_spec v u) as [|Hv]; [discriminate|]. cbn [orb].
  destruct (Z.ltb_spec generations 1) as [|Hg]; [discriminate|]. cbv zeta.
  rewrite (projection_exact u v generations) by (lia || exact Hs).
  destruct Hs as [_ Hs2]. revert Hs2.
  unfold Flowers.buildSeriesParallelGraph, flowerNodeCount. cbv zeta.
  pose proof (generations_agree u v (zrange 1 (generations + 1)) ltac:(lia) ltac:(lia)
                2 [0; 1]%nat
                [{| Flowers.id := []; Flowers.source := 0; Flowers.target := 1;
                    Flowers.generation := 0 |}] 2 1 eq_refl) as H.
  destruct (fold_left (Flowers.generationStep u v) _ _) as [[next' nodes'] edges'].
  destruct (fold_left _ _ (2%Z, 1%Z)) as [totalNodes' currentEdges'].
  destruct H as (H1 & H2 & H3 & _); [|reflexivity|reflexivity|].
  { constructor; [cbn; lia|constructor]. }
  cbn [fst Flowers.nodes Flowers.edges]. intros Hs2.
  rewrite gtb_100 by lia.
  destruct (Z.ltb_spec 100 totalNodes') as [|Hc]; [discriminate|].
  intros [= <-]. cbn [Flowers.nodes Flowers.edges]. rewrite H1.
  split; [rewrite length_seq; lia|]. split; [apply seq_NoDup|].
  eapply Forall_impl; [|exact H2]. cbn. intros e [Hs' Ht].
  split; apply in_seq; lia.
Qed.

(** X26 for the (2, 3)-flower of the second generation: 20 nodes, 25
    edges. *)
Lemma flowers_node_count_is_exact_witness :
  Flowers.calculateFlowersNodeCount 2 3 2 = 20
  /\ Z.of_nat (length (Flowers.nodes (Flowers.buildSeriesParallelGraph 2 3 2))) = 20%Z
  /\ Z.of_nat (length (Flowers.edges (Flowers.buildSeriesParallelGraph 2 3 2))) = 25%Z.
Proof.
  destruct (flowers_node_count_is_exact 2 3 2) as (H1 & _ & H2 & H3 & _);
    [lia | lia | split; reflexivity |].
  split; [exact H1|]. split; [exact H2|exact H3].
Defined.

(** X27 for the same flower. *)
Lemma accepted_flowers_respect_limit_witness :
  (length (Flowers.nodes (Flowers.buildSeriesParallelGraph 2 3 2)) <= 100)%nat.
Proof.
  apply (accepted_flowers_respect_limit 2 3 2); [split; reflexivity | reflexivity].
Defined.
